(** * VoiceBridge real-time layer: a shallow embedding and its properties

    The development follows the Python sources of the streaming layer and
    of the drift monitor:

    - [Monitor]   : src/services/model_monitoring_service.py
    - [AudioProc] : src/services/streaming/audio_processor.py
    - [ConnMgr]   : src/services/streaming/connection_manager.py
    - [Engine]    : src/services/openai_whisper_service.py
    - [Kafka]     : src/services/kafka_stream_service.py
    - [Realtime]  : src/services/realtime_streaming_service.py
    - [Direct]    : process_audio_directly of main.py

    The first part holds the embedding, module by module; the second part
    the properties, in the same order.

    Conventions.  Python [float] is IEEE binary64, modelled by the kernel's
    primitive floats; Python [int] is [Z]; [str] is the [string] of its
    UTF-8 encoding; [bytes] is a list of bytes.  A [dict] whose iteration
    order is observed is an association list in insertion order; a [dict]
    that is only looked up, assigned and deleted is a [gmap].  A [set]
    whose iteration order is observed is the list of its members in
    iteration order, any other set a [gset].  A method that catches every
    exception returns its value and the state reached; the places where
    its body can raise are written out.  Clocks, uuid generation, random
    draws, numpy, Avro, the broker, the sockets and the request the
    transcription engine sends out are inputs.  Coroutines are taken a
    block at a time, from one suspension point to the next. *)

From Stdlib Require Import PrimFloat.
From stdpp Require Import gmap strings list fin_maps.

Local Open Scope string_scope.
Local Open Scope list_scope.
Local Open Scope Z_scope.

#[local] Set Warnings "-inexact-float,-clear-no-such-hyp".

(** Python [bytes]. *)
Abbreviation bytes := (list Byte.byte).

(** ** Python containers *)

Module Py.

(** [collections.deque(maxlen=n).append(x)]: when the deque already holds
    [n] items the leftmost one is discarded. *)
Definition deque_append {A} (maxlen : nat) (x : A) (d : list A) : list A :=
  if decide (length d < maxlen)%nat then d ++ [x]
  else drop (S (length d) - maxlen) (d ++ [x]).

(** [l[-n:]] for a positive [n]. *)
Definition last_n {A} (n : nat) (l : list A) : list A :=
  drop (length l - n) l.

(** [d.get(k, default)] on an insertion-ordered dict. *)
Fixpoint assoc_get {V} (k : string) (d : list (string * V)) : option V :=
  match d with
  | [] => None
  | (k', v) :: d' => if decide (k = k') then Some v else assoc_get k d'
  end.

(** [d[k] = f(d[k])] with a default for a missing key, as a
    [defaultdict] does: an existing key keeps its position, a new key goes
    last. *)
Fixpoint assoc_upd {V} (k : string) (f : option V -> V)
         (d : list (string * V)) : list (string * V) :=
  match d with
  | [] => [(k, f None)]
  | (k', v) :: d' =>
      if decide (k = k') then (k', f (Some v)) :: d'
      else (k', v) :: assoc_upd k f d'
  end.

(** The float an [int] converts to in mixed arithmetic (exact below 2^53,
    which chunk counts and chunk sizes are). *)
Fixpoint float_of_positive (p : positive) : float :=
  match p with
  | xH => 1%float
  | xO q => (2 * float_of_positive q)%float
  | xI q => (2 * float_of_positive q + 1)%float
  end.

Definition float_of_Z (z : Z) : float :=
  match z with
  | Z0 => 0%float
  | Zpos p => float_of_positive p
  | Zneg p => (- float_of_positive p)%float
  end.

(** [str.strip()].  A [str] is held as its UTF-8 encoding, so the white
    space characters of Python ([str.isspace]) are sequences of one, two
    or three bytes, given here by the codes of their bytes:
    U+0009..U+000D, U+001C..U+0020; U+0085, U+00A0; U+1680,
    U+2000..U+200A, U+2028, U+2029, U+202F, U+205F and U+3000. *)
Definition is_space (c : Ascii.ascii) : bool :=
  bool_decide (Ascii.nat_of_ascii c ∈ [9; 10; 11; 12; 13; 28; 29; 30; 31; 32]%nat).

Definition is_space2 (c1 c2 : Ascii.ascii) : bool :=
  bool_decide ((Ascii.nat_of_ascii c1, Ascii.nat_of_ascii c2)
               ∈ [(194, 133); (194, 160)]%nat).

Definition is_space3 (c1 c2 c3 : Ascii.ascii) : bool :=
  bool_decide ((Ascii.nat_of_ascii c1, Ascii.nat_of_ascii c2, Ascii.nat_of_ascii c3)
               ∈ [(225, 154, 128);
                  (226, 128, 128); (226, 128, 129); (226, 128, 130);
                  (226, 128, 131); (226, 128, 132); (226, 128, 133);
                  (226, 128, 134); (226, 128, 135); (226, 128, 136);
                  (226, 128, 137); (226, 128, 138);
                  (226, 128, 168); (226, 128, 169); (226, 128, 175);
                  (226, 129, 159); (227, 128, 128)]%nat).

(** Leading white space is dropped character by character.  With
    [backwards] the bytes of every character come last byte first, as they
    do in a reversed string. *)
Fixpoint lstrip_bytes (backwards : bool) (text : string) : string :=
  match text with
  | EmptyString => EmptyString
  | String c1 rest1 =>
      if is_space c1 then lstrip_bytes backwards rest1
      else
        match rest1 with
        | EmptyString => text
        | String c2 rest2 =>
            if (if backwards then is_space2 c2 c1 else is_space2 c1 c2)
            then lstrip_bytes backwards rest2
            else
              match rest2 with
              | EmptyString => text
              | String c3 rest3 =>
                  if (if backwards then is_space3 c3 c2 c1 else is_space3 c1 c2 c3)
                  then lstrip_bytes backwards rest3
                  else text
              end
        end
  end.

Definition lstrip (text : string) : string := lstrip_bytes false text.

Definition rstrip (text : string) : string :=
  String.rev (lstrip_bytes true (String.rev text)).

Definition strip (text : string) : string := rstrip (lstrip text).

(** The [str] whose UTF-8 encoding has the given byte codes. *)
Definition of_codes (codes : list nat) : string :=
  String.string_of_list_ascii (Ascii.ascii_of_nat <$> codes).

(** [b"".join(chunks)] *)
Definition bytes_join (chunks : list bytes) : bytes :=
  concat chunks.

End Py.

(** ** The drift monitor *)

Module Monitor.

Record ModelPerformanceMetrics := {
  model_name : string;
  timestamp : Z;
  accuracy : float;
  confidence : float;
  processing_time : float;
  error_rate : float;
  throughput : float;
  latency_p95 : float;
  latency_p99 : float
}.

Record ModelDriftAlert := {
  alert_model_name : string;
  metric_name : string;
  current_value : float;
  baseline_value : float;
  drift_percentage : float;
  severity : string;
  alert_timestamp : Z
}.

(** The service object.  [handled] is the sequence of alerts passed to
    [_handle_drift_alert] (what reaches the log, Prometheus and MLflow);
    it is never truncated, unlike [alert_history]. *)
Record ModelMonitoringService := {
  performance_history : list (string * list ModelPerformanceMetrics);
  baseline_metrics : gmap string (gmap string float);
  drift_thresholds : list (string * float);
  alert_history : list ModelDriftAlert;
  monitoring_active : bool;
  handled : list ModelDriftAlert
}.

(** [__init__] *)
Definition init : ModelMonitoringService := {|
  performance_history := [];
  baseline_metrics := ∅;
  drift_thresholds :=
    [("accuracy", 0.05%float); ("confidence", 0.10%float);
     ("processing_time", 0.20%float); ("error_rate", 0.15%float)];
  alert_history := [];
  monitoring_active := true;
  handled := []
|}.

Definition with_history ph (svc : ModelMonitoringService) := {|
  performance_history := ph;
  baseline_metrics := baseline_metrics svc;
  drift_thresholds := drift_thresholds svc;
  alert_history := alert_history svc;
  monitoring_active := monitoring_active svc;
  handled := handled svc
|}.

Definition with_baseline bm (svc : ModelMonitoringService) := {|
  performance_history := performance_history svc;
  baseline_metrics := bm;
  drift_thresholds := drift_thresholds svc;
  alert_history := alert_history svc;
  monitoring_active := monitoring_active svc;
  handled := handled svc
|}.

(** [record_model_performance]: the sample is appended to the model's
    bounded history before any of the external loggers is called, so a
    failure of those (caught by the method) leaves the append in place. *)
Definition record_model_performance (now : Z) (name : string)
           (acc conf ptime : float) (error_occurred : bool)
           (svc : ModelMonitoringService) : ModelMonitoringService :=
  let metrics := {|
    model_name := name;
    timestamp := now;
    accuracy := acc;
    confidence := conf;
    processing_time := ptime;
    error_rate := if error_occurred then 1.0%float else 0.0%float;
    throughput := if PrimFloat.ltb 0 ptime then (1.0 / ptime)%float else 0%float;
    latency_p95 := ptime;
    latency_p99 := ptime
  |} in
  with_history
    (Py.assoc_upd name
       (fun old => Py.deque_append 1000 metrics (default [] old))
       (performance_history svc))
    svc.

(** [_determine_severity] *)
Definition _determine_severity (drift threshold : float) : string :=
  if PrimFloat.ltb (threshold * 3) drift then "critical"
  else if PrimFloat.ltb (threshold * 2) drift then "high"
  else if PrimFloat.ltb (threshold * 1.5) drift then "medium"
  else "low".

(** [_handle_drift_alert]: logging and metric export only. *)
Definition _handle_drift_alert (alert : ModelDriftAlert)
           (svc : ModelMonitoringService) : ModelMonitoringService := {|
  performance_history := performance_history svc;
  baseline_metrics := baseline_metrics svc;
  drift_thresholds := drift_thresholds svc;
  alert_history := alert_history svc;
  monitoring_active := monitoring_active svc;
  handled := handled svc ++ [alert]
|}.

Definition append_alert (alert : ModelDriftAlert)
           (svc : ModelMonitoringService) : ModelMonitoringService := {|
  performance_history := performance_history svc;
  baseline_metrics := baseline_metrics svc;
  drift_thresholds := drift_thresholds svc;
  alert_history := Py.deque_append 100 alert (alert_history svc);
  monitoring_active := monitoring_active svc;
  handled := handled svc
|}.

(** The drift fraction of one metric (the two branches of the
    [if metric_name in ["processing_time", "error_rate"]] test). *)
Definition drift_fraction (metric : string) (current baseline : float) : float :=
  if bool_decide (metric ∈ ["processing_time"; "error_rate"])
  then ((current - baseline) / baseline)%float
  else ((baseline - current) / baseline)%float.

(** Body of the inner loop of [_check_model_drift], for one
    [(metric_name, threshold)] item of [drift_thresholds].
    [datetime.utcnow()] is read when an alert is built, once for every
    alert: [now name metric] is the reading taken for the alert of model
    [name] on [metric]. *)
Definition check_metric (now : string -> string -> Z) (name : string)
           (current baseline : gmap string float)
           (svc : ModelMonitoringService) (item : string * float)
  : ModelMonitoringService :=
  let '(metric, threshold) := item in
  let current_value := default 0%float (current !! metric) in
  let baseline_value := default 0%float (baseline !! metric) in
  if PrimFloat.eqb baseline_value 0 then svc
  else
    let drift := drift_fraction metric current_value baseline_value in
    if PrimFloat.ltb threshold drift then
      let alert := {|
        alert_model_name := name;
        metric_name := metric;
        current_value := current_value;
        baseline_value := baseline_value;
        drift_percentage := drift;
        severity := _determine_severity drift threshold;
        alert_timestamp := now name metric
      |} in
      _handle_drift_alert alert (append_alert alert svc)
    else svc.

Section WithNumpy.

(** [numpy.mean] and [numpy.percentile] on a list of floats. *)
Variable np_mean : list float -> float.
Variable np_percentile : list float -> float -> float.

(** [_calculate_metrics_average] *)
Definition _calculate_metrics_average
           (metrics_list : list ModelPerformanceMetrics) : gmap string float :=
  match metrics_list with
  | [] => ∅
  | _ =>
      <["latency_p99" := np_percentile (latency_p99 <$> metrics_list) 99%float]>
      (<["latency_p95" := np_percentile (latency_p95 <$> metrics_list) 95%float]>
      (<["throughput" := np_mean (throughput <$> metrics_list)]>
      (<["error_rate" := np_mean (error_rate <$> metrics_list)]>
      (<["processing_time" := np_mean (processing_time <$> metrics_list)]>
      (<["confidence" := np_mean (confidence <$> metrics_list)]>
      (<["accuracy" := np_mean (accuracy <$> metrics_list)]> ∅))))))
  end.

(** Body of the outer loop of [_check_model_drift], for one
    [(model_name, history)] item of [performance_history]. *)
Definition check_model (now : string -> string -> Z) (svc : ModelMonitoringService)
           (item : string * list ModelPerformanceMetrics)
  : ModelMonitoringService :=
  let '(name, history) := item in
  if decide (length history < 10)%nat then svc
  else
    let recent_metrics := Py.last_n 100 history in
    let current_metrics := _calculate_metrics_average recent_metrics in
    let baseline := default ∅ (baseline_metrics svc !! name) in
    if decide (baseline = ∅) then
      with_baseline (<[name := current_metrics]> (baseline_metrics svc)) svc
    else
      fold_left (check_metric now name current_metrics baseline)
                (drift_thresholds svc) svc.

(** [_check_model_drift].  The loop runs over the items of
    [performance_history] as they are when the check starts. *)
Definition _check_model_drift (now : string -> string -> Z)
           (svc : ModelMonitoringService)
  : ModelMonitoringService :=
  fold_left (check_model now) (performance_history svc) svc.

(** [_update_baseline_metrics] *)
Definition update_model_baseline (svc : ModelMonitoringService)
           (item : string * list ModelPerformanceMetrics)
  : ModelMonitoringService :=
  let '(name, history) := item in
  if decide (length history < 50)%nat then svc
  else
    with_baseline
      (<[name := _calculate_metrics_average (Py.last_n 200 history)]>
         (baseline_metrics svc))
      svc.

Definition _update_baseline_metrics (svc : ModelMonitoringService)
  : ModelMonitoringService :=
  fold_left update_model_baseline (performance_history svc) svc.

(** The alerts a drift check appends: what it adds to [handled]. *)
Definition appended_alerts (now : string -> string -> Z)
           (svc : ModelMonitoringService)
  : list ModelDriftAlert :=
  drop (length (handled svc)) (handled (_check_model_drift now svc)).

End WithNumpy.

(** *** Vocabulary for the properties *)

(** [built_for name m t cur base a]: [a] is the alert the inner loop
    builds for metric [m] with threshold [t], from the current and the
    baseline averages, when the drift is above the threshold. *)
Definition built_for (name metric : string) (threshold : float)
           (current baseline : gmap string float) (a : ModelDriftAlert) : Prop :=
  alert_model_name a = name /\
  metric_name a = metric /\
  current_value a = default 0%float (current !! metric) /\
  baseline_value a = default 0%float (baseline !! metric) /\
  drift_percentage a
  = drift_fraction metric (current_value a) (baseline_value a) /\
  PrimFloat.ltb threshold (drift_percentage a) = true /\
  severity a = _determine_severity (drift_percentage a) threshold.

(** The severity scale as the code draws it: each bound is strict. *)
Definition strict_severity_rule (drift threshold : float) (sev : string) : Prop :=
  (PrimFloat.ltb (threshold * 3) drift = true -> sev = "critical") /\
  (PrimFloat.ltb (threshold * 3) drift = false ->
   PrimFloat.ltb (threshold * 2) drift = true -> sev = "high") /\
  (PrimFloat.ltb (threshold * 3) drift = false ->
   PrimFloat.ltb (threshold * 2) drift = false ->
   PrimFloat.ltb (threshold * 1.5) drift = true -> sev = "medium") /\
  (PrimFloat.ltb (threshold * 3) drift = false ->
   PrimFloat.ltb (threshold * 2) drift = false ->
   PrimFloat.ltb (threshold * 1.5) drift = false -> sev = "low").

(** [adds Q svc svc']: [svc'] is [svc] with alerts appended, all of them
    satisfying [Q]; histories and thresholds are the same. *)
Definition adds (Q : ModelDriftAlert -> Prop)
           (svc svc' : ModelMonitoringService) : Prop :=
  performance_history svc' = performance_history svc /\
  drift_thresholds svc' = drift_thresholds svc /\
  exists new, handled svc' = handled svc ++ new /\ Forall Q new.

(** A left-to-right mean and a maximum, used to run the monitor on
    concrete data where numpy's functions are needed. *)
Fixpoint float_of_nat (n : nat) : float :=
  match n with
  | O => 0%float
  | S n' => (float_of_nat n' + 1)%float
  end.

Definition seq_mean (l : list float) : float :=
  (fold_left PrimFloat.add l 0 / float_of_nat (length l))%float.

Definition seq_percentile (l : list float) (q : float) : float :=
  fold_left (fun a b => if PrimFloat.ltb a b then b else a) l 0%float.

(** *** Runs from a fresh service

    Samples are recorded as the streaming service records them (accuracy
    and confidence both set to the engine's confidence); confidences of 1
    and 0 keep every window sum exact. *)
Definition record_all (confs : list float) (svc : ModelMonitoringService)
  : ModelMonitoringService :=
  fold_left
    (fun s c => record_model_performance 0 "whisper_realtime" c c 0.5%float false s)
    confs svc.

Definition ones_then_zeros (n m : nat) : list float :=
  replicate n 1%float ++ replicate m 0%float.

(** A clock that stands still at [t]. *)
Definition clock_at (t : Z) : string -> string -> Z := fun _ _ => t.

(** Record [first], run one drift check (the bootstrap), record [more]. *)
Definition bootstrapped_then (first more : list float) : ModelMonitoringService :=
  record_all more
    (_check_model_drift seq_mean seq_percentile (clock_at 60)
       (record_all first init)).

(** Baseline confidence 1.0, then a window average of 14/20 = 0.7. *)
Definition svc_drift_3t : ModelMonitoringService :=
  bootstrapped_then (ones_then_zeros 10 0) (ones_then_zeros 4 6).

(** Baseline confidence 9/10 = 0.9, then a window average of 14/20 = 0.7. *)
Definition svc_090_070 : ModelMonitoringService :=
  bootstrapped_then (ones_then_zeros 9 1) (ones_then_zeros 5 5).

(** Baseline confidence 9/10 = 0.9, then a window average of 10/20 = 0.5. *)
Definition svc_090_050 : ModelMonitoringService :=
  bootstrapped_then (ones_then_zeros 9 1) (ones_then_zeros 1 9).

(** The confidence alert of the check on [svc_drift_3t]. *)
Definition alert_3t : ModelDriftAlert := {|
  alert_model_name := "whisper_realtime";
  metric_name := "confidence";
  current_value := (14 / 20)%float;
  baseline_value := 1%float;
  drift_percentage := ((1 - 14 / 20) / 1)%float;
  severity := "high";
  alert_timestamp := 120
|}.

(** Ten samples recorded, no drift check run yet; and three samples only. *)
Definition svc_ten_samples : ModelMonitoringService :=
  record_all (ones_then_zeros 9 1) init.

Definition svc_three_samples : ModelMonitoringService :=
  record_all (ones_then_zeros 3 0) init.

Definition svc_fifty_samples : ModelMonitoringService :=
  record_all (ones_then_zeros 45 5) init.

(** The samples recorded for the streaming model. *)
Definition history_of (svc : ModelMonitoringService) : list ModelPerformanceMetrics :=
  default [] (Py.assoc_get "whisper_realtime" (performance_history svc)).

(** *** Recording in bulk and the status reports *)

(** One call of [record_model_performance], as data. *)
Record Observation := {
  o_time : Z;
  o_model : string;
  o_accuracy : float;
  o_confidence : float;
  o_processing_time : float;
  o_error : bool
}.

(** The sample [record_model_performance] builds from its arguments. *)
Definition metrics_of (o : Observation) : ModelPerformanceMetrics := {|
  model_name := o_model o;
  timestamp := o_time o;
  accuracy := o_accuracy o;
  confidence := o_confidence o;
  processing_time := o_processing_time o;
  error_rate := if o_error o then 1.0%float else 0.0%float;
  throughput :=
    if PrimFloat.ltb 0 (o_processing_time o)
    then (1.0 / o_processing_time o)%float else 0%float;
  latency_p95 := o_processing_time o;
  latency_p99 := o_processing_time o
|}.

Definition record_observation (svc : ModelMonitoringService) (o : Observation)
  : ModelMonitoringService :=
  record_model_performance (o_time o) (o_model o) (o_accuracy o)
    (o_confidence o) (o_processing_time o) (o_error o) svc.

Definition record_observations (os : list Observation)
           (svc : ModelMonitoringService) : ModelMonitoringService :=
  fold_left record_observation os svc.

(** [self.performance_history[name]], empty for a model never seen. *)
Definition history_for (name : string) (svc : ModelMonitoringService)
  : list ModelPerformanceMetrics :=
  default [] (Py.assoc_get name (performance_history svc)).

(** [timedelta(hours=...)], with time stamps counted in microseconds. *)
Definition hours (n : Z) : Z := n * 3600000000.

(** The alerts of [name] younger than an hour (the comprehension of
    [get_model_health_status]).  [datetime.utcnow()] is read anew for
    every alert of the model: [now name i] is the reading taken for the
    alert at position [i] of the alert history. *)
Definition recent_alerts (now : string -> nat -> Z) (name : string)
           (svc : ModelMonitoringService) : list ModelDriftAlert :=
  (filter (fun ia : nat * ModelDriftAlert =>
             alert_model_name ia.2 = name /\
             now name ia.1 - hours 1 < alert_timestamp ia.2)
          (imap pair (alert_history svc))).*2.

(** The [if any(...) elif any(...)] chain on a model's recent alerts. *)
Definition model_status (recent : list ModelDriftAlert) : string :=
  if existsb (fun a => bool_decide (severity a = "critical")) recent then "critical"
  else if existsb (fun a => bool_decide (severity a = "high")) recent then "warning"
  else if existsb (fun a => bool_decide (severity a ∈ ["medium"; "low"])) recent
       then "degraded"
  else "healthy".

Record ModelHealth := {
  status : string;
  recent_alert_count : nat;
  baseline_available : bool
}.

Record HealthStatus := {
  overall_status : string;
  models : list (string * ModelHealth);
  total_alerts : nat;
  critical_alerts : nat
}.

(** [get_model_health_status], without the time stamp of the report. *)
Definition get_model_health_status (now : string -> nat -> Z)
           (svc : ModelMonitoringService) : HealthStatus :=
  let models :=
    (fun item : string * list ModelPerformanceMetrics =>
       let recent := recent_alerts now item.1 svc in
       (item.1,
        {| status := model_status recent;
           recent_alert_count := length recent;
           baseline_available :=
             bool_decide (is_Some (baseline_metrics svc !! item.1)) |}))
    <$> performance_history svc in
  let model_statuses := (fun m : string * ModelHealth => status m.2) <$> models in
  {| overall_status :=
       if bool_decide ("critical" ∈ model_statuses) then "critical"
       else if bool_decide ("warning" ∈ model_statuses) then "warning"
       else if bool_decide ("degraded" ∈ model_statuses) then "degraded"
       else "healthy";
     models := models;
     total_alerts := length (alert_history svc);
     critical_alerts :=
       length (filter (fun a => severity a = "critical") (alert_history svc)) |}.

(** A tracked model has an alert younger than an hour (by the clock
    reading taken for it) whose severity is one of [sevs]. *)
Definition tracked_recent_alert (sevs : list string) (now : string -> nat -> Z)
           (svc : ModelMonitoringService) : Prop :=
  exists name i a,
    name ∈ (performance_history svc).*1 /\ alert_history svc !! i = Some a /\
    alert_model_name a = name /\ now name i - hours 1 < alert_timestamp a /\
    severity a ∈ sevs.

(** A service with one alert of each kind, for two tracked models. *)
Definition alert_of (name sev : string) (time : Z) : ModelDriftAlert := {|
  alert_model_name := name; metric_name := "confidence";
  current_value := 0.5%float; baseline_value := 0.9%float;
  drift_percentage := ((0.9 - 0.5) / 0.9)%float;
  severity := sev; alert_timestamp := time
|}.

Definition svc_with_alerts : ModelMonitoringService := {|
  performance_history := [("whisper_realtime", []); ("whisper_kafka", [])];
  baseline_metrics := ∅;
  drift_thresholds := drift_thresholds init;
  alert_history :=
    [alert_of "whisper_kafka" "critical" (hours 1);
     alert_of "whisper_realtime" "high" (hours 5);
     alert_of "whisper_kafka" "low" (hours 5 + 1)];
  monitoring_active := true;
  handled := []
|}.

End Monitor.

(** ** The audio stream buffer *)

Module AudioProc.

Record Stats := {
  total_chunks_processed : Z;
  total_audio_duration : float;
  average_chunk_size : float;
  buffer_overflows : Z
}.

Record AudioStreamProcessor := {
  buffer_size : Z;
  chunk_duration : float;
  audio_buffers : gmap string (list bytes);
  stats : Stats
}.

(** [__init__(buffer_size, chunk_duration)] *)
Definition init (size : Z) (duration : float) : AudioStreamProcessor := {|
  buffer_size := size;
  chunk_duration := duration;
  audio_buffers := ∅;
  stats := {| total_chunks_processed := 0;
              total_audio_duration := 0%float;
              average_chunk_size := 0%float;
              buffer_overflows := 0 |}
|}.

Definition with_buffers (bufs : gmap string (list bytes))
           (p : AudioStreamProcessor) : AudioStreamProcessor := {|
  buffer_size := buffer_size p;
  chunk_duration := chunk_duration p;
  audio_buffers := bufs;
  stats := stats p
|}.

Definition with_stats (st : Stats) (p : AudioStreamProcessor)
  : AudioStreamProcessor := {|
  buffer_size := buffer_size p;
  chunk_duration := chunk_duration p;
  audio_buffers := audio_buffers p;
  stats := st
|}.

(** [add_audio_chunk].  The two places where the body can raise are
    written out, each ending in the method's [except] clause, which returns
    [False] and keeps the mutations made so far: [pop(0)] on an empty list
    (a capacity of zero or less), and the division by a zero chunk count. *)
Definition add_audio_chunk (session_id : string) (audio_chunk : bytes)
           (p : AudioStreamProcessor) : bool * AudioStreamProcessor :=
  (* if session_id not in self.audio_buffers: self.audio_buffers[session_id] = [] *)
  let bufs0 :=
    match audio_buffers p !! session_id with
    | Some _ => audio_buffers p
    | None => <[session_id := []]> (audio_buffers p)
    end in
  let buf0 := default [] (bufs0 !! session_id) in
  (* if len(buffer) >= self.buffer_size: buffer.pop(0); overflows += 1 *)
  let popped : option (list bytes * Z) :=
    if Z.of_nat (length buf0) >=? buffer_size p then
      match buf0 with
      | [] => None
      | _ :: rest => Some (rest, buffer_overflows (stats p) + 1)
      end
    else Some (buf0, buffer_overflows (stats p)) in
  match popped with
  | None => (false, with_buffers bufs0 p)
  | Some (buf1, overflows) =>
      (* buffer.append(audio_chunk); total_chunks_processed += 1 *)
      let bufs1 := <[session_id := buf1 ++ [audio_chunk]]> bufs0 in
      let total_chunks := total_chunks_processed (stats p) + 1 in
      let chunk_size := Z.of_nat (length audio_chunk) in
      let current_avg := average_chunk_size (stats p) in
      if total_chunks =? 0 then
        (false,
         with_stats {| total_chunks_processed := total_chunks;
                       total_audio_duration := total_audio_duration (stats p);
                       average_chunk_size := current_avg;
                       buffer_overflows := overflows |}
                    (with_buffers bufs1 p))
      else
        (true,
         with_stats {| total_chunks_processed := total_chunks;
                       total_audio_duration := total_audio_duration (stats p);
                       average_chunk_size :=
                         ((current_avg * Py.float_of_Z (total_chunks - 1)
                           + Py.float_of_Z chunk_size)
                          / Py.float_of_Z total_chunks)%float;
                       buffer_overflows := overflows |}
                    (with_buffers bufs1 p))
  end.

(** [get_audio_chunks] *)
Definition get_audio_chunks (session_id : string) (clear_buffer : bool)
           (p : AudioStreamProcessor) : list bytes * AudioStreamProcessor :=
  match audio_buffers p !! session_id with
  | None => ([], p)
  | Some chunks =>
      (chunks,
       if clear_buffer
       then with_buffers (<[session_id := []]> (audio_buffers p)) p
       else p)
  end.

(** [get_combined_audio] *)
Definition get_combined_audio (session_id : string) (clear_buffer : bool)
           (p : AudioStreamProcessor) : bytes * AudioStreamProcessor :=
  let '(chunks, p') := get_audio_chunks session_id clear_buffer p in
  (Py.bytes_join chunks, p').

(** A sequence of appends, each to some session, with the value every
    call returned. *)
Definition add_all (ops : list (string * bytes)) (p : AudioStreamProcessor)
  : list bool * AudioStreamProcessor :=
  fold_left
    (fun acc op =>
       let '(ok, p') := add_audio_chunk op.1 op.2 acc.2 in
       (acc.1 ++ [ok], p'))
    ops ([], p).

(** The chunks a sequence of appends gave to one session, in order. *)
Definition chunks_for (session_id : string) (ops : list (string * bytes))
  : list bytes :=
  (filter (fun op => op.1 = session_id) ops).*2.

(** What holds of the processor after any sequence of appends. *)
Definition buffers_track (C : Z) (ops : list (string * bytes))
           (p : AudioStreamProcessor) : Prop :=
  buffer_size p = C /\
  total_chunks_processed (stats p) = Z.of_nat (length ops) /\
  forall sid,
    audio_buffers p !! sid
    = match chunks_for sid ops with
      | [] => None
      | chunks => Some (Py.last_n (Z.to_nat C) chunks)
      end.

(** Sample data: three chunks for one session, one for another. *)
Definition chunk_a : bytes := [Byte.x01; Byte.x02].
Definition chunk_b : bytes := [Byte.x03].
Definition chunk_c : bytes := [Byte.x04; Byte.x05; Byte.x06].
Definition chunk_d : bytes := [Byte.x07].

Definition sample_appends : list (string * bytes) :=
  [("s1", chunk_a); ("s2", chunk_d); ("s1", chunk_b); ("s1", chunk_c)].

(** *** The other entry points *)

(** [clear_buffer]: the buffer is emptied in place, the session stays. *)
Definition clear_buffer (session_id : string) (p : AudioStreamProcessor)
  : bool * AudioStreamProcessor :=
  match audio_buffers p !! session_id with
  | Some _ => (true, with_buffers (<[session_id := []]> (audio_buffers p)) p)
  | None => (false, p)
  end.

(** [cleanup_session]: the session's entry is deleted. *)
Definition cleanup_session (session_id : string) (p : AudioStreamProcessor)
  : bool * AudioStreamProcessor :=
  match audio_buffers p !! session_id with
  | Some _ => (true, with_buffers (delete session_id (audio_buffers p)) p)
  | None => (false, p)
  end.

(** [cleanup_all_sessions] *)
Definition cleanup_all_sessions (p : AudioStreamProcessor)
  : Z * AudioStreamProcessor :=
  (Z.of_nat (size (audio_buffers p)), with_buffers ∅ p).

(** [is_session_active] *)
Definition is_session_active (session_id : string) (p : AudioStreamProcessor)
  : bool :=
  bool_decide (is_Some (audio_buffers p !! session_id)).

(** The dict [get_buffer_info] returns.  [info_average_chunk_size] is
    absent for a session without buffer; the quotient of the two [int]s is
    the quotient of their floats for sizes below 2^53. *)
Record BufferInfo := {
  info_session_id : string;
  chunk_count : Z;
  total_size : Z;
  info_buffer_size : Z;
  is_full : bool;
  info_average_chunk_size : option float
}.

(** [sum(len(chunk) for chunk in chunks)] *)
Definition sum_sizes (chunks : list bytes) : Z :=
  fold_left (fun acc chunk => acc + Z.of_nat (length chunk)) chunks 0.

(** [get_buffer_info] *)
Definition get_buffer_info (session_id : string) (p : AudioStreamProcessor)
  : BufferInfo :=
  match audio_buffers p !! session_id with
  | None =>
      {| info_session_id := session_id; chunk_count := 0; total_size := 0;
         info_buffer_size := buffer_size p; is_full := false;
         info_average_chunk_size := None |}
  | Some chunks =>
      let total := sum_sizes chunks in
      {| info_session_id := session_id;
         chunk_count := Z.of_nat (length chunks);
         total_size := total;
         info_buffer_size := buffer_size p;
         is_full := Z.of_nat (length chunks) >=? buffer_size p;
         info_average_chunk_size :=
           Some (match chunks with
                 | [] => 0%float
                 | _ => (Py.float_of_Z total
                         / Py.float_of_Z (Z.of_nat (length chunks)))%float
                 end) |}
  end.

(** What [process_audio_stream] returns. *)
Inductive StreamResult (R : Type) :=
| NoAudio (session_id : string)
| Processed (result : R) (processing_time : float) (audio_size : Z)
            (session_id : string) (timestamp : float)
| Errored (error : string) (session_id : string) (timestamp : float).
Arguments NoAudio {R}.
Arguments Processed {R}.
Arguments Errored {R}.

(** [process_audio_stream].  The callback is awaited outside the lock:
    it is given the processor as the drain left it, and whatever happens to
    the processor until it returns (its own calls and those of other
    tasks) is its second result; it ends with a value or with an exception
    (its text).  [clock] lists the readings of [time.time()] in the order
    they are taken. *)
Definition process_audio_stream {R} (session_id : string)
           (processing_callback :
              bytes -> AudioStreamProcessor -> (R + string) * AudioStreamProcessor)
           (clock : nat -> float) (p : AudioStreamProcessor)
  : StreamResult R * AudioStreamProcessor :=
  let '(audio_data, p1) := get_combined_audio session_id true p in
  match audio_data with
  | [] => (NoAudio session_id, p1)
  | _ =>
      let start_time := clock 0%nat in
      match processing_callback audio_data p1 with
      | (inl result, p2) =>
          let processing_time := (clock 1%nat - start_time)%float in
          (Processed result processing_time (Z.of_nat (length audio_data))
                     session_id (clock 2%nat),
           with_stats
             {| total_chunks_processed := total_chunks_processed (stats p2);
                total_audio_duration :=
                  (total_audio_duration (stats p2) + processing_time)%float;
                average_chunk_size := average_chunk_size (stats p2);
                buffer_overflows := buffer_overflows (stats p2) |}
             p2)
      | (inr error, p2) => (Errored error session_id (clock 1%nat), p2)
      end
  end.

(** *** Sequences of calls *)

Inductive call :=
| AddChunk (session_id : string) (audio_chunk : bytes)
| GetChunks (session_id : string) (clear_buffer : bool)
| ClearBuffer (session_id : string)
| CleanupSession (session_id : string)
| CleanupAll.

Definition step (p : AudioStreamProcessor) (c : call) : AudioStreamProcessor :=
  match c with
  | AddChunk sid chunk => (add_audio_chunk sid chunk p).2
  | GetChunks sid clear => (get_audio_chunks sid clear p).2
  | ClearBuffer sid => (clear_buffer sid p).2
  | CleanupSession sid => (cleanup_session sid p).2
  | CleanupAll => (cleanup_all_sessions p).2
  end.

Definition run (calls : list call) (p : AudioStreamProcessor)
  : AudioStreamProcessor :=
  fold_left step calls p.

(** The number of chunks held in all buffers. *)
Definition held (bufs : gmap string (list bytes)) : Z :=
  map_fold (fun _ (chunks : list bytes) n => Z.of_nat (length chunks) + n) 0 bufs.

Definition buffered (p : AudioStreamProcessor) : Z :=
  held (audio_buffers p).

(** The chunks counted as processed and not lost to an overflow, beyond
    those still held. *)
Definition balance (p : AudioStreamProcessor) : Z :=
  total_chunks_processed (stats p) - buffer_overflows (stats p) - buffered p.

(** What every call keeps: the capacity, a count of processed chunks and
    of overflows that is not negative, and buffers within the capacity. *)
Definition within (C : Z) (p : AudioStreamProcessor) : Prop :=
  buffer_size p = C /\
  0 <= total_chunks_processed (stats p) /\
  0 <= buffer_overflows (stats p) /\
  forall sid chunks, audio_buffers p !! sid = Some chunks ->
                     Z.of_nat (length chunks) <= C.

(** The number of chunks a call takes out of the buffers on purpose: a
    clearing read hands them to the caller, the other three discard them. *)
Definition removed (c : call) (p : AudioStreamProcessor) : Z :=
  match c with
  | AddChunk _ _ => 0
  | GetChunks sid true => Z.of_nat (length (get_audio_chunks sid true p).1)
  | GetChunks sid false => 0
  | ClearBuffer sid | CleanupSession sid =>
      Z.of_nat (length (default [] (audio_buffers p !! sid)))
  | CleanupAll => buffered p
  end.

Fixpoint removed_by (calls : list call) (p : AudioStreamProcessor) : Z :=
  match calls with
  | [] => 0
  | c :: rest => removed c p + removed_by rest (step p c)
  end.

(** The number of [add_audio_chunk] calls in a sequence. *)
Definition is_add (c : call) : bool :=
  match c with AddChunk _ _ => true | _ => false end.

Definition adds_in (calls : list call) : Z :=
  Z.of_nat (length (filter (fun c => is_add c = true) calls)).

(** A call that ends a session: its clean-up, or the clean-up of all. *)
Definition ends (session_id : string) (c : call) : Prop :=
  c = CleanupSession session_id \/ c = CleanupAll.

Definition sample_calls : list call :=
  [AddChunk "s1" chunk_a; AddChunk "s2" chunk_d; AddChunk "s1" chunk_b;
   GetChunks "s1" true; AddChunk "s1" chunk_c; AddChunk "s1" chunk_a;
   AddChunk "s1" chunk_b; ClearBuffer "s2"; CleanupSession "s3"].

End AudioProc.

(** ** The connection manager *)

Module ConnMgr.

(** The exceptions that occur: [websockets.ConnectionClosed], the
    [RuntimeError] of a set that changed size while iterated, and any other
    [Exception]. *)
Inductive exn :=
| ConnectionClosed
| RuntimeError (msg : string)
| OtherError (msg : string).

Inductive send_outcome :=
| SendOk
| SendRaises (e : exn).

(** A transport: how [accept()] and [send()] behave, and what the peer
    has received so far. *)
Record WebSocket := {
  user_agent : string;
  remote_address : string;
  on_accept : option exn;
  on_send : send_outcome;
  delivered : list string
}.

Record SessionInfo := {
  session_id : string;
  user_id : option string;
  connected_at : float;
  last_activity : float;
  audio_chunks_received : Z;
  transcriptions_sent : Z;
  connection_count : Z
}.

Record Metadata := {
  md_user_agent : string;
  md_remote_addr : string;
  md_connected_at : float
}.

Record Stats := {
  total_connections : Z;
  stat_active_connections : Z;
  total_sessions : Z;
  active_sessions : Z
}.

(** The manager.  A session's connection set is kept as the list of its
    members in the order in which the set iterates. *)
Record ConnectionManager := {
  active_connections : gmap string WebSocket;
  connection_sessions : gmap string SessionInfo;
  session_connections : gmap string (list string);
  connection_metadata : gmap string Metadata;
  stats : Stats
}.

Definition init : ConnectionManager := {|
  active_connections := ∅;
  connection_sessions := ∅;
  session_connections := ∅;
  connection_metadata := ∅;
  stats := {| total_connections := 0; stat_active_connections := 0;
              total_sessions := 0; active_sessions := 0 |}
|}.

(** [s.add(x)] and [s.discard(x)] on a set kept as a list. *)
Definition set_add (x : string) (s : list string) : list string :=
  if bool_decide (x ∈ s) then s else s ++ [x].

Definition set_discard (x : string) (s : list string) : list string :=
  filter (fun y => y <> x) s.

Definition bump_connection_count (info : SessionInfo) : SessionInfo := {|
  session_id := session_id info;
  user_id := user_id info;
  connected_at := connected_at info;
  last_activity := last_activity info;
  audio_chunks_received := audio_chunks_received info;
  transcriptions_sent := transcriptions_sent info;
  connection_count := connection_count info + 1
|}.

Definition touch (now : float) (info : SessionInfo) : SessionInfo := {|
  session_id := session_id info;
  user_id := user_id info;
  connected_at := connected_at info;
  last_activity := now;
  audio_chunks_received := audio_chunks_received info;
  transcriptions_sent := transcriptions_sent info;
  connection_count := connection_count info
|}.

(** The first connection of the set that has session info gets its
    [connection_count] incremented (the [for ... break] of
    [add_connection]). *)
Fixpoint bump_first (members : list string)
         (infos : gmap string SessionInfo) : gmap string SessionInfo :=
  match members with
  | [] => infos
  | c :: rest =>
      match infos !! c with
      | Some info => <[c := bump_connection_count info]> infos
      | None => bump_first rest infos
      end
  end.

(** [add_connection]; [new_connection_id] and [new_session_id] are the
    two [uuid4()] strings.  A failing [accept()] is re-raised with nothing
    registered. *)
Definition add_connection (new_connection_id new_session_id : string)
           (websocket : WebSocket) (user : option string) (now : float)
           (mgr : ConnectionManager)
  : (exn + string * string) * ConnectionManager :=
  match on_accept websocket with
  | Some e => (inl e, mgr)
  | None =>
      let session_info := {|
        session_id := new_session_id;
        user_id := user;
        connected_at := now;
        last_activity := now;
        audio_chunks_received := 0;
        transcriptions_sent := 0;
        connection_count := 1
      |} in
      let infos := <[new_connection_id := session_info]> (connection_sessions mgr) in
      let existing := session_connections mgr !! new_session_id in
      let infos' :=
        match existing with
        | None => infos
        | Some members => bump_first members infos
        end in
      let st := stats mgr in
      (inr (new_connection_id, new_session_id),
       {| active_connections :=
            <[new_connection_id := websocket]> (active_connections mgr);
          connection_sessions := infos';
          session_connections :=
            <[new_session_id := set_add new_connection_id (default [] existing)]>
              (session_connections mgr);
          connection_metadata :=
            <[new_connection_id :=
                {| md_user_agent := user_agent websocket;
                   md_remote_addr := remote_address websocket;
                   md_connected_at := now |}]> (connection_metadata mgr);
          stats :=
            {| total_connections := total_connections st + 1;
               stat_active_connections := stat_active_connections st + 1;
               total_sessions :=
                 match existing with
                 | Some _ => total_sessions st
                 | None => total_sessions st + 1
                 end;
               active_sessions :=
                 match existing with
                 | Some _ => active_sessions st
                 | None => active_sessions st + 1
                 end
            |}
       |})
  end.

(** [remove_connection] *)
Definition remove_connection (connection_id : string) (mgr : ConnectionManager)
  : option string * ConnectionManager :=
  match active_connections mgr !! connection_id with
  | None => (None, mgr)
  | Some _ =>
      let sid : option string :=
        session_id <$> connection_sessions mgr !! connection_id in
      (* if session_id and session_id in self.session_connections *)
      let in_session : option (string * list string) :=
        match sid with
        | Some s =>
            if bool_decide (s = "") then None
            else (fun members => (s, members)) <$> session_connections mgr !! s
        | None => None
        end in
      let '(sessions, session_gone) :=
        match in_session with
        | Some (s, members) =>
            match set_discard connection_id members with
            | [] => (delete s (session_connections mgr), true)
            | members' => (<[s := members']> (session_connections mgr), false)
            end
        | None => (session_connections mgr, false)
        end in
      let st := stats mgr in
      (sid,
       {| active_connections := delete connection_id (active_connections mgr);
          connection_sessions := delete connection_id (connection_sessions mgr);
          session_connections := sessions;
          connection_metadata := delete connection_id (connection_metadata mgr);
          stats :=
            {| total_connections := total_connections st;
               stat_active_connections := stat_active_connections st - 1;
               total_sessions := total_sessions st;
               active_sessions :=
                 if session_gone then active_sessions st - 1
                 else active_sessions st |}
       |})
  end.

Definition deliver (message : string) (ws : WebSocket) : WebSocket := {|
  user_agent := user_agent ws;
  remote_address := remote_address ws;
  on_accept := on_accept ws;
  on_send := on_send ws;
  delivered := delivered ws ++ [message]
|}.

(** [send_message]; [message] is the text [str(message)] put on the
    wire. *)
Definition send_message (connection_id : string) (message : string)
           (now : float) (mgr : ConnectionManager) : bool * ConnectionManager :=
  match active_connections mgr !! connection_id with
  | None => (false, mgr)
  | Some websocket =>
      match on_send websocket with
      | SendOk =>
          (true,
           {| active_connections :=
                <[connection_id := deliver message websocket]>
                  (active_connections mgr);
              connection_sessions :=
                match connection_sessions mgr !! connection_id with
                | Some info =>
                    <[connection_id := touch now info]> (connection_sessions mgr)
                | None => connection_sessions mgr
                end;
              session_connections := session_connections mgr;
              connection_metadata := connection_metadata mgr;
              stats := stats mgr |})
      | SendRaises ConnectionClosed =>
          (false, (remove_connection connection_id mgr).2)
      | SendRaises _ => (false, mgr)
      end
  end.

(** The [for connection_id in self.session_connections[session_id]] loop
    of [broadcast_to_session].  [used] is the size the set had when the
    loop started and [pending] the members not yet visited.  Each step of
    the iterator first compares the set's present size with [used] and
    raises [RuntimeError] when they differ; the set object is the one stored
    under [session_id], empty once [remove_connection] has deleted its
    entry.  The result carries the exception that ended the loop, if any,
    and [sent_count] as it stood then. *)
Fixpoint broadcast_loop (session : string) (message : string) (now : float)
         (used : nat) (pending : list string) (sent_count : Z)
         (mgr : ConnectionManager) : option exn * Z * ConnectionManager :=
  let members := default [] (session_connections mgr !! session) in
  if decide (length members = used) then
    match pending with
    | [] => (None, sent_count, mgr)
    | connection_id :: rest =>
        let '(ok, mgr') := send_message connection_id message now mgr in
        broadcast_loop session message now used rest
          (if ok then sent_count + 1 else sent_count) mgr'
    end
  else (Some (RuntimeError "Set changed size during iteration"), sent_count, mgr).

(** [broadcast_to_session]: whatever the loop raises is caught and
    logged, and [sent_count] is returned. *)
Definition broadcast_to_session (session : string) (message : string)
           (now : float) (mgr : ConnectionManager) : Z * ConnectionManager :=
  match session_connections mgr !! session with
  | None => (0, mgr)
  | Some members =>
      let '(_, sent_count, mgr') :=
        broadcast_loop session message now (length members) members 0 mgr in
      (sent_count, mgr')
  end.

(** *** Sample managers: one session shared by two connections *)

Definition healthy_socket : WebSocket := {|
  user_agent := "test-agent"; remote_address := "10.0.0.2";
  on_accept := None; on_send := SendOk; delivered := []
|}.

Definition broken_socket (e : exn) : WebSocket := {|
  user_agent := "test-agent"; remote_address := "10.0.0.1";
  on_accept := None; on_send := SendRaises e; delivered := []
|}.

(** The first connection is registered, then the second one under the
    same session id; the set iterates first, then second. *)
Definition two_connections (first second : string * WebSocket) : ConnectionManager :=
  (add_connection second.1 "session-1" second.2 None 2%float
     (add_connection first.1 "session-1" first.2 None 1%float init).2).2.

Definition closed_first : ConnectionManager :=
  two_connections ("conn-a", broken_socket ConnectionClosed) ("conn-b", healthy_socket).

Definition closed_last : ConnectionManager :=
  two_connections ("conn-b", healthy_socket) ("conn-a", broken_socket ConnectionClosed).

Definition failing_first : ConnectionManager :=
  two_connections ("conn-a", broken_socket (OtherError "timeout")) ("conn-b", healthy_socket).

(** *** Queries and the idle sweep *)

(** The dict [get_connection_info] returns: the session info overlaid
    with the metadata (whose [connected_at] wins, both having that key)
    and the connection id. *)
Record ConnectionInfo := {
  ci_session_id : string;
  ci_user_id : option string;
  ci_connected_at : float;
  ci_last_activity : float;
  ci_audio_chunks_received : Z;
  ci_transcriptions_sent : Z;
  ci_connection_count : Z;
  ci_user_agent : option string;
  ci_remote_addr : option string;
  ci_connection_id : string
}.

(** [get_connection_info] *)
Definition get_connection_info (connection_id : string) (mgr : ConnectionManager)
  : option ConnectionInfo :=
  match connection_sessions mgr !! connection_id with
  | None => None
  | Some session_info =>
      let metadata := connection_metadata mgr !! connection_id in
      Some {| ci_session_id := session_id session_info;
              ci_user_id := user_id session_info;
              ci_connected_at :=
                match metadata with
                | Some md => md_connected_at md
                | None => connected_at session_info
                end;
              ci_last_activity := last_activity session_info;
              ci_audio_chunks_received := audio_chunks_received session_info;
              ci_transcriptions_sent := transcriptions_sent session_info;
              ci_connection_count := connection_count session_info;
              ci_user_agent := md_user_agent <$> metadata;
              ci_remote_addr := md_remote_addr <$> metadata;
              ci_connection_id := connection_id |}
  end.

Record SessionReport := {
  sr_session_id : string;
  sr_connection_count : Z;
  sr_connections : list string;
  sr_session_info : option ConnectionInfo
}.

(** [get_session_info] *)
Definition get_session_info (session : string) (mgr : ConnectionManager)
  : option SessionReport :=
  match session_connections mgr !! session with
  | None => None
  | Some connections =>
      Some {| sr_session_id := session;
              sr_connection_count := Z.of_nat (length connections);
              sr_connections := connections;
              sr_session_info :=
                match connections with
                | [] => None
                | first :: _ => get_connection_info first mgr
                end |}
  end.

(** [is_connection_active], [get_connection_count], [get_session_count] *)
Definition is_connection_active (connection_id : string) (mgr : ConnectionManager)
  : bool :=
  bool_decide (is_Some (active_connections mgr !! connection_id)).

Definition get_connection_count (mgr : ConnectionManager) : Z :=
  Z.of_nat (size (active_connections mgr)).

Definition get_session_count (mgr : ConnectionManager) : Z :=
  Z.of_nat (size (session_connections mgr)).

(** The test of the sweep: [current_time - last_activity > timeout]. *)
Definition is_inactive (current_time timeout : float) (info : SessionInfo) : bool :=
  PrimFloat.ltb timeout (current_time - last_activity info).

(** [cleanup_inactive_connections].  [items] is
    [self.connection_sessions.items()] in the order the dict iterates; the
    idle connections are collected first and removed afterwards, and each
    one counts whatever [remove_connection] returns. *)
Definition cleanup_inactive_connections (items : list (string * SessionInfo))
           (current_time timeout : float) (mgr : ConnectionManager)
  : Z * ConnectionManager :=
  let inactive_connections :=
    (filter (fun item : string * SessionInfo =>
               is_inactive current_time timeout item.2 = true) items).*1 in
  fold_left
    (fun (acc : Z * ConnectionManager) connection_id =>
       (acc.1 + 1, (remove_connection connection_id acc.2).2))
    inactive_connections (0, mgr).

(** *** The manager over time *)

Inductive event :=
| Add (connection_id session : string) (websocket : WebSocket)
      (user : option string) (now : float)
| Remove (connection_id : string)
| Send (connection_id message : string) (now : float)
| Broadcast (session message : string) (now : float)
| Sweep (items : list (string * SessionInfo)) (current_time timeout : float).

Definition apply_event (mgr : ConnectionManager) (e : event) : ConnectionManager :=
  match e with
  | Add c s ws user now => (add_connection c s ws user now mgr).2
  | Remove c => (remove_connection c mgr).2
  | Send c message now => (send_message c message now mgr).2
  | Broadcast s message now => (broadcast_to_session s message now mgr).2
  | Sweep items now timeout =>
      (cleanup_inactive_connections items now timeout mgr).2
  end.

(** [items] lists the entries of [connection_sessions], each once. *)
Definition lists_sessions (items : list (string * SessionInfo))
           (mgr : ConnectionManager) : Prop :=
  NoDup items.*1 /\
  forall c info, (c, info) ∈ items <-> connection_sessions mgr !! c = Some info.

(** What the environment guarantees: [uuid4()] gives a connection id that
    is not in use and a session id that is not the empty string, and the
    sweep iterates over the dict of the manager. *)
Definition allowed (mgr : ConnectionManager) (e : event) : Prop :=
  match e with
  | Add c s _ _ _ => active_connections mgr !! c = None /\ s <> ""
  | Sweep items _ _ => lists_sessions items mgr
  | _ => True
  end.

Inductive reachable : ConnectionManager -> Prop :=
| reachable_init : reachable init
| reachable_step mgr e :
    reachable mgr -> allowed mgr e -> reachable (apply_event mgr e).

(** The registries agree with each other and with the counters. *)
Record aligned (mgr : ConnectionManager) : Prop := {
  al_sessions_dom :
    dom (connection_sessions mgr) = dom (active_connections mgr);
  al_metadata_dom :
    dom (connection_metadata mgr) = dom (active_connections mgr);
  al_connection_count :
    stat_active_connections (stats mgr)
    = Z.of_nat (size (active_connections mgr));
  al_session_count :
    active_sessions (stats mgr) = Z.of_nat (size (session_connections mgr));
  al_totals :
    stat_active_connections (stats mgr) <= total_connections (stats mgr) /\
    active_sessions (stats mgr) <= total_sessions (stats mgr);
  al_member :
    forall c s,
      session_id <$> connection_sessions mgr !! c = Some s ->
      s <> "" /\
      exists members, session_connections mgr !! s = Some members /\ c ∈ members;
  al_session :
    forall s members,
      session_connections mgr !! s = Some members ->
      members <> [] /\ NoDup members /\
      forall c, c ∈ members ->
                session_id <$> connection_sessions mgr !! c = Some s
}.

(** Two sessions: the first with two connections, one of them idle. *)
Definition three_connections : ConnectionManager :=
  apply_event
    (apply_event
       (apply_event init (Add "conn-a" "session-1" healthy_socket None 1%float))
       (Add "conn-b" "session-1" healthy_socket (Some "user-7") 2%float))
    (Add "conn-c" "session-2" healthy_socket None 250%float).

End ConnMgr.

(** ** The transcription engine, as its callers see it *)

Module Engine.

(** The dict [transcribe_audio_bytes] returns; a key may be missing. *)
Record Result := {
  text : option string;
  confidence : option float;
  language : option string;
  error : option string
}.

(** One call either returns a dict or raises. *)
Inductive reply :=
| Returns (result : Result)
| Raises (message : string).

(** *** The engine that is wired in

    Every caller holds the singleton [OpenAIWhisperService].  Without an
    API key its [client] is [None] and [transcribe_audio_bytes] answers
    with one of a list of canned sentences.  With a client, the whole
    body of [transcribe_audio_bytes] runs inside [try ... except
    Exception]: whatever is raised there, by the temporary file, by the
    request or by the clean-up, comes back as a dict with an ["error"]
    entry.  Either way the call returns a dict: it raises nothing. *)

(** What becomes of the request sent through the OpenAI client. *)
Inductive api_outcome :=
| Transcript (transcript_text : string)
| ApiRaises (message : string).

(** What the outside supplies to one call: the outcome of the request,
    and the draws of [random.choice] and [random.uniform(0.85, 0.95)]. *)
Record CallEnv := {
  api : api_outcome;
  choice : nat;
  uniform : float
}.

Definition mock_responses (lang : string) : list string :=
  if bool_decide (lang = "en") then
    ["Hello, this is a test transcription.";
     "VoiceBridge application is working properly.";
     "Speech recognition system is now active.";
     "Audio transcription test successful.";
     "Real-time voice to text conversion.";
     "Microphone test: Audio levels are good.";
     "English speech recognition is working.";
     "Welcome to VoiceBridge speech-to-text.";
     "Your voice is being processed correctly."]
  else
    ["Hello, this is a test transcription message.";
     "VoiceBridge application is working properly.";
     "Speech recognition system is now active.";
     "Speech transcription test successful.";
     "Real-time speech to text conversion.";
     "Microphone test: Audio levels are good."].

(** [_mock_transcription] *)
Definition _mock_transcription (env : CallEnv) (lang : string) : Result :=
  let responses := mock_responses lang in
  {| text := Some (default "" (responses !! (choice env mod length responses)%nat));
     confidence := Some (uniform env);
     language := Some lang;
     error := None |}.

(** [transcribe_audio_bytes]; [client] tells whether [self.client] is
    set. *)
Definition transcribe_audio_bytes (client : bool) (env : CallEnv)
           (audio_bytes : bytes) (lang : string) : Result :=
  if client then
    match api env with
    | Transcript transcript_text =>
        let stripped := Py.strip transcript_text in
        {| text := Some stripped;
           confidence :=
             Some (if bool_decide (stripped = "") then 0.0%float else 0.9%float);
           language := Some lang;
           error := None |}
    | ApiRaises message =>
        {| text := Some "";
           confidence := Some 0.0%float;
           language := Some lang;
           error := Some message |}
    end
  else _mock_transcription env lang.

(** The request fails, the request brings back speech, and there is no
    API key. *)
Definition request_fails : CallEnv :=
  {| api := ApiRaises "Connection error."; choice := 0; uniform := 0.9%float |}.

Definition request_hello : CallEnv :=
  {| api := Transcript " hello world "; choice := 0; uniform := 0.9%float |}.

End Engine.

(** ** The queue bridge *)

Module Kafka.

(** The dict of [AUDIO_CHUNK_SCHEMA]. *)
Record AudioChunk := {
  session_id : string;
  user_id : string;
  chunk_id : string;
  audio_data : bytes;
  sample_rate : Z;
  channels : Z;
  format : string;
  timestamp : Z;
  language : string;
  chunk_index : Z;
  is_final : bool
}.

(** The dict of [TRANSCRIPTION_RESULT_SCHEMA]. *)
Record TranscriptionResult := {
  r_session_id : string;
  r_user_id : string;
  r_chunk_id : string;
  r_text : string;
  r_confidence : float;
  r_language : string;
  r_timestamp : Z;
  r_processing_time : float;
  r_model_name : string;
  r_status : string;
  r_error_message : option string
}.

(** What is handed to [producer.send] as [value]. *)
Inductive value :=
| AudioValue (chunk : AudioChunk)
| RawValue (data : bytes).

(** The producer: whether a send succeeds, and the records appended so
    far as (topic, key, serialized value). *)
Record Producer := {
  broker_up : bool;
  log : list (string * string * bytes)
}.

Record SessionStats := {
  s_user_id : string;
  start_time : float;
  chunks_sent : Z;
  chunks_processed : Z;
  s_total_audio_duration : float
}.

Record ProcessingStats := {
  total_chunks_processed : Z;
  successful_transcriptions : Z;
  failed_transcriptions : Z;
  average_processing_time : float;
  total_audio_duration : float
}.

(** The service, with the monitor singleton it reports to.  [processed]
    lists the argument of every [_process_audio_chunk] call, in order. *)
Record KafkaStreamService := {
  audio_topic : string;
  transcription_topic : string;
  producer : option Producer;
  active_sessions : gmap string SessionStats;
  processing_stats : ProcessingStats;
  monitor : Monitor.ModelMonitoringService;
  processed : list AudioChunk
}.

(** What the outside supplies to one call: the [uuid4()] string, the
    clock readings, the engine's reply and the time the engine took. *)
Record Env := {
  new_uuid : string;
  now_ms : Z;
  now_s : float;
  utc_now : Z;
  reply : Engine.reply;
  elapsed : float
}.

Definition init : KafkaStreamService := {|
  audio_topic := "voicebridge-audio";
  transcription_topic := "voicebridge-transcription";
  producer := None;
  active_sessions := ∅;
  processing_stats :=
    {| total_chunks_processed := 0; successful_transcriptions := 0;
       failed_transcriptions := 0; average_processing_time := 0%float;
       total_audio_duration := 0%float |};
  monitor := Monitor.init;
  processed := []
|}.

Definition with_producer (prod : option Producer) (svc : KafkaStreamService)
  : KafkaStreamService := {|
  audio_topic := audio_topic svc;
  transcription_topic := transcription_topic svc;
  producer := prod;
  active_sessions := active_sessions svc;
  processing_stats := processing_stats svc;
  monitor := monitor svc;
  processed := processed svc
|}.

Definition with_sessions (sessions : gmap string SessionStats)
           (svc : KafkaStreamService) : KafkaStreamService := {|
  audio_topic := audio_topic svc;
  transcription_topic := transcription_topic svc;
  producer := producer svc;
  active_sessions := sessions;
  processing_stats := processing_stats svc;
  monitor := monitor svc;
  processed := processed svc
|}.

(** [start()].  [KAFKA_AVAILABLE] (whether aiokafka could be imported) and
    the outcomes of the two awaited [start()] calls, the producer's and
    the consumer's, are inputs.  Without the library the method returns
    [False] at once and [self.producer] stays [None].  With it,
    [self.producer] is assigned before [await self.producer.start()], and
    the [except] clause returns [False] without resetting it: when the
    broker cannot be reached the service is left holding a producer that
    was never started, whose sends do not succeed.  The consumer is not
    kept in the record (only [_process_audio_streams] reads it). *)
Definition start (kafka_available producer_starts consumer_starts : bool)
           (svc : KafkaStreamService) : bool * KafkaStreamService :=
  if kafka_available then
    let svc1 :=
      with_producer (Some {| broker_up := producer_starts; log := [] |}) svc in
    if producer_starts then (consumer_starts, svc1) else (false, svc1)
  else (false, svc).

Section WithAvro.

(** The Avro library: [DatumWriter.write] and [DatumReader.read] for the
    two schemas, [None] when the call raises. *)
Variable avro_write_chunk : AudioChunk -> option bytes.
Variable avro_read_chunk : bytes -> option AudioChunk.
Variable avro_write_result : TranscriptionResult -> option bytes.

(** [_serialize_audio_chunk], the producer's [value_serializer]: a
    failure of the writer gives [b""], and so does a value that is not a
    dict of the schema. *)
Definition _serialize_audio_chunk (data : value) : bytes :=
  match data with
  | AudioValue chunk => default [] (avro_write_chunk chunk)
  | RawValue _ => []
  end.

(** [_deserialize_audio_chunk], the consumer's [value_deserializer]:
    [None] stands for the empty dict returned on failure. *)
Definition _deserialize_audio_chunk (data : bytes) : option AudioChunk :=
  avro_read_chunk data.

(** [_serialize_transcription_result] *)
Definition _serialize_transcription_result (data : TranscriptionResult) : bytes :=
  default [] (avro_write_result data).

(** [producer.send(topic, key=..., value=...)]; [None] when it raises. *)
Definition producer_send (topic key : string) (data : value) (prod : Producer)
  : option Producer :=
  if broker_up prod then
    Some {| broker_up := broker_up prod;
            log := log prod ++ [(topic, key, _serialize_audio_chunk data)] |}
  else None.

(** [_send_transcription_result] *)
Definition _send_transcription_result (result : TranscriptionResult)
           (svc : KafkaStreamService) : KafkaStreamService :=
  match producer svc with
  | None => svc
  | Some prod =>
      let serialized_result := _serialize_transcription_result result in
      match producer_send (transcription_topic svc) (r_session_id result)
                          (RawValue serialized_result) prod with
      | Some prod' => with_producer (Some prod') svc
      | None => svc
      end
  end.

(** [_process_audio_chunk] *)
Definition _process_audio_chunk (env : Env) (audio_chunk : AudioChunk)
           (svc : KafkaStreamService) : KafkaStreamService :=
  let svc := {|
    audio_topic := audio_topic svc;
    transcription_topic := transcription_topic svc;
    producer := producer svc;
    active_sessions := active_sessions svc;
    processing_stats := processing_stats svc;
    monitor := monitor svc;
    processed := processed svc ++ [audio_chunk]
  |} in
  match reply env with
  | Engine.Raises message =>
      _send_transcription_result
        {| r_session_id := session_id audio_chunk;
           r_user_id := user_id audio_chunk;
           r_chunk_id := chunk_id audio_chunk;
           r_text := "";
           r_confidence := 0.0%float;
           r_language := language audio_chunk;
           r_timestamp := now_ms env;
           r_processing_time := elapsed env;
           r_model_name := "whisper";
           r_status := "error";
           r_error_message := Some message |}
        svc
  | Engine.Returns result =>
      let processing_time := elapsed env in
      let conf := default 0.0%float (Engine.confidence result) in
      let failed := bool_decide (is_Some (Engine.error result)) in
      let st := processing_stats svc in
      let total_processed := total_chunks_processed st + 1 in
      let duration := (total_audio_duration st + processing_time)%float in
      let svc1 := {|
        audio_topic := audio_topic svc;
        transcription_topic := transcription_topic svc;
        producer := producer svc;
        active_sessions := active_sessions svc;
        processing_stats :=
          {| total_chunks_processed := total_processed;
             successful_transcriptions :=
               if failed then successful_transcriptions st
               else successful_transcriptions st + 1;
             failed_transcriptions :=
               if failed then failed_transcriptions st + 1
               else failed_transcriptions st;
             average_processing_time :=
               if 0 <? total_processed
               then (duration / Py.float_of_Z total_processed)%float
               else average_processing_time st;
             total_audio_duration := duration |};
        monitor :=
          Monitor.record_model_performance (utc_now env) "whisper_kafka"
            conf conf processing_time failed (monitor svc);
        processed := processed svc
      |} in
      let svc2 :=
        _send_transcription_result
          {| r_session_id := session_id audio_chunk;
             r_user_id := user_id audio_chunk;
             r_chunk_id := chunk_id audio_chunk;
             r_text := default "" (Engine.text result);
             r_confidence := conf;
             r_language := default (language audio_chunk) (Engine.language result);
             r_timestamp := now_ms env;
             r_processing_time := processing_time;
             r_model_name := "whisper";
             r_status := if failed then "error" else "success";
             r_error_message := Engine.error result |}
          svc1 in
      match active_sessions svc2 !! session_id audio_chunk with
      | Some info =>
          with_sessions
            (<[session_id audio_chunk :=
                 {| s_user_id := s_user_id info;
                    start_time := start_time info;
                    chunks_sent := chunks_sent info;
                    chunks_processed := chunks_processed info + 1;
                    s_total_audio_duration :=
                      (s_total_audio_duration info + processing_time)%float |}]>
               (active_sessions svc2))
            svc2
      | None => svc2
      end
  end.

(** [send_audio_chunk] *)
Definition send_audio_chunk (env : Env)
           (session_id' user_id' : string) (audio_data' : bytes)
           (sample_rate' channels' : Z) (format' language' : string)
           (chunk_index' : Z) (is_final' : bool)
           (svc : KafkaStreamService) : bool * KafkaStreamService :=
  match producer svc with
  | None =>
      (* fallback: process directly without Kafka *)
      let audio_chunk_data := {|
        session_id := session_id';
        user_id := user_id';
        chunk_id := new_uuid env;
        audio_data := audio_data';
        sample_rate := sample_rate';
        channels := channels';
        format := format';
        timestamp := now_ms env;
        language := language';
        chunk_index := chunk_index';
        is_final := is_final'
      |} in
      (true, _process_audio_chunk env audio_chunk_data svc)
  | Some prod =>
      let audio_chunk_data := {|
        session_id := session_id';
        user_id := user_id';
        chunk_id := new_uuid env;
        audio_data := audio_data';
        sample_rate := sample_rate';
        channels := channels';
        format := format';
        timestamp := now_ms env;
        language := language';
        chunk_index := chunk_index';
        is_final := is_final'
      |} in
      match producer_send (audio_topic svc) session_id'
                          (AudioValue audio_chunk_data) prod with
      | None => (false, svc)
      | Some prod' =>
          let info :=
            default {| s_user_id := user_id';
                       start_time := now_s env;
                       chunks_sent := 0;
                       chunks_processed := 0;
                       s_total_audio_duration := 0.0%float |}
                    (active_sessions svc !! session_id') in
          (true,
           with_sessions
             (<[session_id' :=
                  {| s_user_id := s_user_id info;
                     start_time := start_time info;
                     chunks_sent := chunks_sent info + 1;
                     chunks_processed := chunks_processed info;
                     s_total_audio_duration := s_total_audio_duration info |}]>
                (active_sessions svc))
             (with_producer (Some prod') svc))
      end
  end.

(** One pass of the [async for message in self.consumer] loop of
    [_process_audio_streams] on a record's serialized value: a value that
    does not decode is skipped. *)
Definition consume_message (env : Env) (raw : bytes)
           (svc : KafkaStreamService) : KafkaStreamService :=
  match _deserialize_audio_chunk raw with
  | None => svc
  | Some audio_chunk => _process_audio_chunk env audio_chunk svc
  end.

End WithAvro.

(** *** Avro's binary encoding of the audio schema

    Used to run the bridge on concrete chunks: [int] and [long] are
    zig-zag varints ([int] within 32 bits, [long] within 64), [string] and
    [bytes] a [long] length followed by the data, [boolean] one byte, a
    record its fields in schema order. *)

Definition byte_of_N (n : N) : Byte.byte := default Byte.x00 (Byte.of_N n).

Definition zigzag (z : Z) : N :=
  if 0 <=? z then Z.to_N (2 * z) else Z.to_N (- 2 * z - 1).

Definition unzigzag (n : N) : Z :=
  if N.even n then Z.of_N (n / 2) else - Z.of_N ((n + 1) / 2).

Fixpoint varint (groups : nat) (n : N) : bytes :=
  match groups with
  | O => []
  | S groups' =>
      if (n <? 128)%N then [byte_of_N n]
      else byte_of_N (n mod 128 + 128) :: varint groups' (n / 128)
  end.

Fixpoint read_varint (data : bytes) (shift acc : N) : option (N * bytes) :=
  match data with
  | [] => None
  | b :: rest =>
      let v := Byte.to_N b in
      if (v <? 128)%N then Some ((acc + N.shiftl v shift)%N, rest)
      else read_varint rest (shift + 7)%N (acc + N.shiftl (v - 128) shift)%N
  end.

Definition write_long (z : Z) : option bytes :=
  if bool_decide (- 2 ^ 63 <= z < 2 ^ 63) then Some (varint 10 (zigzag z)) else None.

Definition write_int (z : Z) : option bytes :=
  if bool_decide (- 2 ^ 31 <= z < 2 ^ 31) then Some (varint 5 (zigzag z)) else None.

Definition write_bytes (data : bytes) : option bytes :=
  len ← write_long (Z.of_nat (length data)); Some (len ++ data).

Definition write_string (s : string) : option bytes :=
  write_bytes (String.list_byte_of_string s).

Definition write_boolean (b : bool) : option bytes :=
  Some [if b then Byte.x01 else Byte.x00].

Definition read_long (data : bytes) : option (Z * bytes) :=
  '(n, rest) ← read_varint data 0 0; Some (unzigzag n, rest).

Definition read_bytes (data : bytes) : option (bytes * bytes) :=
  '(len, rest) ← read_long data;
  if bool_decide (0 <= len <= Z.of_nat (length rest))
  then Some (take (Z.to_nat len) rest, drop (Z.to_nat len) rest)
  else None.

Definition read_string (data : bytes) : option (string * bytes) :=
  '(raw, rest) ← read_bytes data; Some (String.string_of_list_byte raw, rest).

Definition read_boolean (data : bytes) : option (bool * bytes) :=
  match data with
  | [] => None
  | b :: rest => Some (negb (Byte.to_N b =? 0)%N, rest)
  end.

Definition binary_write_chunk (c : AudioChunk) : option bytes :=
  f1 ← write_string (session_id c);
  f2 ← write_string (user_id c);
  f3 ← write_string (chunk_id c);
  f4 ← write_bytes (audio_data c);
  f5 ← write_int (sample_rate c);
  f6 ← write_int (channels c);
  f7 ← write_string (format c);
  f8 ← write_long (timestamp c);
  f9 ← write_string (language c);
  f10 ← write_int (chunk_index c);
  f11 ← write_boolean (is_final c);
  Some (f1 ++ f2 ++ f3 ++ f4 ++ f5 ++ f6 ++ f7 ++ f8 ++ f9 ++ f10 ++ f11).

Definition binary_read_chunk (data : bytes) : option AudioChunk :=
  '(f1, data) ← read_string data;
  '(f2, data) ← read_string data;
  '(f3, data) ← read_string data;
  '(f4, data) ← read_bytes data;
  '(f5, data) ← read_long data;
  '(f6, data) ← read_long data;
  '(f7, data) ← read_string data;
  '(f8, data) ← read_long data;
  '(f9, data) ← read_string data;
  '(f10, data) ← read_long data;
  '(f11, data) ← read_boolean data;
  Some {| session_id := f1; user_id := f2; chunk_id := f3; audio_data := f4;
          sample_rate := f5; channels := f6; format := f7; timestamp := f8;
          language := f9; chunk_index := f10; is_final := f11 |}.

(** A result writer that always raises: results are not read back here. *)
Definition no_result_writer (r : TranscriptionResult) : option bytes := None.

(** *** Sample data *)

Definition sample_env : Env := {|
  new_uuid := "6f1c2a9e-0000-4000-8000-000000000001";
  now_ms := 1700000000123;
  now_s := 1700000000.123%float;
  utc_now := 1700000000;
  reply := Engine.Returns {| Engine.text := Some "hello world";
                             Engine.confidence := Some 0.93%float;
                             Engine.language := Some "en";
                             Engine.error := None |};
  elapsed := 0.25%float
|}.

Definition sample_audio : bytes := [Byte.x52; Byte.x49; Byte.x46; Byte.x46; Byte.xff; Byte.x00].

Definition sample_chunk : AudioChunk := {|
  session_id := "session-1";
  user_id := "user-7";
  chunk_id := new_uuid sample_env;
  audio_data := sample_audio;
  sample_rate := 16000;
  channels := 1;
  format := "wav";
  timestamp := now_ms sample_env;
  language := "en";
  chunk_index := 300;
  is_final := true
|}.

(** A service whose producer has been started. *)
Definition started : KafkaStreamService :=
  with_producer (Some {| broker_up := true; log := [] |}) init.

(** *** Sessions, statistics and the consumer loop *)

(** [get_session_status] *)
Definition get_session_status (session : string) (svc : KafkaStreamService)
  : option SessionStats :=
  active_sessions svc !! session.

(** [cleanup_session] *)
Definition cleanup_session (session : string) (svc : KafkaStreamService)
  : KafkaStreamService :=
  match active_sessions svc !! session with
  | Some _ => with_sessions (delete session (active_sessions svc)) svc
  | None => svc
  end.

(** [get_processing_stats], without its time stamp. *)
Definition get_processing_stats (svc : KafkaStreamService) : ProcessingStats * Z :=
  (processing_stats svc, Z.of_nat (size (active_sessions svc))).

(** The arguments of one [send_audio_chunk] call. *)
Record SendArgs := {
  a_session_id : string;
  a_user_id : string;
  a_audio_data : bytes;
  a_sample_rate : Z;
  a_channels : Z;
  a_format : string;
  a_language : string;
  a_chunk_index : Z;
  a_is_final : bool
}.

(** The chunk [send_audio_chunk] builds from its arguments, the fresh
    uuid and the clock. *)
Definition chunk_of (env : Env) (a : SendArgs) : AudioChunk := {|
  session_id := a_session_id a;
  user_id := a_user_id a;
  chunk_id := new_uuid env;
  audio_data := a_audio_data a;
  sample_rate := a_sample_rate a;
  channels := a_channels a;
  format := a_format a;
  timestamp := now_ms env;
  language := a_language a;
  chunk_index := a_chunk_index a;
  is_final := a_is_final a
|}.

Inductive call :=
| Send (env : Env) (a : SendArgs)
| Consume (env : Env) (raw : bytes)
| Cleanup (session : string).

Section Streams.

Variable avro_write_chunk : AudioChunk -> option bytes.
Variable avro_read_chunk : bytes -> option AudioChunk.
Variable avro_write_result : TranscriptionResult -> option bytes.

Definition send (env : Env) (a : SendArgs) (svc : KafkaStreamService)
  : bool * KafkaStreamService :=
  send_audio_chunk avro_write_chunk avro_write_result env
    (a_session_id a) (a_user_id a) (a_audio_data a) (a_sample_rate a)
    (a_channels a) (a_format a) (a_language a) (a_chunk_index a) (a_is_final a)
    svc.

(** [_process_audio_streams]: without a consumer the loop is skipped;
    otherwise every message the consumer yields goes through one pass of
    the loop, each with the environment of its time. *)
Definition _process_audio_streams (consumer_started : bool)
           (messages : list (Env * bytes)) (svc : KafkaStreamService)
  : KafkaStreamService :=
  if consumer_started then
    fold_left
      (fun s (m : Env * bytes) =>
         consume_message avro_write_chunk avro_read_chunk avro_write_result
           m.1 m.2 s)
      messages svc
  else svc.

Definition step (svc : KafkaStreamService) (c : call) : KafkaStreamService :=
  match c with
  | Send env a => (send env a svc).2
  | Consume env raw =>
      consume_message avro_write_chunk avro_read_chunk avro_write_result
        env raw svc
  | Cleanup session => cleanup_session session svc
  end.

Definition run (calls : list call) (svc : KafkaStreamService)
  : KafkaStreamService :=
  fold_left step calls svc.

(** The engine's replies to the calls that reach it: a send without
    producer, and a consumed record that decodes. *)
Definition engine_reply (c : call) (svc : KafkaStreamService)
  : option Engine.reply :=
  match c with
  | Send env _ => if producer svc is Some _ then None else Some (reply env)
  | Consume env raw =>
      if _deserialize_audio_chunk avro_read_chunk raw is Some _
      then Some (reply env) else None
  | Cleanup _ => None
  end.

Fixpoint engine_replies (calls : list call) (svc : KafkaStreamService)
  : list Engine.reply :=
  match calls with
  | [] => []
  | c :: rest =>
      match engine_reply c svc with
      | Some r => r :: engine_replies rest (step svc c)
      | None => engine_replies rest (step svc c)
      end
  end.

(** A sequence of [send_audio_chunk] calls, with what each returned. *)
Fixpoint send_all (msgs : list (Env * SendArgs)) (svc : KafkaStreamService)
  : list bool * KafkaStreamService :=
  match msgs with
  | [] => ([], svc)
  | m :: rest =>
      let '(ok, svc1) := send m.1 m.2 svc in
      let '(oks, svc2) := send_all rest svc1 in
      (ok :: oks, svc2)
  end.

End Streams.

(** [chunks_sent] and [chunks_processed] of a session, zero without a
    session record. *)
Definition sent_count (session : string) (svc : KafkaStreamService) : Z :=
  default 0 (chunks_sent <$> active_sessions svc !! session).

Definition processed_count (session : string) (svc : KafkaStreamService) : Z :=
  default 0 (chunks_processed <$> active_sessions svc !! session).

(** The number of sends of a sequence that are for one session. *)
Definition sends_for (session : string) (msgs : list (Env * SendArgs)) : Z :=
  Z.of_nat (length (filter (fun m : Env * SendArgs => a_session_id m.2 = session)
                           msgs)).

(** The results among the replies, and those among them with an
    ["error"] entry. *)
Definition returned (replies : list Engine.reply) : list Engine.Result :=
  omap (fun r => match r with
                 | Engine.Returns result => Some result
                 | Engine.Raises _ => None
                 end) replies.

Definition with_error (results : list Engine.Result) : list Engine.Result :=
  filter (fun result => is_Some (Engine.error result)) results.

(** The record a send appends to the broker's log. *)
Definition audio_record (write : AudioChunk -> option bytes) (topic : string)
           (m : Env * SendArgs) : string * string * bytes :=
  (topic, a_session_id m.2, default [] (write (chunk_of m.1 m.2))).

Definition sample_args : SendArgs := {|
  a_session_id := "session-1";
  a_user_id := "user-7";
  a_audio_data := sample_audio;
  a_sample_rate := 16000;
  a_channels := 1;
  a_format := "wav";
  a_language := "en";
  a_chunk_index := 300;
  a_is_final := true
|}.

Definition failing_env : Env := {|
  new_uuid := "6f1c2a9e-0000-4000-8000-000000000002";
  now_ms := 1700000001123;
  now_s := 1700000001.123%float;
  utc_now := 1700000001;
  reply := Engine.Raises "timeout";
  elapsed := 30%float
|}.

End Kafka.

(** ** The streaming service *)

Module Realtime.

(** [settings.default_language] *)
Definition default_language : string := "en".

(** The dict put on a session's text queue. *)
Record TranscriptionData := {
  td_session_id : string;
  td_text : string;
  td_confidence : float;
  td_language : string;
  td_processing_time : float;
  td_timestamp : float
}.

(** Server messages, by their [type]. *)
Inductive Message :=
| ConnectionEstablished (connection_id session_id : string)
| AudioReceived (session_id : string) (chunk_size : Z)
| Pong
| Status (session_id : string) (connections buffered subscribers : Z)
| TextSubscribed (session_id : string)
| TextUnsubscribed (session_id : string)
| ErrorMessage (message : string)
| Transcription (data : TranscriptionData)
| Keepalive.

(** Client text messages after [json.loads], by their [type]. *)
Inductive TextMessage :=
| Ping
| GetStatus
| SubscribeText
| UnsubscribeText
| UnknownType.

(** A transport: whether [accept()] and [send()] succeed, and what the
    peer has received. *)
Record WebSocket := {
  accepts : bool;
  sends : bool;
  outbox : list Message
}.

Record ConnInfo := {
  session_id : string;
  user_id : option string;
  connected_at : float;
  audio_chunks_received : Z;
  transcriptions_sent : Z;
  last_activity : float
}.

Record Stats := {
  total_connections : Z;
  stat_active_connections : Z;
  total_audio_chunks : Z;
  total_transcriptions : Z;
  average_processing_time : float
}.

(** The state of a connection's [_process_audio_stream] task: between
    passes of its loop, suspended in the engine call of a pass (for which
    session, on what audio), or ended: by its loop condition, by an
    exception it logged, or by cancellation. *)
Inductive TaskState :=
| Running
| Awaiting (session : string) (combined_audio : bytes)
| Finished
| Failed (message : string)
| Cancelled.

(** The service.  Transports live in [sockets], keyed by the connection
    id under which they were registered; [active_connections] holds the keys
    of [self.active_connections], whose values are those transports.  Beside
    the service's own attributes the record carries the monitor singleton,
    the calls made to the engine and to the Kafka service, and the state of
    each processing task. *)
Record RealtimeStreamingService := {
  active_connections : gset string;
  sockets : gmap string WebSocket;
  connection_sessions : gmap string ConnInfo;
  session_connections : gmap string (gset string);
  audio_buffers : gmap string (list bytes);
  text_subscribers : gmap string (gset string);
  text_queue : gmap string (list TranscriptionData);
  stats : Stats;
  monitor : Monitor.ModelMonitoringService;
  kafka_producer_started : bool;
  kafka_calls : list (string * string);
  engine_calls : list (bytes * string);
  processing_tasks : gmap string TaskState
}.

Definition init : RealtimeStreamingService := {|
  active_connections := ∅;
  sockets := ∅;
  connection_sessions := ∅;
  session_connections := ∅;
  audio_buffers := ∅;
  text_subscribers := ∅;
  text_queue := ∅;
  stats := {| total_connections := 0; stat_active_connections := 0;
              total_audio_chunks := 0; total_transcriptions := 0;
              average_processing_time := 0.0%float |};
  monitor := Monitor.init;
  kafka_producer_started := false;
  kafka_calls := [];
  engine_calls := [];
  processing_tasks := ∅
|}.

(** *** Field updates *)

Definition set_sockets v (s : RealtimeStreamingService) := {|
  active_connections := active_connections s; sockets := v;
  connection_sessions := connection_sessions s;
  session_connections := session_connections s;
  audio_buffers := audio_buffers s; text_subscribers := text_subscribers s;
  text_queue := text_queue s; stats := stats s; monitor := monitor s;
  kafka_producer_started := kafka_producer_started s;
  kafka_calls := kafka_calls s; engine_calls := engine_calls s;
  processing_tasks := processing_tasks s |}.

Definition set_connection_sessions v (s : RealtimeStreamingService) := {|
  active_connections := active_connections s; sockets := sockets s;
  connection_sessions := v;
  session_connections := session_connections s;
  audio_buffers := audio_buffers s; text_subscribers := text_subscribers s;
  text_queue := text_queue s; stats := stats s; monitor := monitor s;
  kafka_producer_started := kafka_producer_started s;
  kafka_calls := kafka_calls s; engine_calls := engine_calls s;
  processing_tasks := processing_tasks s |}.

Definition set_audio_buffers v (s : RealtimeStreamingService) := {|
  active_connections := active_connections s; sockets := sockets s;
  connection_sessions := connection_sessions s;
  session_connections := session_connections s;
  audio_buffers := v; text_subscribers := text_subscribers s;
  text_queue := text_queue s; stats := stats s; monitor := monitor s;
  kafka_producer_started := kafka_producer_started s;
  kafka_calls := kafka_calls s; engine_calls := engine_calls s;
  processing_tasks := processing_tasks s |}.

Definition set_text_subscribers v (s : RealtimeStreamingService) := {|
  active_connections := active_connections s; sockets := sockets s;
  connection_sessions := connection_sessions s;
  session_connections := session_connections s;
  audio_buffers := audio_buffers s; text_subscribers := v;
  text_queue := text_queue s; stats := stats s; monitor := monitor s;
  kafka_producer_started := kafka_producer_started s;
  kafka_calls := kafka_calls s; engine_calls := engine_calls s;
  processing_tasks := processing_tasks s |}.

Definition set_text_queue v (s : RealtimeStreamingService) := {|
  active_connections := active_connections s; sockets := sockets s;
  connection_sessions := connection_sessions s;
  session_connections := session_connections s;
  audio_buffers := audio_buffers s; text_subscribers := text_subscribers s;
  text_queue := v; stats := stats s; monitor := monitor s;
  kafka_producer_started := kafka_producer_started s;
  kafka_calls := kafka_calls s; engine_calls := engine_calls s;
  processing_tasks := processing_tasks s |}.

Definition set_stats v (s : RealtimeStreamingService) := {|
  active_connections := active_connections s; sockets := sockets s;
  connection_sessions := connection_sessions s;
  session_connections := session_connections s;
  audio_buffers := audio_buffers s; text_subscribers := text_subscribers s;
  text_queue := text_queue s; stats := v; monitor := monitor s;
  kafka_producer_started := kafka_producer_started s;
  kafka_calls := kafka_calls s; engine_calls := engine_calls s;
  processing_tasks := processing_tasks s |}.

Definition set_monitor v (s : RealtimeStreamingService) := {|
  active_connections := active_connections s; sockets := sockets s;
  connection_sessions := connection_sessions s;
  session_connections := session_connections s;
  audio_buffers := audio_buffers s; text_subscribers := text_subscribers s;
  text_queue := text_queue s; stats := stats s; monitor := v;
  kafka_producer_started := kafka_producer_started s;
  kafka_calls := kafka_calls s; engine_calls := engine_calls s;
  processing_tasks := processing_tasks s |}.

Definition set_kafka_calls v (s : RealtimeStreamingService) := {|
  active_connections := active_connections s; sockets := sockets s;
  connection_sessions := connection_sessions s;
  session_connections := session_connections s;
  audio_buffers := audio_buffers s; text_subscribers := text_subscribers s;
  text_queue := text_queue s; stats := stats s; monitor := monitor s;
  kafka_producer_started := kafka_producer_started s;
  kafka_calls := v; engine_calls := engine_calls s;
  processing_tasks := processing_tasks s |}.

Definition set_engine_calls v (s : RealtimeStreamingService) := {|
  active_connections := active_connections s; sockets := sockets s;
  connection_sessions := connection_sessions s;
  session_connections := session_connections s;
  audio_buffers := audio_buffers s; text_subscribers := text_subscribers s;
  text_queue := text_queue s; stats := stats s; monitor := monitor s;
  kafka_producer_started := kafka_producer_started s;
  kafka_calls := kafka_calls s; engine_calls := v;
  processing_tasks := processing_tasks s |}.

Definition set_processing_tasks v (s : RealtimeStreamingService) := {|
  active_connections := active_connections s; sockets := sockets s;
  connection_sessions := connection_sessions s;
  session_connections := session_connections s;
  audio_buffers := audio_buffers s; text_subscribers := text_subscribers s;
  text_queue := text_queue s; stats := stats s; monitor := monitor s;
  kafka_producer_started := kafka_producer_started s;
  kafka_calls := kafka_calls s; engine_calls := engine_calls s;
  processing_tasks := v |}.

(** *** The methods *)

(** [_send_message] to the transport registered under [connection_id]:
    a failing send is logged and dropped. *)
Definition _send_message (connection_id : string) (data : Message)
           (s : RealtimeStreamingService) : RealtimeStreamingService :=
  match sockets s !! connection_id with
  | Some ws =>
      if sends ws then
        set_sockets
          (<[connection_id := {| accepts := accepts ws; sends := sends ws;
                                 outbox := outbox ws ++ [data] |}]> (sockets s))
          s
      else s
  | None => s
  end.

Definition _send_error (connection_id : string) (error_message : string)
           (s : RealtimeStreamingService) : RealtimeStreamingService :=
  _send_message connection_id (ErrorMessage error_message) s.

(** [_cleanup_connection] *)
Definition _cleanup_connection (connection_id session : string)
           (s : RealtimeStreamingService) : RealtimeStreamingService :=
  let active := active_connections s ∖ {[connection_id]} in
  let sessions :=
    match session_connections s !! session with
    | Some members =>
        let members' := members ∖ {[connection_id]} in
        if decide (members' = ∅) then delete session (session_connections s)
        else <[session := members']> (session_connections s)
    | None => session_connections s
    end in
  let infos := delete connection_id (connection_sessions s) in
  let session_gone := bool_decide (sessions !! session = None) in
  {| active_connections := active;
     sockets := sockets s;
     connection_sessions := infos;
     session_connections := sessions;
     audio_buffers :=
       if session_gone then delete session (audio_buffers s) else audio_buffers s;
     text_subscribers :=
       if session_gone then delete session (text_subscribers s)
       else text_subscribers s;
     text_queue :=
       if session_gone then delete session (text_queue s) else text_queue s;
     stats :=
       {| total_connections := total_connections (stats s);
          stat_active_connections := Z.of_nat (size active);
          total_audio_chunks := total_audio_chunks (stats s);
          total_transcriptions := total_transcriptions (stats s);
          average_processing_time := average_processing_time (stats s) |};
     monitor := monitor s;
     kafka_producer_started := kafka_producer_started s;
     kafka_calls := kafka_calls s;
     engine_calls := engine_calls s;
     processing_tasks := processing_tasks s |}.

(** The [finally] clause of [handle_websocket_connection]: clean up, then
    cancel the connection's processing task if it was started. *)
Definition disconnect (connection_id session : string)
           (s : RealtimeStreamingService) : RealtimeStreamingService :=
  let s' := _cleanup_connection connection_id session s in
  match processing_tasks s' !! connection_id with
  | Some Running | Some (Awaiting _ _) =>
      set_processing_tasks (<[connection_id := Cancelled]> (processing_tasks s')) s'
  | _ => s'
  end.

(** [handle_websocket_connection] up to the receive loop: accept, register
    the connection, allocate the session's buffer and text queue, greet the
    client and start the processing task.  When [accept()] raises, nothing
    is registered and the [finally] clause runs. *)
Definition connect (connection_id session : string) (user : option string)
           (now : float) (websocket : WebSocket)
           (s : RealtimeStreamingService) : RealtimeStreamingService :=
  if accepts websocket then
    let registered := {|
      active_connections := active_connections s ∪ {[connection_id]};
      sockets := <[connection_id := websocket]> (sockets s);
      connection_sessions :=
        <[connection_id := {| session_id := session; user_id := user;
                              connected_at := now;
                              audio_chunks_received := 0;
                              transcriptions_sent := 0;
                              last_activity := now |}]> (connection_sessions s);
      session_connections :=
        <[session := default ∅ (session_connections s !! session)
                     ∪ {[connection_id]}]> (session_connections s);
      audio_buffers := <[session := []]> (audio_buffers s);
      text_subscribers := text_subscribers s;
      text_queue := <[session := []]> (text_queue s);
      stats :=
        {| total_connections := total_connections (stats s) + 1;
           stat_active_connections := stat_active_connections (stats s) + 1;
           total_audio_chunks := total_audio_chunks (stats s);
           total_transcriptions := total_transcriptions (stats s);
           average_processing_time := average_processing_time (stats s) |};
      monitor := monitor s;
      kafka_producer_started := kafka_producer_started s;
      kafka_calls := kafka_calls s;
      engine_calls := engine_calls s;
      processing_tasks := <[connection_id := Running]> (processing_tasks s)
    |} in
    _send_message connection_id (ConnectionEstablished connection_id session)
                  registered
  else disconnect connection_id session s.

(** [_handle_audio_data] *)
Definition _handle_audio_data (audio_data : bytes) (session connection_id : string)
           (now : float) (s : RealtimeStreamingService) : RealtimeStreamingService :=
  let s1 :=
    match audio_buffers s !! session with
    | Some buffer =>
        set_audio_buffers (<[session := buffer ++ [audio_data]]> (audio_buffers s)) s
    | None => s
    end in
  let s2 :=
    match connection_sessions s1 !! connection_id with
    | Some info =>
        set_connection_sessions
          (<[connection_id :=
               {| session_id := session_id info; user_id := user_id info;
                  connected_at := connected_at info;
                  audio_chunks_received := audio_chunks_received info + 1;
                  transcriptions_sent := transcriptions_sent info;
                  last_activity := now |}]> (connection_sessions s1))
          s1
    | None => s1
    end in
  let s3 :=
    set_stats
      {| total_connections := total_connections (stats s2);
         stat_active_connections := stat_active_connections (stats s2);
         total_audio_chunks := total_audio_chunks (stats s2) + 1;
         total_transcriptions := total_transcriptions (stats s2);
         average_processing_time := average_processing_time (stats s2) |}
      s2 in
  if bool_decide (connection_id ∈ active_connections s3) then
    _send_message connection_id
      (AudioReceived session (Z.of_nat (length audio_data))) s3
  else s3.

(** [_handle_text_message] *)
Definition _handle_text_message (data : TextMessage)
           (connection_id session : string)
           (s : RealtimeStreamingService) : RealtimeStreamingService :=
  match data with
  | Ping => _send_message connection_id Pong s
  | GetStatus =>
      _send_message connection_id
        (Status session
           (Z.of_nat (size (default ∅ (session_connections s !! session))))
           (Z.of_nat (length (default [] (audio_buffers s !! session))))
           (Z.of_nat (size (default ∅ (text_subscribers s !! session)))))
        s
  | SubscribeText =>
      let subscribers := default ∅ (text_subscribers s !! session) in
      _send_message connection_id (TextSubscribed session)
        (set_text_subscribers
           (<[session := subscribers ∪ {[connection_id]}]> (text_subscribers s)) s)
  | UnsubscribeText =>
      let s' :=
        match text_subscribers s !! session with
        | Some subscribers =>
            set_text_subscribers
              (<[session := subscribers ∖ {[connection_id]}]> (text_subscribers s)) s
        | None => s
        end in
      _send_message connection_id (TextUnsubscribed session) s'
  | UnknownType => _send_error connection_id "Unknown message type" s
  end.

(** [_send_transcription_result] *)
Definition _send_transcription_result (session : string)
           (result : Engine.Result) (processing_time now : float)
           (s : RealtimeStreamingService) : RealtimeStreamingService :=
  let transcription_data := {|
    td_session_id := session;
    td_text := default "" (Engine.text result);
    td_confidence := default 0.0%float (Engine.confidence result);
    td_language := default default_language (Engine.language result);
    td_processing_time := processing_time;
    td_timestamp := now
  |} in
  let s1 :=
    match text_queue s !! session with
    | Some queue =>
        set_text_queue (<[session := queue ++ [transcription_data]]> (text_queue s)) s
    | None => s
    end in
  if kafka_producer_started s1 then
    set_kafka_calls
      (kafka_calls s1
       ++ [(session, default default_language (Engine.language result))])
      s1
  else s1.

(** A pass of the [while] loop of [_process_audio_stream] for the task
    of [connection_id], up to the engine call: the loop condition, the
    drain of the session's buffer, and, when chunks were drained, the call
    of the engine on their concatenation. *)
Definition cycle_begin (session connection_id : string)
           (s : RealtimeStreamingService) : RealtimeStreamingService :=
  match processing_tasks s !! connection_id with
  | Some Running =>
      if bool_decide (connection_id ∈ active_connections s) then
        let audio_chunks := default [] (audio_buffers s !! session) in
        match audio_chunks with
        | [] => s
        | _ :: _ =>
            let s1 := set_audio_buffers (<[session := []]> (audio_buffers s)) s in
            let combined_audio := Py.bytes_join audio_chunks in
            let s2 :=
              set_engine_calls
                (engine_calls s1 ++ [(combined_audio, default_language)]) s1 in
            set_processing_tasks
              (<[connection_id := Awaiting session combined_audio]>
                 (processing_tasks s2)) s2
        end
      else
        set_processing_tasks (<[connection_id := Finished]> (processing_tasks s)) s
  | _ => s
  end.

(** The rest of the pass, once the engine call comes back with [reply]
    after [elapsed] seconds.  The [try] encloses the whole loop: an
    exception raised by the engine would end the task, after it is logged.
    The engine that is wired in, [Engine.transcribe_audio_bytes], always
    returns. *)
Definition cycle_end (connection_id : string)
           (reply : Engine.reply) (elapsed now : float) (utc : Z)
           (s : RealtimeStreamingService) : RealtimeStreamingService :=
  match processing_tasks s !! connection_id with
  | Some (Awaiting session _) =>
      match reply with
      | Engine.Raises message =>
          set_processing_tasks
            (<[connection_id := Failed message]> (processing_tasks s)) s
      | Engine.Returns result =>
          let processing_time := elapsed in
          let conf := default 0.0%float (Engine.confidence result) in
          let failed := bool_decide (is_Some (Engine.error result)) in
          let s3 :=
            set_monitor
              (Monitor.record_model_performance utc "whisper_realtime"
                 conf conf processing_time failed (monitor s)) s in
          let total := total_transcriptions (stats s3) + 1 in
          let s4 :=
            set_stats
              {| total_connections := total_connections (stats s3);
                 stat_active_connections := stat_active_connections (stats s3);
                 total_audio_chunks := total_audio_chunks (stats s3);
                 total_transcriptions := total;
                 average_processing_time :=
                   if 0 <? total then
                     ((average_processing_time (stats s3)
                       * Py.float_of_Z (total - 1) + processing_time)
                      / Py.float_of_Z total)%float
                   else average_processing_time (stats s3) |}
              s3 in
          let s5 :=
            if negb failed
               && negb (bool_decide (Py.strip (default "" (Engine.text result)) = ""))
            then _send_transcription_result session result
                   processing_time now s4
            else s4 in
          let s6 :=
            match connection_sessions s5 !! connection_id with
            | Some info =>
                set_connection_sessions
                  (<[connection_id :=
                       {| session_id := session_id info;
                          user_id := user_id info;
                          connected_at := connected_at info;
                          audio_chunks_received := audio_chunks_received info;
                          transcriptions_sent := transcriptions_sent info + 1;
                          last_activity := last_activity info |}]>
                     (connection_sessions s5))
                  s5
            | None => s5
            end in
          set_processing_tasks
            (<[connection_id := Running]> (processing_tasks s6)) s6
      end
  | _ => s
  end.

(** One whole pass, with nothing else running during the engine call. *)
Definition process_cycle (session connection_id : string)
           (reply : Engine.reply) (elapsed now : float) (utc : Z)
           (s : RealtimeStreamingService) : RealtimeStreamingService :=
  cycle_end connection_id reply elapsed now utc
    (cycle_begin session connection_id s).

(** One pass of the loop of [_stream_text_updates]: the next queued text
    goes to the client, or a keepalive when the queue stays empty. *)
Definition stream_text (session connection_id : string)
           (s : RealtimeStreamingService) : RealtimeStreamingService :=
  match text_queue s !! session with
  | Some [] => _send_message connection_id Keepalive s
  | Some (text_data :: rest) =>
      _send_message connection_id (Transcription text_data)
        (set_text_queue (<[session := rest]> (text_queue s)) s)
  | None => s
  end.

(** [process_audio], the request-at-a-time entry point: empty audio is
    answered with an error dict before anything else happens. *)
Definition process_audio (audio_bytes : bytes) (reply : Engine.reply)
           (elapsed : float) (utc : Z) (s : RealtimeStreamingService)
  : bool * RealtimeStreamingService :=
  match audio_bytes with
  | [] => (false, s)
  | _ :: _ =>
      let s1 :=
        set_engine_calls (engine_calls s ++ [(audio_bytes, default_language)]) s in
      match reply with
      | Engine.Raises _ => (false, s1)
      | Engine.Returns result =>
          let conf := default 0.0%float (Engine.confidence result) in
          let failed := bool_decide (is_Some (Engine.error result)) in
          let s2 :=
            set_monitor
              (Monitor.record_model_performance utc "whisper_realtime"
                 conf conf elapsed failed (monitor s1)) s1 in
          let total := total_transcriptions (stats s2) + 1 in
          (true,
           set_stats
             {| total_connections := total_connections (stats s2);
                stat_active_connections := stat_active_connections (stats s2);
                total_audio_chunks := total_audio_chunks (stats s2);
                total_transcriptions := total;
                average_processing_time :=
                  if 0 <? total then
                    ((average_processing_time (stats s2)
                      * Py.float_of_Z (total - 1) + elapsed)
                     / Py.float_of_Z total)%float
                  else average_processing_time (stats s2) |}
             s2)
      end
  end.

(** *** Runs of the service

    What the handlers and tasks of the service do, one block at a time:
    a handler registers its connection, serves its messages and cleans up;
    its processing task and its text streaming task take their passes in
    between. *)
Inductive event :=
| Connect (connection_id session : string) (user : option string)
          (websocket : WebSocket)
| AudioData (connection_id session : string) (audio_data : bytes)
| Text (connection_id session : string) (data : TextMessage)
| CycleBegin (connection_id session : string)
| CycleEnd (connection_id : string) (reply : Engine.reply)
           (elapsed : float) (utc : Z)
| StreamText (connection_id session : string)
| Disconnect (connection_id session : string).

Definition apply_event (now : float) (ev : event)
           (s : RealtimeStreamingService) : RealtimeStreamingService :=
  match ev with
  | Connect c sid user ws => connect c sid user now ws s
  | AudioData c sid data => _handle_audio_data data sid c now s
  | Text c sid data => _handle_text_message data c sid s
  | CycleBegin c sid => cycle_begin sid c s
  | CycleEnd c reply elapsed utc => cycle_end c reply elapsed now utc s
  | StreamText c sid => stream_text sid c s
  | Disconnect c sid => disconnect c sid s
  end.

(** The handler of [connection_id] is serving [session]. *)
Definition serving (s : RealtimeStreamingService)
           (connection_id session : string) : Prop :=
  session_id <$> connection_sessions s !! connection_id = Some session.

(** A new connection gets an id that is not in use ([uuid4]); messages,
    the start of a task pass and the cleanup belong to a handler that is
    serving; an engine call may come back at any time (a task that is not
    waiting for one ignores it). *)
Definition allowed (s : RealtimeStreamingService) (ev : event) : Prop :=
  match ev with
  | Connect c _ _ _ => c ∉ active_connections s
  | AudioData c sid _ | Text c sid _ | CycleBegin c sid
  | StreamText c sid | Disconnect c sid => serving s c sid
  | CycleEnd _ _ _ _ => True
  end.

Inductive reachable : RealtimeStreamingService -> Prop :=
| reachable_init : reachable init
| reachable_step s now ev :
    reachable s -> allowed s ev -> reachable (apply_event now ev s).

(** The session has at least one active connection. *)
Definition has_connection (s : RealtimeStreamingService) (session : string) : Prop :=
  exists c, c ∈ active_connections s /\ serving s c session.

(** The session each registered connection belongs to. *)
Definition session_of (s : RealtimeStreamingService) : gmap string string :=
  session_id <$> connection_sessions s.

(** How the maps of the service hang together. *)
Record consistent (s : RealtimeStreamingService) : Prop := {
  registered_active : dom (session_of s) = active_connections s;
  registered_member :
    forall c sid, session_of s !! c = Some sid ->
      exists members, session_connections s !! sid = Some members /\ c ∈ members;
  member_registered :
    forall sid members c,
      session_connections s !! sid = Some members -> c ∈ members ->
      session_of s !! c = Some sid;
  members_nonempty : forall sid, session_connections s !! sid <> Some ∅;
  buffers_of_sessions : dom (audio_buffers s) = dom (session_connections s);
  queues_of_sessions : dom (text_queue s) = dom (session_connections s);
  subscribers_of_sessions :
    dom (text_subscribers s) ⊆ dom (session_connections s)
}.

(** What [consistent] looks at. *)
Definition shape (s : RealtimeStreamingService) :=
  (active_connections s, session_of s, session_connections s,
   dom (audio_buffers s), dom (text_queue s), dom (text_subscribers s)).

(** *** Sample data *)

Definition open_socket : WebSocket :=
  {| accepts := true; sends := true; outbox := [] |}.

Definition engine_error : Engine.reply :=
  Engine.Returns {| Engine.text := Some ""; Engine.confidence := Some 0.0%float;
                    Engine.language := Some "en";
                    Engine.error := Some "upstream timeout" |}.

Definition engine_hello : Engine.reply :=
  Engine.Returns {| Engine.text := Some "hello world";
                    Engine.confidence := Some 0.93%float;
                    Engine.language := Some "en"; Engine.error := None |}.

(** One connection on one session. *)
Definition one_connection : RealtimeStreamingService :=
  apply_event 1%float (Connect "conn-1" "session-1" None open_socket) init.

(** ... that has sent one chunk of three bytes. *)
Definition one_chunk_buffered : RealtimeStreamingService :=
  apply_event 2%float
    (AudioData "conn-1" "session-1" [Byte.x01; Byte.x02; Byte.x03]) one_connection.

(** ... or one binary message of no bytes at all. *)
Definition empty_chunk_buffered : RealtimeStreamingService :=
  apply_event 2%float (AudioData "conn-1" "session-1" []) one_connection.

(** *** The text stream and the counters *)

(** [n] passes of the loop of [_stream_text_updates], one after the
    other. *)
Fixpoint stream_texts (n : nat) (session connection_id : string)
         (s : RealtimeStreamingService) : RealtimeStreamingService :=
  match n with
  | O => s
  | S n' => stream_texts n' session connection_id (stream_text session connection_id s)
  end.

(** What the peer of a connection has received. *)
Definition outbox_of (connection_id : string) (s : RealtimeStreamingService)
  : list Message :=
  default [] (outbox <$> sockets s !! connection_id).

(** The dict [_send_transcription_result] queues for a result. *)
Definition transcription_of (session : string) (result : Engine.Result)
           (processing_time now : float) : TranscriptionData := {|
  td_session_id := session;
  td_text := default "" (Engine.text result);
  td_confidence := default 0.0%float (Engine.confidence result);
  td_language := default default_language (Engine.language result);
  td_processing_time := processing_time;
  td_timestamp := now
|}.

(** The tasks that are suspended in an engine call. *)
Definition is_awaiting (t : TaskState) : bool :=
  match t with Awaiting _ _ => true | _ => false end.

Definition awaiting (s : RealtimeStreamingService) : gmap string TaskState :=
  filter (fun kt : string * TaskState => is_awaiting kt.2 = true)
         (processing_tasks s).

(** What the counters have to do with the rest of the service. *)
Record counted (s : RealtimeStreamingService) : Prop := {
  ct_active :
    stat_active_connections (stats s) = Z.of_nat (size (active_connections s));
  ct_total : stat_active_connections (stats s) <= total_connections (stats s);
  ct_chunks : 0 <= total_audio_chunks (stats s);
  ct_transcriptions : 0 <= total_transcriptions (stats s);
  ct_samples :
    length (Monitor.history_for "whisper_realtime" (monitor s))
    = Nat.min 1000 (Z.to_nat (total_transcriptions (stats s)));
  ct_engine :
    total_transcriptions (stats s) + Z.of_nat (size (awaiting s))
    <= Z.of_nat (length (engine_calls s))
}.

(** One connection whose chunk went through one pass of its task. *)
Definition one_transcribed : RealtimeStreamingService :=
  apply_event 4%float (CycleEnd "conn-1" engine_hello 0.5%float 40)
    (apply_event 3%float (CycleBegin "conn-1" "session-1") one_chunk_buffered).

(** One connection, two transcriptions waiting in its queue. *)
Definition two_texts_queued : RealtimeStreamingService :=
  set_text_queue
    (<["session-1" :=
         [transcription_of "session-1"
            {| Engine.text := Some "hello"; Engine.confidence := Some 0.9%float;
               Engine.language := Some "en"; Engine.error := None |}
            0.5%float 3%float;
          transcription_of "session-1"
            {| Engine.text := Some "world"; Engine.confidence := Some 0.8%float;
               Engine.language := None; Engine.error := None |}
            0.25%float 4%float]]> (text_queue one_connection))
    one_connection.

End Realtime.

(** ** The direct handler of main.py *)

Module Direct.

Inductive ClientMessage :=
| ErrorMessage (message : string)
| TranscriptionMessage (text : string) (confidence : float) (language : string)
| InfoMessage (message : string).

(** One [await websocket.send_text(...)]: the message reaches the client,
    or the call raises (the client has gone). *)
Inductive SendOutcome :=
| Delivered
| SendRaises (message : string).

#[global] Instance SendOutcome_eq_dec : EqDecision SendOutcome.
Proof. solve_decision. Defined.

(** What [process_audio_directly] acts on: the monitor singleton, the
    engine (its calls) and the client's socket (what has reached it). *)
Record World := {
  monitor : Monitor.ModelMonitoringService;
  engine_calls : list (bytes * string);
  sent : list ClientMessage
}.

(** What the outside supplies to one call: the engine's reply, the
    processing time and the time of the sample; the outcome of the
    [send_text] that answers the message; the readings taken in the inner
    [except] clause and the outcome of its [send_text]; the outcome of the
    [send_text] of the outer [except] clause. *)
Record Env := {
  reply : Engine.reply;
  elapsed : float;
  utc : Z;
  answer_send : SendOutcome;
  except_elapsed : float;
  except_utc : Z;
  except_send : SendOutcome;
  outer_send : SendOutcome
}.

Definition deliver (m : ClientMessage) (w : World) : World :=
  {| monitor := monitor w; engine_calls := engine_calls w; sent := sent w ++ [m] |}.

Definition record (utc : Z) (acc conf ptime : float) (failed : bool)
           (w : World) : World :=
  {| monitor :=
       Monitor.record_model_performance utc "whisper" acc conf ptime failed
         (monitor w);
     engine_calls := engine_calls w; sent := sent w |}.

(** The outer [except Exception as e] clause: one more [send_text], whose
    own failure is passed over. *)
Definition outer_except (env : Env) (e : string) (w : World) : World :=
  match outer_send env with
  | Delivered => deliver (ErrorMessage ("Processing error: " +:+ e)) w
  | SendRaises _ => w
  end.

(** The inner [except Exception as whisper_error] clause: a failure sample
    for an authenticated user, with the time read in the clause, and a
    [send_text] whose failure goes to the outer clause. *)
Definition inner_except (user : option string) (env : Env)
           (whisper_error : string) (w : World) : World :=
  let w1 := if user is Some _
            then record (except_utc env) 0.0%float 0.0%float (except_elapsed env)
                        true w
            else w in
  match except_send env with
  | Delivered =>
      deliver (ErrorMessage ("Speech recognition error: " +:+ whisper_error)) w1
  | SendRaises e => outer_except env e w1
  end.

(** The [send_text] that answers the message, inside the inner [try]:
    when it raises, the inner [except] clause runs. *)
Definition answer (user : option string) (env : Env) (m : ClientMessage)
           (w : World) : World :=
  match answer_send env with
  | Delivered => deliver m w
  | SendRaises e => inner_except user env e w
  end.

(** [process_audio_directly] of main.py, for one binary message of a
    client; [user] is the authenticated user, if any. *)
Definition process_audio_directly (audio_bytes : bytes) (user : option string)
           (env : Env) (w : World) : World :=
  match audio_bytes with
  | [] =>
      match answer_send env with
      | Delivered => deliver (ErrorMessage "No audio data received") w
      | SendRaises e => outer_except env e w
      end
  | _ :: _ =>
      let w1 := {| monitor := monitor w;
                   engine_calls :=
                     engine_calls w ++ [(audio_bytes, Realtime.default_language)];
                   sent := sent w |} in
      match reply env with
      | Engine.Raises whisper_error => inner_except user env whisper_error w1
      | Engine.Returns result =>
          match Engine.error result with
          | Some err =>
              let w2 := if user is Some _
                        then record (utc env) 0.0%float 0.0%float (elapsed env)
                                    true w1
                        else w1 in
              answer user env (ErrorMessage ("Transcription failed: " +:+ err)) w2
          | None =>
              let text := Py.strip (default "" (Engine.text result)) in
              let conf := default 0.0%float (Engine.confidence result) in
              let lang := default Realtime.default_language (Engine.language result) in
              let w2 := if user is Some _
                        then record (utc env) conf conf (elapsed env) false w1
                        else w1 in
              if bool_decide (text = "")
              then answer user env (InfoMessage "No speech detected in audio") w2
              else answer user env (TranscriptionMessage text conf lang) w2
          end
      end
  end.

(** *** A client's messages, one after the other *)

(** One binary message, with what the outside supplies to its handling. *)
Record Incoming := {
  in_audio : bytes;
  in_env : Env
}.

Definition handle (user : option string) (w : World) (m : Incoming) : World :=
  process_audio_directly (in_audio m) user (in_env m) w.

Definition handle_all (user : option string) (msgs : list Incoming) (w : World)
  : World :=
  fold_left (handle user) msgs w.

(** The [send_text] calls made for a message, in order: the answer (none
    when the engine raised), then the one of the inner [except] clause
    when that clause runs, then the one of the outer clause. *)
Definition attempts (m : Incoming) : list SendOutcome :=
  let env := in_env m in
  match in_audio m with
  | [] => [answer_send env; outer_send env]
  | _ :: _ =>
      match reply env with
      | Engine.Raises _ => [except_send env; outer_send env]
      | Engine.Returns _ => [answer_send env; except_send env; outer_send env]
      end
  end.

(** The samples an authenticated client's message leaves with the
    monitor: none for a message of no bytes; otherwise the sample of the
    engine's result (a failure for a result with an ["error"] entry),
    followed by the failure sample of the inner [except] clause when the
    engine raised or the answer could not be sent. *)
Definition observations_of (m : Incoming) : list Monitor.Observation :=
  let env := in_env m in
  let late := {| Monitor.o_time := except_utc env; Monitor.o_model := "whisper";
                 Monitor.o_accuracy := 0.0%float;
                 Monitor.o_confidence := 0.0%float;
                 Monitor.o_processing_time := except_elapsed env;
                 Monitor.o_error := true |} in
  let after_answer :=
    match answer_send env with
    | Delivered => []
    | SendRaises _ => [late]
    end in
  match in_audio m with
  | [] => []
  | _ :: _ =>
      match reply env with
      | Engine.Raises _ => [late]
      | Engine.Returns result =>
          match Engine.error result with
          | Some _ =>
              {| Monitor.o_time := utc env; Monitor.o_model := "whisper";
                 Monitor.o_accuracy := 0.0%float;
                 Monitor.o_confidence := 0.0%float;
                 Monitor.o_processing_time := elapsed env;
                 Monitor.o_error := true |} :: after_answer
          | None =>
              let conf := default 0.0%float (Engine.confidence result) in
              {| Monitor.o_time := utc env; Monitor.o_model := "whisper";
                 Monitor.o_accuracy := conf; Monitor.o_confidence := conf;
                 Monitor.o_processing_time := elapsed env;
                 Monitor.o_error := false |} :: after_answer
          end
      end
  end.

Definition fresh : World :=
  {| monitor := Monitor.init; engine_calls := []; sent := [] |}.

(** An environment in which every [send_text] delivers, and one in which
    the client has gone. *)
Definition delivering (r : Engine.reply) (t : float) (time : Z) : Env :=
  {| reply := r; elapsed := t; utc := time; answer_send := Delivered;
     except_elapsed := t; except_utc := time; except_send := Delivered;
     outer_send := Delivered |}.

Definition client_gone (r : Engine.reply) (t : float) (time : Z) : Env :=
  {| reply := r; elapsed := t; utc := time;
     answer_send := SendRaises "WebSocket is not connected";
     except_elapsed := (t + 0.5)%float; except_utc := time + 1;
     except_send := SendRaises "WebSocket is not connected";
     outer_send := SendRaises "WebSocket is not connected" |}.

Definition sample_messages : list Incoming :=
  [ {| in_audio := [Byte.x01; Byte.x02];
       in_env := delivering Realtime.engine_hello 0.5%float 10 |};
    {| in_audio := []; in_env := delivering Realtime.engine_hello 0%float 11 |};
    {| in_audio := [Byte.x03];
       in_env := delivering (Engine.Raises "timeout") 30%float 12 |};
    {| in_audio := [Byte.x04];
       in_env := delivering Realtime.engine_error 0.25%float 13 |};
    {| in_audio := [Byte.x05];
       in_env := client_gone Realtime.engine_hello 0.5%float 14 |} ].

End Direct.

(** * Properties *)

(** ** Loops and containers *)

Section Folds.
Context {S A : Type}.

(** An invariant of a [for] loop: it holds at entry and every iteration
    over an item of the list keeps it. *)
Lemma fold_left_invariant (P : S -> Prop) (f : S -> A -> S) (l : list A) (s : S) :
  P s ->
  (forall s' x, x ∈ l -> P s' -> P (f s' x)) ->
  P (fold_left f l s).
Proof.
  revert s. induction l as [|x l IH]; intros s Hs Hstep; simpl; [exact Hs|].
  apply IH.
  - apply Hstep; [left | exact Hs].
  - intros s' y Hy. apply Hstep. by right.
Qed.

End Folds.

Example strip_spaces :
  Py.strip (String (Ascii.ascii_of_nat 9) "  hello world  ") = "hello world".
Proof. reflexivity. Qed.

Example strip_blank : Py.strip "   " = "".
Proof. reflexivity. Qed.

(** U+00A0 and U+3000 in front, U+2028 and U+0085 behind. *)
Example strip_unicode_spaces :
  Py.strip (Py.of_codes [194; 160; 227; 128; 128]%nat ++ "hello world"
            ++ Py.of_codes [226; 128; 168; 194; 133]%nat)
  = "hello world".
Proof. reflexivity. Qed.

(** U+00E9 (two bytes, the first one shared with U+00A0) is no white
    space, and neither is U+200B. *)
Example strip_keeps_letters :
  Py.strip (Py.of_codes [32; 195; 169; 226; 128; 139; 32]%nat)
  = Py.of_codes [195; 169; 226; 128; 139]%nat.
Proof. reflexivity. Qed.

Example strip_blank_unicode :
  Py.strip (Py.of_codes [225; 154; 128; 32; 226; 129; 159; 194; 160]%nat) = "".
Proof. reflexivity. Qed.

Example float_of_Z_300 : Py.float_of_Z 300 = 300%float.
Proof. reflexivity. Qed.

Example deque_append_full : Py.deque_append 3 4%nat [1; 2; 3]%nat = [2; 3; 4]%nat.
Proof. reflexivity. Qed.

Lemma last_n_short {A} (n : nat) (l : list A) :
  (length l <= n)%nat -> Py.last_n n l = l.
Proof.
  intros H. unfold Py.last_n.
  replace (length l - n)%nat with 0%nat by lia. reflexivity.
Qed.

Lemma last_n_length {A} (n : nat) (l : list A) :
  length (Py.last_n n l) = Nat.min n (length l).
Proof. unfold Py.last_n. rewrite length_drop. lia. Qed.

Lemma deque_append_last_n {A} (n : nat) (x : A) (d : list A) :
  (0 < n)%nat -> Py.deque_append n x d = Py.last_n n (d ++ [x]).
Proof.
  intros Hn. unfold Py.deque_append, Py.last_n.
  rewrite length_app. simpl. case_decide.
  - replace (length d + 1 - n)%nat with 0%nat by lia. reflexivity.
  - f_equal. lia.
Qed.

Lemma last_n_app_last_n {A} (n : nat) (l k : list A) :
  Py.last_n n (Py.last_n n l ++ k) = Py.last_n n (l ++ k).
Proof.
  unfold Py.last_n.
  rewrite <- (drop_app_le l k (length l - n)) by lia.
  rewrite drop_drop. f_equal.
  rewrite length_drop, !length_app. lia.
Qed.

(** ** The drift monitor *)

Section MonitorFacts.
Import Monitor.
Variable np_mean : list float -> float.
Variable np_percentile : list float -> float -> float.

Abbreviation check := (_check_model_drift np_mean np_percentile).
Abbreviation average := (_calculate_metrics_average np_mean np_percentile).
Abbreviation new_alerts := (appended_alerts np_mean np_percentile).
Abbreviation check_one := (check_model np_mean np_percentile).

Lemma adds_refl Q svc : adds Q svc svc.
Proof.
  split; [done|]. split; [done|]. exists []. by rewrite app_nil_r.
Qed.

Lemma adds_trans Q svc1 svc2 svc3 :
  adds Q svc1 svc2 -> adds Q svc2 svc3 -> adds Q svc1 svc3.
Proof.
  intros (Hh1 & Ht1 & n1 & Hn1 & HQ1) (Hh2 & Ht2 & n2 & Hn2 & HQ2).
  split; [congruence|]. split; [congruence|].
  exists (n1 ++ n2). split.
  - rewrite Hn2, Hn1. by rewrite app_assoc.
  - by apply Forall_app.
Qed.

(** One pass of the inner loop either leaves the service as it is or
    appends one alert, built from the metric at hand. *)
Lemma check_metric_adds (Q : ModelDriftAlert -> Prop) now name cur base svc m t :
  (forall a, built_for name m t cur base a -> Q a) ->
  adds Q svc (check_metric now name cur base svc (m, t)) /\
  baseline_metrics (check_metric now name cur base svc (m, t)) = baseline_metrics svc.
Proof.
  intros HQ. unfold check_metric.
  destruct (PrimFloat.eqb _ 0); [split; [apply adds_refl | done]|].
  destruct (PrimFloat.ltb t _) eqn:Hlt; [|split; [apply adds_refl | done]].
  split; [|done].
  split; [done|]. split; [done|].
  eexists [_]. split; [reflexivity|].
  constructor; [|constructor].
  apply HQ. repeat split; done.
Qed.

Lemma check_metrics_adds (Q : ModelDriftAlert -> Prop) now name cur base svc items :
  (forall m t a, (m, t) ∈ items -> built_for name m t cur base a -> Q a) ->
  adds Q svc (fold_left (check_metric now name cur base) items svc) /\
  baseline_metrics (fold_left (check_metric now name cur base) items svc)
  = baseline_metrics svc.
Proof.
  intros HQ.
  apply (fold_left_invariant
           (fun s => adds Q svc s /\ baseline_metrics s = baseline_metrics svc)).
  - split; [apply adds_refl | done].
  - intros s [m t] Hin [Hs Hb].
    destruct (check_metric_adds Q now name cur base s m t) as [Ha Hb'].
    { intros a. by apply HQ. }
    split; [by eapply adds_trans | congruence].
Qed.

(** One pass of the outer loop.  Every alert it appends is for the model
    at hand, and for one of the configured metrics. *)
Lemma check_model_adds now svc name history :
  adds (fun a => exists m t, (m, t) ∈ drift_thresholds svc /\
                  built_for name m t
                    (average (Py.last_n 100 history))
                    (default ∅ (baseline_metrics svc !! name)) a)
       svc (check_model np_mean np_percentile now svc (name, history)).
Proof.
  unfold check_model.
  case_decide; [apply adds_refl|].
  case_decide.
  - split; [done|]. split; [done|]. exists []. by rewrite app_nil_r.
  - apply check_metrics_adds. intros m t a Hin Hb. by exists m, t.
Qed.

Lemma adds_weaken (Q Q' : ModelDriftAlert -> Prop) svc svc' :
  (forall a, Q a -> Q' a) -> adds Q svc svc' -> adds Q' svc svc'.
Proof.
  intros HQ (Hh & Ht & new & Hn & Hall).
  split; [done|]. split; [done|]. exists new. split; [done|].
  eapply Forall_impl; eauto.
Qed.

(** Any run of the outer loop: histories and thresholds are left alone,
    and every appended alert was built for one of the models visited and a
    configured metric whose drift is above its threshold. *)
Lemma check_models_adds now svc items :
  adds (fun a => exists name m t cur base,
            name ∈ items.*1 /\
            (m, t) ∈ drift_thresholds svc /\
            built_for name m t cur base a)
       svc (fold_left (check_one now) items svc).
Proof.
  apply (fold_left_invariant (fun s => adds _ svc s)); [apply adds_refl|].
  intros s [name history] Hin Hs.
  eapply adds_trans; [exact Hs|].
  eapply adds_weaken; [|apply check_model_adds].
  intros a (m & t & Hmt & Hb). simpl in Hb.
  destruct Hs as (_ & Ht & _). rewrite Ht in Hmt.
  exists name, m, t. do 2 eexists. split; [|split; [exact Hmt | exact Hb]].
  apply list_elem_of_fmap. by exists (name, history).
Qed.

Lemma check_adds now svc :
  adds (fun a => exists name m t cur base,
            name ∈ (performance_history svc).*1 /\
            (m, t) ∈ drift_thresholds svc /\
            built_for name m t cur base a)
       svc (check now svc).
Proof. apply check_models_adds. Qed.

Lemma adds_new_alerts Q now svc :
  adds Q svc (check now svc) -> Forall Q (new_alerts now svc).
Proof.
  intros (_ & _ & new & Hn & Hall). unfold appended_alerts.
  by rewrite Hn, drop_app_length.
Qed.

Lemma determine_severity_strict d t :
  strict_severity_rule d t (_determine_severity d t).
Proof.
  unfold strict_severity_rule, _determine_severity.
  destruct (PrimFloat.ltb (t * 3) d), (PrimFloat.ltb (t * 2) d),
    (PrimFloat.ltb (t * 1.5) d); repeat split; intros; congruence.
Qed.

(** *** The bounded alert history *)

(** [alert_history] follows [handled]: it is the last hundred of what it
    was, followed by the alerts appended since. *)
Lemma check_metric_alert_history now name cur base svc0 svc item :
  handled svc0 `prefix_of` handled svc ->
  alert_history svc
  = Py.last_n 100 (alert_history svc0 ++ drop (length (handled svc0)) (handled svc)) ->
  let svc' := check_metric now name cur base svc item in
  handled svc0 `prefix_of` handled svc' /\
  alert_history svc'
  = Py.last_n 100 (alert_history svc0 ++ drop (length (handled svc0)) (handled svc')).
Proof.
  intros Hpre Hhist. destruct item as [m t]. simpl. unfold check_metric.
  destruct (PrimFloat.eqb _ 0); [done|].
  destruct (PrimFloat.ltb t _); [|done].
  simpl. split.
  - by apply prefix_app_r.
  - rewrite deque_append_last_n by lia. rewrite Hhist, last_n_app_last_n.
    rewrite <- app_assoc. do 2 f_equal.
    rewrite drop_app_le; [done|]. by apply prefix_length.
Qed.

Lemma check_model_alert_history now svc0 svc item :
  handled svc0 `prefix_of` handled svc ->
  alert_history svc
  = Py.last_n 100 (alert_history svc0 ++ drop (length (handled svc0)) (handled svc)) ->
  let svc' := check_one now svc item in
  handled svc0 `prefix_of` handled svc' /\
  alert_history svc'
  = Py.last_n 100 (alert_history svc0 ++ drop (length (handled svc0)) (handled svc')).
Proof.
  intros Hpre Hhist. destruct item as [name history]. simpl. unfold check_model.
  case_decide; [done|]. case_decide; [done|].
  apply (fold_left_invariant
           (fun s => handled svc0 `prefix_of` handled s /\
                     alert_history s
                     = Py.last_n 100 (alert_history svc0
                                      ++ drop (length (handled svc0)) (handled s))));
    [done|].
  intros s x _ [Hp Hh]. by apply check_metric_alert_history.
Qed.

Lemma check_alert_history now svc :
  (length (alert_history svc) <= 100)%nat ->
  alert_history (check now svc)
  = Py.last_n 100 (alert_history svc ++ new_alerts now svc).
Proof.
  intros Hlen. unfold appended_alerts, _check_model_drift.
  apply (fold_left_invariant
           (fun s => handled svc `prefix_of` handled s /\
                     alert_history s
                     = Py.last_n 100 (alert_history svc
                                      ++ drop (length (handled svc)) (handled s)))).
  - split; [done|]. rewrite drop_all, app_nil_r. by rewrite last_n_short.
  - intros s x _ [Hp Hh]. by apply check_model_alert_history.
Qed.

(** *** Baselines across a check *)

Lemma check_model_baseline_other now svc name history other :
  other <> name ->
  baseline_metrics (check_one now svc (name, history)) !! other
  = baseline_metrics svc !! other.
Proof.
  intros Hne. unfold check_model.
  case_decide; [done|]. case_decide.
  - simpl. by rewrite lookup_insert_ne.
  - by rewrite (proj2 (check_metrics_adds (fun _ => True) _ _ _ _ _ _
                         (fun _ _ _ _ _ => I))).
Qed.

Lemma check_model_baseline_kept now svc item name base :
  baseline_metrics svc !! name = Some base -> base <> ∅ ->
  baseline_metrics (check_one now svc item) !! name = Some base.
Proof.
  intros Hb Hne. destruct item as [n h].
  destruct (decide (n = name)) as [->|Hn].
  - unfold check_model. case_decide; [done|].
    rewrite Hb. simpl. case_decide; [done|].
    by rewrite (proj2 (check_metrics_adds (fun _ => True) _ _ _ _ _ _
                         (fun _ _ _ _ _ => I))).
  - by rewrite check_model_baseline_other.
Qed.

Lemma check_models_baseline_kept now svc items name base :
  baseline_metrics svc !! name = Some base -> base <> ∅ ->
  baseline_metrics (fold_left (check_one now) items svc) !! name = Some base.
Proof.
  intros Hb Hne.
  apply (fold_left_invariant (fun s => baseline_metrics s !! name = Some base));
    [done|].
  intros s x _ Hs. by apply check_model_baseline_kept.
Qed.

Lemma check_models_baseline_other now svc items name :
  name ∉ items.*1 ->
  baseline_metrics (fold_left (check_one now) items svc) !! name
  = baseline_metrics svc !! name.
Proof.
  intros Hni.
  apply (fold_left_invariant
           (fun s => baseline_metrics s !! name = baseline_metrics svc !! name));
    [done|].
  intros s [n h] Hin Hs. rewrite check_model_baseline_other; [done|].
  intros ->. apply Hni. apply list_elem_of_fmap. by exists (n, h).
Qed.

Lemma average_nonempty l : l <> [] -> average l <> ∅.
Proof.
  intros Hl. unfold _calculate_metrics_average.
  destruct l; [done|]. apply insert_non_empty.
Qed.

(** *** Alerts that must be appended *)

Lemma check_metrics_appends now name cur base svc items m t :
  (m, t) ∈ items ->
  PrimFloat.eqb (default 0%float (base !! m)) 0 = false ->
  PrimFloat.ltb t (drift_fraction m (default 0%float (cur !! m))
                                   (default 0%float (base !! m))) = true ->
  exists a n1 n2,
    handled (fold_left (check_metric now name cur base) items svc)
    = handled svc ++ n1 ++ a :: n2 /\
    built_for name m t cur base a.
Proof.
  intros Hin Hz Hlt.
  apply list_elem_of_split in Hin as (l1 & l2 & ->).
  rewrite fold_left_app. cbn [fold_left].
  destruct (check_metrics_adds (fun _ => True) now name cur base svc l1)
    as [(_ & _ & n1 & Hn1 & _) _]; [done|].
  set (s1 := fold_left _ l1 svc) in *.
  destruct (check_metrics_adds (fun _ => True) now name cur base
              (check_metric now name cur base s1 (m, t)) l2)
    as [(_ & _ & n2 & Hn2 & _) _]; [done|].
  eexists _, n1, n2. split.
  - rewrite Hn2. unfold check_metric. rewrite Hz, Hlt. simpl.
    rewrite Hn1. rewrite <- !app_assoc. reflexivity.
  - repeat split; done.
Qed.

Lemma average_lookup_confidence l :
  l <> [] -> average l !! "confidence" = Some (np_mean (confidence <$> l)).
Proof.
  intros Hl. unfold _calculate_metrics_average. destruct l; [done|].
  by rewrite !lookup_insert_ne, lookup_insert_eq by done.
Qed.

Lemma average_lookup_accuracy l :
  l <> [] -> average l !! "accuracy" = Some (np_mean (accuracy <$> l)).
Proof.
  intros Hl. unfold _calculate_metrics_average. destruct l; [done|].
  by rewrite !lookup_insert_ne, lookup_insert_eq by done.
Qed.

Lemma average_lookup_processing_time l :
  l <> [] ->
  average l !! "processing_time" = Some (np_mean (processing_time <$> l)).
Proof.
  intros Hl. unfold _calculate_metrics_average. destruct l; [done|].
  by rewrite !lookup_insert_ne, lookup_insert_eq by done.
Qed.

Lemma average_lookup_error_rate l :
  l <> [] -> average l !! "error_rate" = Some (np_mean (error_rate <$> l)).
Proof.
  intros Hl. unfold _calculate_metrics_average. destruct l; [done|].
  by rewrite !lookup_insert_ne, lookup_insert_eq by done.
Qed.

Lemma last_n_nonempty {A} (n : nat) (l : list A) :
  (0 < n)%nat -> l <> [] -> Py.last_n n l <> [].
Proof.
  intros Hn Hl Hnil. apply (f_equal length) in Hnil.
  rewrite last_n_length in Hnil. destruct l; [done|]. simpl in Hnil. lia.
Qed.

(** A model with enough samples and an established baseline: a configured
    metric whose drift is above its threshold gets an alert in this check. *)
Lemma check_appends now svc name history base m t :
  (name, history) ∈ performance_history svc ->
  (10 <= length history)%nat ->
  baseline_metrics svc !! name = Some base -> base <> ∅ ->
  (m, t) ∈ drift_thresholds svc ->
  PrimFloat.eqb (default 0%float (base !! m)) 0 = false ->
  PrimFloat.ltb t
    (drift_fraction m
       (default 0%float (average (Py.last_n 100 history) !! m))
       (default 0%float (base !! m))) = true ->
  exists a, a ∈ new_alerts now svc /\
            built_for name m t (average (Py.last_n 100 history)) base a.
Proof.
  intros Hin Hlen Hb Hne Hmt Hz Hlt.
  apply list_elem_of_split in Hin as (l1 & l2 & Hph).
  unfold appended_alerts, _check_model_drift. rewrite Hph.
  rewrite fold_left_app. cbn [fold_left].
  destruct (check_models_adds now svc l1) as (_ & Ht1 & n1 & Hn1 & _).
  pose proof (check_models_baseline_kept now svc l1 name base Hb Hne) as Hb1.
  set (s1 := fold_left _ l1 svc) in *.
  destruct (check_models_adds now (check_one now s1 (name, history)) l2)
    as (_ & _ & n3 & Hn3 & _).
  rewrite Hn3. unfold check_model.
  case_decide; [lia|]. rewrite Hb1. simpl.
  case_decide; [done|].
  rewrite Ht1.
  destruct (check_metrics_appends now name (average (Py.last_n 100 history))
              base s1 (drift_thresholds svc) m t Hmt Hz Hlt)
    as (a & k1 & k2 & Hk & Hbuilt).
  exists a. split; [|done].
  rewrite Hk, Hn1. rewrite <- !app_assoc. rewrite drop_app_length.
  set_solver.
Qed.

(** C2 (as amended).  Take a drift check, a model with at least ten
    samples and an established baseline, and a configured metric whose
    baseline value is not zero, so that the check computes the metric's
    drift fraction.  When this drift fraction exceeds the metric's
    threshold [t], the check appends a DriftAlert for this model and
    metric that carries this drift fraction, and the alert's severity is
    critical when the drift is above [3t], high when it is above [2t] but
    not above [3t], medium when it is above [1.5t] but not above [2t], and
    low otherwise: every bound is strict.  The same scale holds of every
    alert the check appends, each one for a metric whose drift is above
    its threshold. *)
Theorem drift_alert_severity_strict now svc name history base m t :
  (name, history) ∈ performance_history svc ->
  (10 <= length history)%nat ->
  baseline_metrics svc !! name = Some base -> base <> ∅ ->
  (m, t) ∈ drift_thresholds svc ->
  let current := default 0%float (average (Py.last_n 100 history) !! m) in
  let baseline := default 0%float (base !! m) in
  let drift := drift_fraction m current baseline in
  PrimFloat.eqb baseline 0 = false ->
  PrimFloat.ltb t drift = true ->
  (exists a, a ∈ new_alerts now svc /\
     alert_model_name a = name /\ metric_name a = m /\
     current_value a = current /\ baseline_value a = baseline /\
     drift_percentage a = drift /\
     strict_severity_rule drift t (severity a)) /\
  (forall a, a ∈ new_alerts now svc ->
     exists t',
       (metric_name a, t') ∈ drift_thresholds svc /\
       PrimFloat.ltb t' (drift_percentage a) = true /\
       strict_severity_rule (drift_percentage a) t' (severity a)).
Proof.
  intros Hin Hlen Hb Hne Hmt current baseline drift Hz Hlt.
  split.
  - destruct (check_appends now svc name history base m t)
      as (a & Ha & Hn & Hm & Hc & Hbv & Hd & _ & Hs); try done.
    exists a. rewrite Hc, Hbv in Hd.
    repeat split; try done.
    all: rewrite Hs, Hd; apply determine_severity_strict.
  - intros a Ha.
    pose proof (adds_new_alerts _ now svc (check_adds now svc)) as Hall.
    rewrite Forall_forall in Hall.
    destruct (Hall a Ha) as (name' & m' & t' & cur & base' & _ & Hmt' & Hb').
    destruct Hb' as (_ & Hm & _ & _ & _ & Hlt' & Hsev).
    exists t'. rewrite Hm. split; [done|]. split; [done|].
    rewrite Hsev. apply determine_severity_strict.
Qed.

(** C3 (as amended).  With an established baseline confidence of 0.90 and
    a confidence threshold of 0.10, a drift check whose window average
    confidence is 0.70 appends a confidence alert of severity high, and one
    whose window average confidence is 0.50 appends a confidence alert of
    severity critical. *)
Theorem confidence_drift_from_090 now svc name history base c sev :
  (name, history) ∈ performance_history svc ->
  (10 <= length history)%nat ->
  baseline_metrics svc !! name = Some base ->
  base !! "confidence" = Some 0.90%float ->
  ("confidence", 0.10%float) ∈ drift_thresholds svc ->
  np_mean (confidence <$> Py.last_n 100 history) = c ->
  (c = 0.70%float /\ sev = "high") \/ (c = 0.50%float /\ sev = "critical") ->
  exists a, a ∈ new_alerts now svc /\
    alert_model_name a = name /\ metric_name a = "confidence" /\
    current_value a = c /\ baseline_value a = 0.90%float /\
    severity a = sev.
Proof.
  intros Hin Hlen Hb Hconf Hmt Hmean Hcase.
  assert (Hne : base <> ∅).
  { intros ->. by rewrite lookup_empty in Hconf. }
  assert (Hwin : Py.last_n 100 history <> []).
  { apply last_n_nonempty; [lia|]. destruct history; [simpl in Hlen; lia|done]. }
  pose proof (average_lookup_confidence _ Hwin) as Hcur. rewrite Hmean in Hcur.
  assert (Hlt : PrimFloat.ltb 0.10
                  (drift_fraction "confidence" c 0.90%float) = true).
  { destruct Hcase as [[-> _] | [-> _]]; reflexivity. }
  destruct (check_appends now svc name history base "confidence" 0.10%float)
    as (a & Ha & Hn & Hm & Hc & Hbv & Hd & _ & Hs); try done.
  { by rewrite Hconf. }
  { by rewrite Hcur, Hconf. }
  rewrite Hcur in Hc. rewrite Hconf in Hbv. simpl in Hc, Hbv.
  exists a. repeat split; try done.
  rewrite Hs, Hd, Hc, Hbv.
  destruct Hcase as [[-> ->] | [-> ->]]; reflexivity.
Qed.

(** C9.  For a model of the history (a dict: its keys are distinct): when
    the model has at least ten samples and no baseline yet, the drift check
    sets its baseline to the average of the current window (the last hundred
    samples), whose entries are the window means, and appends no alert for
    the model; when the model has fewer than ten samples the check neither
    touches its baseline nor appends an alert for it. *)
Theorem drift_bootstrap now svc name history :
  NoDup (performance_history svc).*1 ->
  (name, history) ∈ performance_history svc ->
  ((10 <= length history)%nat ->
   default ∅ (baseline_metrics svc !! name) = ∅ ->
   let window := Py.last_n 100 history in
   baseline_metrics (check now svc) !! name = Some (average window) /\
   average window !! "accuracy" = Some (np_mean (accuracy <$> window)) /\
   average window !! "confidence" = Some (np_mean (confidence <$> window)) /\
   average window !! "processing_time"
   = Some (np_mean (processing_time <$> window)) /\
   average window !! "error_rate" = Some (np_mean (error_rate <$> window)) /\
   Forall (fun a => alert_model_name a <> name) (new_alerts now svc)) /\
  ((length history < 10)%nat ->
   baseline_metrics (check now svc) !! name = baseline_metrics svc !! name /\
   Forall (fun a => alert_model_name a <> name) (new_alerts now svc)).
Proof.
  intros Hnd Hin.
  apply list_elem_of_split in Hin as (l1 & l2 & Hph).
  rewrite Hph, fmap_app, fmap_cons in Hnd. simpl in Hnd.
  apply NoDup_app in Hnd as (_ & Hl1 & Hnd).
  apply NoDup_cons in Hnd as (Hl2 & _).
  assert (Hn1 : name ∉ l1.*1).
  { intros H1. apply (Hl1 name H1). left. }
  set (Q := fun a => alert_model_name a <> name).
  assert (Hadds : forall s items, name ∉ items.*1 ->
            adds Q s (fold_left (check_one now) items s)).
  { intros s items Hni. eapply adds_weaken; [|apply check_models_adds].
    intros a (n & m & t & cur & base & Hn & _ & Hb & _). unfold Q.
    rewrite Hb. intros ->. done. }
  unfold appended_alerts, _check_model_drift. rewrite Hph.
  rewrite fold_left_app. cbn [fold_left].
  pose proof (check_models_baseline_other now svc l1 name Hn1) as Hb1.
  pose proof (Hadds svc l1 Hn1) as Ha1.
  set (s1 := fold_left _ l1 svc) in *.
  split.
  - intros Hlen Hnone. set (window := Py.last_n 100 history).
    assert (Hwin : window <> []).
    { apply last_n_nonempty; [lia|]. destruct history; [simpl in Hlen; lia|done]. }
    assert (Hstep : check_one now s1 (name, history)
                    = with_baseline (<[name := average window]> (baseline_metrics s1)) s1).
    { unfold check_model. case_decide; [lia|]. rewrite Hb1.
      case_decide; [done|]. contradiction. }
    rewrite Hstep.
    split; [|split; [|split; [|split; [|split]]]].
    + apply check_models_baseline_kept; [|by apply average_nonempty].
      simpl. apply lookup_insert_eq.
    + by apply average_lookup_accuracy.
    + by apply average_lookup_confidence.
    + by apply average_lookup_processing_time.
    + by apply average_lookup_error_rate.
    + pose proof (Hadds (with_baseline (<[name := average window]>
                           (baseline_metrics s1)) s1) l2 Hl2) as Ha2.
      destruct Ha1 as (_ & _ & n1 & Hh1 & HQ1).
      destruct Ha2 as (_ & _ & n2 & Hh2 & HQ2).
      rewrite Hh2. simpl. rewrite Hh1, <- app_assoc, drop_app_length.
      by apply Forall_app.
  - intros Hlen.
    assert (Hstep : check_one now s1 (name, history) = s1).
    { unfold check_model. case_decide; [done|lia]. }
    rewrite Hstep. split.
    + rewrite check_models_baseline_other; done.
    + pose proof (Hadds s1 l2 Hl2) as Ha2.
      destruct Ha1 as (_ & _ & n1 & Hh1 & HQ1).
      destruct Ha2 as (_ & _ & n2 & Hh2 & HQ2).
      rewrite Hh2, Hh1, <- app_assoc, drop_app_length.
      by apply Forall_app.
Qed.

End MonitorFacts.

(** C2 as stated fails at the bound: on [svc_drift_3t] (baseline confidence
    1.0, window average 0.7, threshold 0.10) the confidence drift is above
    the threshold and equal to three times the threshold, and the alert the
    check appends is of severity high, not critical. *)
Lemma drift_at_3t_is_high :
  Monitor.alert_3t
    ∈ Monitor.appended_alerts Monitor.seq_mean Monitor.seq_percentile
          (Monitor.clock_at 120)
        Monitor.svc_drift_3t /\
  Py.assoc_get "confidence" (Monitor.drift_thresholds Monitor.svc_drift_3t)
  = Some 0.10%float /\
  PrimFloat.ltb 0.10 (Monitor.drift_percentage Monitor.alert_3t) = true /\
  PrimFloat.leb (0.10 * 3) (Monitor.drift_percentage Monitor.alert_3t) = true /\
  Monitor.severity Monitor.alert_3t = "high" /\
  Monitor.severity Monitor.alert_3t <> "critical".
Proof.
  split; [|repeat split; done].
  assert (Monitor.appended_alerts Monitor.seq_mean Monitor.seq_percentile
        (Monitor.clock_at 120)
            Monitor.svc_drift_3t
          = [ {| Monitor.alert_model_name := "whisper_realtime";
                 Monitor.metric_name := "accuracy";
                 Monitor.current_value := (14 / 20)%float;
                 Monitor.baseline_value := 1%float;
                 Monitor.drift_percentage := ((1 - 14 / 20) / 1)%float;
                 Monitor.severity := "critical";
                 Monitor.alert_timestamp := 120 |};
              Monitor.alert_3t ]) as ->.
  { vm_compute. reflexivity. }
  right. left.
Qed.

Lemma drift_alert_severity_strict_witness :
  (exists a,
     a ∈ Monitor.appended_alerts Monitor.seq_mean Monitor.seq_percentile
           (Monitor.clock_at 120) Monitor.svc_drift_3t /\
     Monitor.alert_model_name a = "whisper_realtime" /\
     Monitor.metric_name a = "confidence" /\
     Monitor.current_value a = (14 / 20)%float /\
     Monitor.baseline_value a = 1%float /\
     Monitor.drift_percentage a = ((1 - 14 / 20) / 1)%float /\
     Monitor.strict_severity_rule ((1 - 14 / 20) / 1)%float 0.10%float
       (Monitor.severity a)) /\
  (forall a,
     a ∈ Monitor.appended_alerts Monitor.seq_mean Monitor.seq_percentile
           (Monitor.clock_at 120) Monitor.svc_drift_3t ->
     exists t,
       (Monitor.metric_name a, t) ∈ Monitor.drift_thresholds Monitor.svc_drift_3t /\
       PrimFloat.ltb t (Monitor.drift_percentage a) = true /\
       Monitor.strict_severity_rule (Monitor.drift_percentage a) t
         (Monitor.severity a)).
Proof.
  refine (_ (drift_alert_severity_strict Monitor.seq_mean Monitor.seq_percentile
           (Monitor.clock_at 120) Monitor.svc_drift_3t "whisper_realtime"
           (Monitor.history_of Monitor.svc_drift_3t)
           (default ∅ (Monitor.baseline_metrics Monitor.svc_drift_3t
                         !! "whisper_realtime"))
           "confidence" 0.10%float _ _ _ _ _ _ _)).
  - intros H. vm_compute in H |- *. exact H.
  - vm_compute. left.
  - vm_compute. lia.
  - vm_compute. reflexivity.
  - intros Hempty. apply (f_equal (fun m => m !! "confidence")) in Hempty.
    vm_compute in Hempty. discriminate Hempty.
  - vm_compute. right. left.
  - vm_compute. reflexivity.
  - vm_compute. reflexivity.
Defined.

(** C3 as stated fails in its first half: with baseline confidence 0.90
    and window average 0.70 the drift check appends, for confidence, an
    alert of severity high; no alert of severity medium is appended. *)
Lemma confidence_070_is_high :
  (exists a,
     a ∈ Monitor.appended_alerts Monitor.seq_mean Monitor.seq_percentile
           (Monitor.clock_at 120)
           Monitor.svc_090_070 /\
     Monitor.metric_name a = "confidence" /\
     Monitor.baseline_value a = 0.90%float /\
     Monitor.current_value a = 0.70%float /\
     Monitor.severity a = "high") /\
  Forall (fun a => Monitor.severity a <> "medium")
    (Monitor.appended_alerts Monitor.seq_mean Monitor.seq_percentile
          (Monitor.clock_at 120)
       Monitor.svc_090_070).
Proof.
  assert (Monitor.appended_alerts Monitor.seq_mean Monitor.seq_percentile
        (Monitor.clock_at 120)
            Monitor.svc_090_070
          = [ {| Monitor.alert_model_name := "whisper_realtime";
                 Monitor.metric_name := "accuracy";
                 Monitor.current_value := 0.70%float;
                 Monitor.baseline_value := 0.90%float;
                 Monitor.drift_percentage := ((0.90 - 0.70) / 0.90)%float;
                 Monitor.severity := "critical";
                 Monitor.alert_timestamp := 120 |};
              {| Monitor.alert_model_name := "whisper_realtime";
                 Monitor.metric_name := "confidence";
                 Monitor.current_value := 0.70%float;
                 Monitor.baseline_value := 0.90%float;
                 Monitor.drift_percentage := ((0.90 - 0.70) / 0.90)%float;
                 Monitor.severity := "high";
                 Monitor.alert_timestamp := 120 |} ]) as ->.
  { vm_compute. reflexivity. }
  split.
  - eexists. split; [right; left|]. repeat split; reflexivity.
  - repeat constructor; simpl; discriminate.
Qed.

Lemma confidence_drift_from_090_witness :
  exists a,
    a ∈ Monitor.appended_alerts Monitor.seq_mean Monitor.seq_percentile
          (Monitor.clock_at 120)
          Monitor.svc_090_050 /\
    Monitor.alert_model_name a = "whisper_realtime" /\
    Monitor.metric_name a = "confidence" /\
    Monitor.current_value a = 0.50%float /\
    Monitor.baseline_value a = 0.90%float /\
    Monitor.severity a = "critical".
Proof.
  apply (confidence_drift_from_090 Monitor.seq_mean Monitor.seq_percentile
        (Monitor.clock_at 120)
           Monitor.svc_090_050 "whisper_realtime"
           (Monitor.history_of Monitor.svc_090_050)
           (default ∅ (Monitor.baseline_metrics Monitor.svc_090_050
                         !! "whisper_realtime"))).
  - vm_compute. left.
  - vm_compute. lia.
  - vm_compute. reflexivity.
  - vm_compute. reflexivity.
  - vm_compute. right. left.
  - vm_compute. reflexivity.
  - right. split; reflexivity.
Defined.

Lemma drift_bootstrap_witness :
  (let window := Py.last_n 100 (Monitor.history_of Monitor.svc_ten_samples) in
   Monitor.baseline_metrics
     (Monitor._check_model_drift Monitor.seq_mean Monitor.seq_percentile
           (Monitor.clock_at 60)
        Monitor.svc_ten_samples) !! "whisper_realtime"
   = Some (Monitor._calculate_metrics_average Monitor.seq_mean
             Monitor.seq_percentile window) /\
   Monitor._calculate_metrics_average Monitor.seq_mean Monitor.seq_percentile
     window !! "confidence" = Some 0.90%float /\
   Monitor.appended_alerts Monitor.seq_mean Monitor.seq_percentile (Monitor.clock_at 60)
     Monitor.svc_ten_samples = []) /\
  (Monitor.baseline_metrics
     (Monitor._check_model_drift Monitor.seq_mean Monitor.seq_percentile
           (Monitor.clock_at 60)
        Monitor.svc_three_samples) !! "whisper_realtime" = None /\
   Monitor.appended_alerts Monitor.seq_mean Monitor.seq_percentile (Monitor.clock_at 60)
     Monitor.svc_three_samples = []).
Proof.
  pose proof (drift_bootstrap Monitor.seq_mean Monitor.seq_percentile
        (Monitor.clock_at 60)
                Monitor.svc_ten_samples "whisper_realtime"
                (Monitor.history_of Monitor.svc_ten_samples)) as Hten.
  pose proof (drift_bootstrap Monitor.seq_mean Monitor.seq_percentile
        (Monitor.clock_at 60)
                Monitor.svc_three_samples "whisper_realtime"
                (Monitor.history_of Monitor.svc_three_samples)) as Hthree.
  split.
  - destruct Hten as [Hten _].
    + vm_compute. repeat constructor. inversion 1.
    + vm_compute. left.
    + destruct Hten as (Hb & _ & _ & _ & _ & _).
      * vm_compute. lia.
      * vm_compute. reflexivity.
      * split; [exact Hb|]. split; vm_compute; reflexivity.
  - destruct Hthree as [_ Hthree].
    + vm_compute. repeat constructor. inversion 1.
    + vm_compute. left.
    + destruct Hthree as (Hb & _).
      * vm_compute. lia.
      * split; [|vm_compute; reflexivity].
        rewrite Hb. vm_compute. reflexivity.
Defined.

(** ** The audio stream buffer *)

Section AudioProcFacts.
Import AudioProc.

Lemma last_n_snoc_full {A} (n : nat) (l : list A) (x : A) :
  (0 < n)%nat -> (n <= length l)%nat ->
  drop 1 (Py.last_n n l) ++ [x] = Py.last_n n (l ++ [x]).
Proof.
  intros Hn Hl. unfold Py.last_n.
  rewrite drop_drop, length_app. simpl.
  rewrite drop_app_le by lia. f_equal. f_equal. lia.
Qed.

Lemma last_n_snoc_short {A} (n : nat) (l : list A) (x : A) :
  (length l < n)%nat -> Py.last_n n l ++ [x] = Py.last_n n (l ++ [x]).
Proof.
  intros Hl. unfold Py.last_n. rewrite length_app. simpl.
  replace (length l - n)%nat with 0%nat by lia.
  replace (length l + 1 - n)%nat with 0%nat by lia. reflexivity.
Qed.

Lemma add_all_snoc ops op p :
  add_all (ops ++ [op]) p
  = ((add_all ops p).1 ++ [(add_audio_chunk op.1 op.2 (add_all ops p).2).1],
     (add_audio_chunk op.1 op.2 (add_all ops p).2).2).
Proof.
  unfold add_all. rewrite fold_left_app. cbn [fold_left].
  by destruct (add_audio_chunk _ _ _).
Qed.

Lemma chunks_for_snoc sid ops op :
  chunks_for sid (ops ++ [op])
  = chunks_for sid ops ++ (if decide (op.1 = sid) then [op.2] else []).
Proof.
  unfold chunks_for. rewrite filter_app, fmap_app. f_equal.
  rewrite filter_cons, filter_nil. by case_decide.
Qed.

Lemma add_audio_chunk_tracks C ops p sid chunk :
  0 < C -> buffers_track C ops p ->
  (add_audio_chunk sid chunk p).1 = true /\
  buffers_track C (ops ++ [(sid, chunk)]) (add_audio_chunk sid chunk p).2.
Proof.
  intros HC (Hsize & Htotal & Hbufs).
  unfold add_audio_chunk.
  set (bufs0 := match audio_buffers p !! sid with
                | Some _ => audio_buffers p
                | None => <[sid := []]> (audio_buffers p)
                end).
  assert (Hbuf0 : bufs0 !! sid = Some (Py.last_n (Z.to_nat C) (chunks_for sid ops))).
  { unfold bufs0. rewrite (Hbufs sid).
    destruct (chunks_for sid ops) eqn:E.
    - by rewrite lookup_insert_eq.
    - by rewrite Hbufs, E. }
  assert (Hother : forall s, s <> sid -> bufs0 !! s = audio_buffers p !! s).
  { intros s Hs. unfold bufs0. destruct (audio_buffers p !! sid); [done|].
    by rewrite lookup_insert_ne. }
  rewrite Hbuf0. simpl. rewrite Hsize, Htotal.
  set (old := chunks_for sid ops) in *.
  assert (Hnew : exists buf1 ov,
    (if Z.of_nat (length (Py.last_n (Z.to_nat C) old)) >=? C
     then match Py.last_n (Z.to_nat C) old with
          | [] => None
          | _ :: rest => Some (rest, buffer_overflows (stats p) + 1)
          end
     else Some (Py.last_n (Z.to_nat C) old, buffer_overflows (stats p)))
    = Some (buf1, ov) /\
    buf1 ++ [chunk] = Py.last_n (Z.to_nat C) (old ++ [chunk])).
  { rewrite last_n_length.
    destruct (Z.geb_spec (Z.of_nat (Nat.min (Z.to_nat C) (length old))) C) as [Hge|Hlt].
    - assert (Hfull : (Z.to_nat C <= length old)%nat) by lia.
      pose proof (last_n_snoc_full (Z.to_nat C) old chunk ltac:(lia) Hfull) as Hs.
      pose proof (last_n_length (Z.to_nat C) old) as Hlen.
      destruct (Py.last_n (Z.to_nat C) old) as [|y rest]; [simpl in Hlen; lia|].
      eexists _, _. split; [reflexivity|]. exact Hs.
    - eexists _, _. split; [reflexivity|].
      apply last_n_snoc_short. lia. }
  destruct Hnew as (buf1 & ov & -> & Hbuf1).
  destruct (Z.eqb_spec (Z.of_nat (length ops) + 1) 0) as [|_]; [lia|].
  simpl. split; [done|].
  split; [done|]. split.
  { rewrite length_app. simpl. lia. }
  intros s. rewrite chunks_for_snoc. simpl.
  destruct (decide (sid = s)) as [<-|Hne].
  - rewrite lookup_insert_eq. fold old. rewrite Hbuf1.
    by destruct old.
  - rewrite lookup_insert_ne by done. rewrite app_nil_r.
    rewrite Hother by done. apply Hbufs.
Qed.

Lemma add_all_tracks C d ops :
  0 < C ->
  Forall (fun ok => ok = true) (add_all ops (init C d)).1 /\
  length (add_all ops (init C d)).1 = length ops /\
  buffers_track C ops (add_all ops (init C d)).2.
Proof.
  intros HC. induction ops as [|op ops IH] using rev_ind.
  - split; [constructor|]. split; [done|].
    split; [done|]. split; [done|]. intros sid. apply lookup_empty.
  - destruct IH as (Hres & Hlen & Htrack).
    rewrite add_all_snoc. simpl.
    destruct op as [sid chunk]. simpl.
    destruct (add_audio_chunk_tracks C ops _ sid chunk HC Htrack) as [Hok Ht].
    split; [|split].
    + apply Forall_app. split; [done|]. by constructor.
    + rewrite !length_app. simpl. lia.
    + exact Ht.
Qed.

(** C5 (as amended).  For a processor of capacity [C >= 1] and every
    sequence of appends (to any sessions), every append returns [True], and
    the buffer of each session holds exactly the [min(k, C)] most recent of
    the [k] chunks appended to that session, in append order; draining
    returns that list. *)
Theorem buffer_keeps_most_recent (C : Z) (d : float)
        (ops : list (string * bytes)) (sid : string) :
  0 < C ->
  let p := (add_all ops (init C d)).2 in
  let appended := chunks_for sid ops in
  Forall (fun ok => ok = true) (add_all ops (init C d)).1 /\
  length (add_all ops (init C d)).1 = length ops /\
  default [] (audio_buffers p !! sid) = Py.last_n (Z.to_nat C) appended /\
  length (default [] (audio_buffers p !! sid))
  = Nat.min (length appended) (Z.to_nat C) /\
  (get_audio_chunks sid true p).1 = Py.last_n (Z.to_nat C) appended.
Proof.
  intros HC p appended.
  destruct (add_all_tracks C d ops HC) as (Hres & Hlen & _ & _ & Hbufs).
  fold p in Hbufs. specialize (Hbufs sid). fold appended in Hbufs.
  assert (Hbuf : default [] (audio_buffers p !! sid)
                 = Py.last_n (Z.to_nat C) appended).
  { rewrite Hbufs. by destruct appended. }
  split; [done|]. split; [done|]. split; [done|]. split.
  - rewrite Hbuf, last_n_length. lia.
  - unfold get_audio_chunks. rewrite Hbufs. by destruct appended.
Qed.

End AudioProcFacts.

Lemma buffer_keeps_most_recent_witness :
  0 < 2 /\
  (AudioProc.add_all AudioProc.sample_appends (AudioProc.init 2 1)).1
  = [true; true; true; true] /\
  default [] (AudioProc.audio_buffers
                (AudioProc.add_all AudioProc.sample_appends
                   (AudioProc.init 2 1)).2 !! "s1")
  = [AudioProc.chunk_b; AudioProc.chunk_c].
Proof.
  pose proof (buffer_keeps_most_recent 2 1 AudioProc.sample_appends "s1")
    as H.
  split; [lia|].
  destruct H as (_ & _ & Hbuf & _); [lia|].
  split; [vm_compute; reflexivity|].
  rewrite Hbuf. vm_compute. reflexivity.
Defined.

(** C5 as stated fails for a capacity of zero: the append finds the
    (empty) buffer at capacity, [pop(0)] raises, and the call returns
    [False] with nothing buffered. *)
Lemma append_capacity_zero_returns_false :
  (AudioProc.add_audio_chunk "s1" AudioProc.chunk_a (AudioProc.init 0 1)).1
  = false /\
  AudioProc.audio_buffers
    (AudioProc.add_audio_chunk "s1" AudioProc.chunk_a (AudioProc.init 0 1)).2
    !! "s1" = Some [].
Proof. split; vm_compute; reflexivity. Qed.

(** ** The connection manager *)

Section ConnMgrFacts.
Import ConnMgr.

Lemma remove_connection_active c mgr :
  active_connections (remove_connection c mgr).2
  = delete c (active_connections mgr).
Proof.
  unfold remove_connection.
  destruct (active_connections mgr !! c) eqn:E.
  - by destruct (match match _ with Some _ => _ | None => _ end
                 with Some _ => _ | None => _ end).
  - simpl. symmetry. by apply delete_id.
Qed.

Lemma send_message_ok c ws msg now mgr :
  active_connections mgr !! c = Some ws -> on_send ws = SendOk ->
  (send_message c msg now mgr).1 = true /\
  active_connections (send_message c msg now mgr).2
  = <[c := deliver msg ws]> (active_connections mgr) /\
  session_connections (send_message c msg now mgr).2 = session_connections mgr.
Proof. intros Hc Hs. unfold send_message. by rewrite Hc, Hs. Qed.

Lemma send_message_fails c ws e msg now mgr :
  active_connections mgr !! c = Some ws -> on_send ws = SendRaises e ->
  e <> ConnectionClosed ->
  send_message c msg now mgr = (false, mgr).
Proof.
  intros Hc Hs He. unfold send_message. rewrite Hc, Hs. by destruct e.
Qed.

Lemma send_message_closed c ws msg now mgr :
  active_connections mgr !! c = Some ws ->
  on_send ws = SendRaises ConnectionClosed ->
  send_message c msg now mgr = (false, (remove_connection c mgr).2).
Proof. intros Hc Hs. unfold send_message. by rewrite Hc, Hs. Qed.

(** A connection that is not registered stays so through sends to any
    connection. *)
Lemma send_message_keeps_absent c c' msg now mgr :
  active_connections mgr !! c = None ->
  active_connections (send_message c' msg now mgr).2 !! c = None.
Proof.
  intros Hc. unfold send_message.
  destruct (active_connections mgr !! c') as [ws|] eqn:E; [|done].
  assert (c <> c') by congruence.
  destruct (on_send ws) as [|[]]; simpl; try done.
  - by rewrite lookup_insert_ne.
  - rewrite remove_connection_active. by rewrite lookup_delete_ne.
Qed.

Lemma broadcast_loop_keeps_absent c sid msg now used pending n mgr :
  active_connections mgr !! c = None ->
  active_connections (broadcast_loop sid msg now used pending n mgr).2 !! c = None.
Proof.
  revert n mgr. induction pending as [|c' rest IH]; intros n mgr Hc; simpl.
  - by case_decide.
  - case_decide; [|done].
    destruct (send_message c' msg now mgr) as [ok mgr'] eqn:E.
    apply IH. replace mgr' with (send_message c' msg now mgr).2 by by rewrite E.
    by apply send_message_keeps_absent.
Qed.

(** The loop over no pending member ends with the count it was given. *)
Lemma broadcast_loop_done sid msg now used n mgr :
  (broadcast_loop sid msg now used [] n mgr).1.2 = n /\
  (broadcast_loop sid msg now used [] n mgr).2 = mgr.
Proof. simpl. by case_decide. Qed.

Lemma broadcast_loop_step sid msg now used c rest n mgr :
  length (default [] (session_connections mgr !! sid)) = used ->
  broadcast_loop sid msg now used (c :: rest) n mgr
  = broadcast_loop sid msg now used rest
      (if (send_message c msg now mgr).1 then n + 1 else n)
      (send_message c msg now mgr).2.
Proof.
  intros Hlen. simpl. case_decide; [|done].
  by destruct (send_message c msg now mgr).
Qed.

Lemma broadcast_unfold sid msg now mgr members :
  session_connections mgr !! sid = Some members ->
  broadcast_to_session sid msg now mgr
  = ((broadcast_loop sid msg now (length members) members 0 mgr).1.2,
     (broadcast_loop sid msg now (length members) members 0 mgr).2).
Proof.
  intros Hm. unfold broadcast_to_session. rewrite Hm.
  by destruct (broadcast_loop _ _ _ _ _ _ _) as [[? ?] ?].
Qed.

Local Arguments broadcast_loop : simpl never.

(** C6 (as amended).  A session with exactly two connections, one whose
    transport raises on send and one that is healthy; the call returns its
    count (what the loop raises is caught inside).  When the transport
    raises something other than [ConnectionClosed], the healthy connection
    receives the message, the count is 1 and the failing connection stays
    registered.  When it raises [ConnectionClosed], the failing connection is
    no longer registered afterwards, and if the set visits the healthy
    connection first, that one has received the message and the count
    is 1. *)
Theorem broadcast_with_failing_connection
        mgr sid members bad good wsb wsg e msg now :
  session_connections mgr !! sid = Some members ->
  members = [bad; good] \/ members = [good; bad] ->
  bad <> good ->
  active_connections mgr !! bad = Some wsb -> on_send wsb = SendRaises e ->
  active_connections mgr !! good = Some wsg -> on_send wsg = SendOk ->
  let r := broadcast_to_session sid msg now mgr in
  (e <> ConnectionClosed ->
   r.1 = 1 /\
   active_connections r.2 !! good = Some (deliver msg wsg) /\
   active_connections r.2 !! bad = Some wsb) /\
  (e = ConnectionClosed ->
   active_connections r.2 !! bad = None /\
   (members = [good; bad] ->
    r.1 = 1 /\ active_connections r.2 !! good = Some (deliver msg wsg))).
Proof.
  intros Hm Horder Hne Hb Hsb Hg Hsg r. subst r.
  rewrite (broadcast_unfold _ _ _ _ _ Hm). simpl.
  destruct (send_message_ok good wsg msg now mgr Hg Hsg) as (Hok & Hact & Hsess).
  split.
  - (* any other exception: nothing is removed, the set keeps its size *)
    intros He.
    pose proof (send_message_fails bad wsb e msg now mgr Hb Hsb He) as Hfail.
    destruct Horder as [-> | ->].
    + rewrite broadcast_loop_step by by rewrite Hm.
      rewrite Hfail. simpl fst. simpl snd. cbv iota.
      rewrite broadcast_loop_step by by rewrite Hm.
      rewrite Hok.
      destruct (broadcast_loop_done sid msg now 2 (0 + 1)
                  (send_message good msg now mgr).2) as [Hn Hend].
      rewrite Hn, Hend.
      rewrite Hact. split; [done|].
      split; [apply lookup_insert_eq | by rewrite lookup_insert_ne].
    + rewrite broadcast_loop_step by by rewrite Hm.
      rewrite Hok.
      assert (Hb' : active_connections (send_message good msg now mgr).2 !! bad
                    = Some wsb).
      { rewrite Hact. by rewrite lookup_insert_ne. }
      rewrite broadcast_loop_step by by rewrite Hsess, Hm.
      rewrite (send_message_fails bad wsb e msg now _ Hb' Hsb He).
      simpl fst. simpl snd. cbv iota.
      destruct (broadcast_loop_done sid msg now 2 (0 + 1)
                  (send_message good msg now mgr).2) as [Hn Hend].
      rewrite Hn, Hend.
      rewrite Hact. split; [done|].
      split; [apply lookup_insert_eq | by rewrite lookup_insert_ne].
  - (* ConnectionClosed: the failing connection is removed *)
    intros ->. split.
    + destruct Horder as [-> | ->].
      * rewrite broadcast_loop_step by by rewrite Hm.
        apply broadcast_loop_keeps_absent.
        rewrite (send_message_closed bad wsb msg now mgr Hb Hsb). simpl.
        rewrite remove_connection_active. apply lookup_delete_eq.
      * rewrite broadcast_loop_step by by rewrite Hm.
        assert (Hb' : active_connections (send_message good msg now mgr).2 !! bad
                      = Some wsb).
        { rewrite Hact. by rewrite lookup_insert_ne. }
        rewrite broadcast_loop_step by by rewrite Hsess, Hm.
        apply broadcast_loop_keeps_absent.
        rewrite (send_message_closed bad wsb msg now _ Hb' Hsb). simpl.
        rewrite remove_connection_active. apply lookup_delete_eq.
    + intros ->.
      rewrite broadcast_loop_step by by rewrite Hm.
      rewrite Hok.
      assert (Hb' : active_connections (send_message good msg now mgr).2 !! bad
                    = Some wsb).
      { rewrite Hact. by rewrite lookup_insert_ne. }
      rewrite broadcast_loop_step by by rewrite Hsess, Hm.
      rewrite (send_message_closed bad wsb msg now _ Hb' Hsb).
      simpl fst. simpl snd. cbv iota.
      set (mgr2 := (remove_connection bad (send_message good msg now mgr).2).2).
      assert (Hg2 : active_connections mgr2 !! good = Some (deliver msg wsg)).
      { unfold mgr2. rewrite remove_connection_active.
        rewrite lookup_delete_ne by done. rewrite Hact. apply lookup_insert_eq. }
      destruct (broadcast_loop_done sid msg now 2 (0 + 1) mgr2) as [Hn Hend].
      rewrite Hn, Hend. done.
Qed.

(** C10.  Removing a connection id that is not registered returns [None]
    and leaves the manager as it was: every map and every counter. *)
Theorem remove_unregistered_connection (connection_id : string)
        (mgr : ConnectionManager) :
  active_connections mgr !! connection_id = None ->
  remove_connection connection_id mgr = (None, mgr).
Proof. intros H. unfold remove_connection. by rewrite H. Qed.

End ConnMgrFacts.

Lemma broadcast_with_failing_connection_witness :
  ConnMgr.session_connections ConnMgr.closed_last !! "session-1"
  = Some ["conn-b"; "conn-a"] /\
  (ConnMgr.broadcast_to_session "session-1" "hello" 3 ConnMgr.closed_last).1 = 1 /\
  ConnMgr.active_connections
    (ConnMgr.broadcast_to_session "session-1" "hello" 3 ConnMgr.closed_last).2
    !! "conn-b" = Some (ConnMgr.deliver "hello" ConnMgr.healthy_socket) /\
  ConnMgr.active_connections
    (ConnMgr.broadcast_to_session "session-1" "hello" 3 ConnMgr.closed_last).2
    !! "conn-a" = None.
Proof.
  pose proof (broadcast_with_failing_connection ConnMgr.closed_last "session-1"
                ["conn-b"; "conn-a"] "conn-a" "conn-b"
                (ConnMgr.broken_socket ConnMgr.ConnectionClosed)
                ConnMgr.healthy_socket ConnMgr.ConnectionClosed "hello" 3) as H.
  destruct H as [_ H].
  - vm_compute. reflexivity.
  - by right.
  - done.
  - vm_compute. reflexivity.
  - reflexivity.
  - vm_compute. reflexivity.
  - reflexivity.
  - destruct (H eq_refl) as (Hbad & Hgood).
    destruct (Hgood eq_refl) as (Hcount & Hdel).
    split; [vm_compute; reflexivity|]. by repeat split.
Defined.

(** C6 as stated fails.  With the failing connection visited first and
    its transport raising [ConnectionClosed], the connection is removed, the
    set changes size under the loop, and the call returns 0 with nothing
    delivered to the healthy connection.  With a transport that raises
    another exception the count is 1 but the failing connection stays
    registered. *)
Lemma broadcast_isolation_fails :
  (ConnMgr.session_connections ConnMgr.closed_first !! "session-1"
   = Some ["conn-a"; "conn-b"] /\
   (ConnMgr.broadcast_to_session "session-1" "hello" 3 ConnMgr.closed_first).1 = 0 /\
   ConnMgr.delivered <$>
     ConnMgr.active_connections
       (ConnMgr.broadcast_to_session "session-1" "hello" 3 ConnMgr.closed_first).2
       !! "conn-b" = Some []) /\
  ((ConnMgr.broadcast_to_session "session-1" "hello" 3 ConnMgr.failing_first).1 = 1 /\
   ConnMgr.active_connections
     (ConnMgr.broadcast_to_session "session-1" "hello" 3 ConnMgr.failing_first).2
     !! "conn-a" = Some (ConnMgr.broken_socket (ConnMgr.OtherError "timeout"))).
Proof. repeat split; vm_compute; reflexivity. Qed.

Lemma remove_unregistered_connection_witness :
  ConnMgr.active_connections ConnMgr.closed_last !! "conn-z" = None /\
  ConnMgr.remove_connection "conn-z" ConnMgr.closed_last
  = (None, ConnMgr.closed_last).
Proof.
  assert (H : ConnMgr.active_connections ConnMgr.closed_last !! "conn-z" = None)
    by (vm_compute; reflexivity).
  split; [exact H|].
  exact (remove_unregistered_connection "conn-z" ConnMgr.closed_last H).
Defined.

(** ** The queue bridge *)

(** The encoding on the values of the Avro specification's examples: an
    [int] of 16000 is the three bytes 80 fa 01, a [long] of -1 the byte 01. *)
Example avro_int_16000 :
  Kafka.write_int 16000 = Some [Byte.x80; Byte.xfa; Byte.x01].
Proof. reflexivity. Qed.

Example avro_long_minus_one :
  Kafka.write_long (-1) = Some [Byte.x01] /\
  Kafka.read_long [Byte.x01] = Some (-1, []).
Proof. split; reflexivity. Qed.

Example avro_int_out_of_range : Kafka.write_int (2 ^ 31) = None.
Proof. reflexivity. Qed.

Example avro_chunk_roundtrip :
  Kafka.binary_write_chunk Kafka.sample_chunk ≫= Kafka.binary_read_chunk
  = Some Kafka.sample_chunk.
Proof. vm_compute. reflexivity. Qed.

Section KafkaFacts.
Import Kafka.
Variable avro_write_chunk : AudioChunk -> option bytes.
Variable avro_read_chunk : bytes -> option AudioChunk.
Variable avro_write_result : TranscriptionResult -> option bytes.

Abbreviation serialize := (_serialize_audio_chunk avro_write_chunk).
Abbreviation process :=
  (_process_audio_chunk avro_write_chunk avro_write_result).
Abbreviation send :=
  (send_audio_chunk avro_write_chunk avro_write_result).
Abbreviation consume :=
  (consume_message avro_write_chunk avro_read_chunk avro_write_result).

Lemma send_result_processed result svc :
  processed (_send_transcription_result avro_write_chunk avro_write_result
               result svc) = processed svc.
Proof.
  unfold _send_transcription_result.
  destruct (producer svc) as [prod|]; [|done].
  by destruct (producer_send _ _ _ _ _).
Qed.

(** Each call of the processing step adds its argument, once, to the list
    of processed chunks. *)
Lemma process_audio_chunk_processed env chunk svc :
  processed (process env chunk svc) = processed svc ++ [chunk].
Proof.
  unfold _process_audio_chunk.
  destruct (reply env) as [result|message].
  - match goal with
    | |- context [active_sessions ?s !! _] => destruct (active_sessions s !! _)
    end; simpl; by rewrite send_result_processed.
  - by rewrite send_result_processed.
Qed.

(** The fallback where the code takes it.  On a service that holds no
    producer, [send_audio_chunk] runs the processing
    step exactly once, in the call, on the chunk built from its arguments,
    and returns [True].  With a producer started and the broker accepting,
    the same call hands the same chunk to the producer, under the session's
    key on the audio topic, and processes nothing itself; when the Avro
    codec reads back what it wrote for that chunk, the consumer loop runs
    the processing step exactly once on that same chunk. *)
Theorem fallback_processes_the_broker_payload
        env session user audio rate chans fmt lang index final
        (svc svc_b : KafkaStreamService) (prod : Producer) :
  producer svc = None ->
  producer svc_b = Some prod -> broker_up prod = true ->
  let chunk := {| session_id := session; user_id := user;
                  chunk_id := new_uuid env; audio_data := audio;
                  sample_rate := rate; channels := chans; format := fmt;
                  timestamp := now_ms env; language := lang;
                  chunk_index := index; is_final := final |} in
  let fallback := send env session user audio rate chans fmt lang index final svc in
  let brokered := send env session user audio rate chans fmt lang index final svc_b in
  fallback.1 = true /\
  processed fallback.2 = processed svc ++ [chunk] /\
  brokered.1 = true /\
  processed brokered.2 = processed svc_b /\
  producer brokered.2
  = Some {| broker_up := true;
            log := log prod ++ [(audio_topic svc_b, session,
                                 serialize (AudioValue chunk))] |} /\
  (forall env' svc_c,
     avro_read_chunk (serialize (AudioValue chunk)) = Some chunk ->
     processed (consume env' (serialize (AudioValue chunk)) svc_c)
     = processed svc_c ++ [chunk]).
Proof.
  intros Hnone Hsome Hup chunk fallback brokered.
  subst fallback brokered. unfold send_audio_chunk.
  rewrite Hnone, Hsome. unfold producer_send. rewrite Hup. simpl.
  split; [done|]. split; [apply process_audio_chunk_processed|].
  split; [done|]. split; [done|]. split; [done|].
  intros env' svc_c Hround. unfold consume_message, _deserialize_audio_chunk.
  rewrite Hround. apply process_audio_chunk_processed.
Qed.

End KafkaFacts.

Lemma fallback_processes_the_broker_payload_witness :
  (Kafka.send_audio_chunk Kafka.binary_write_chunk Kafka.no_result_writer
     Kafka.sample_env "session-1" "user-7" Kafka.sample_audio 16000 1 "wav"
     "en" 300 true Kafka.init).1 = true /\
  Kafka.processed
    (Kafka.send_audio_chunk Kafka.binary_write_chunk Kafka.no_result_writer
       Kafka.sample_env "session-1" "user-7" Kafka.sample_audio 16000 1 "wav"
       "en" 300 true Kafka.init).2 = [Kafka.sample_chunk] /\
  Kafka.processed
    (Kafka.consume_message Kafka.binary_write_chunk Kafka.binary_read_chunk
       Kafka.no_result_writer Kafka.sample_env
       (Kafka._serialize_audio_chunk Kafka.binary_write_chunk
          (Kafka.AudioValue Kafka.sample_chunk))
       Kafka.init) = [Kafka.sample_chunk].
Proof.
  pose proof (fallback_processes_the_broker_payload
                Kafka.binary_write_chunk Kafka.binary_read_chunk
                Kafka.no_result_writer Kafka.sample_env
                "session-1" "user-7" Kafka.sample_audio 16000 1 "wav" "en"
                300 true Kafka.init Kafka.started
                {| Kafka.broker_up := true; Kafka.log := [] |}) as H.
  destruct H as (Hret & Hproc & _ & _ & _ & Hconsume).
  - reflexivity.
  - reflexivity.
  - reflexivity.
  - split; [exact Hret|]. split; [exact Hproc|].
    apply (Hconsume Kafka.sample_env Kafka.init).
    vm_compute. reflexivity.
Defined.

(** *** Starting the service *)

Section KafkaStart.
Import Kafka.
Variable avro_write_chunk : AudioChunk -> option bytes.
Variable avro_write_result : TranscriptionResult -> option bytes.

Abbreviation send := (Kafka.send avro_write_chunk avro_write_result).

(** C4, at the failing input.  [start()] is called with the Kafka library
    present and the broker out of reach: it returns [False] and leaves the
    producer it could not start in [self.producer].  Every
    [send_audio_chunk] after that returns [False] and processes nothing:
    the chunk reaches neither the processing step nor the monitor, and the
    service is as it was.  On a service whose [start()] found no Kafka
    library, which returns [False] as well, the same call takes the
    fallback: it returns [True] after running the processing step once on
    the chunk built from its arguments. *)
Theorem failed_start_blocks_the_fallback
        (env : Env) (a : SendArgs) (consumer_starts : bool)
        (svc : KafkaStreamService) :
  let unreachable := start true false consumer_starts svc in
  let published := send env a unreachable.2 in
  let no_library := start false false consumer_starts init in
  let direct := send env a no_library.2 in
  unreachable.1 = false /\
  is_Some (producer unreachable.2) /\
  published.1 = false /\
  published.2 = unreachable.2 /\
  processed published.2 = processed svc /\
  monitor published.2 = monitor svc /\
  no_library.1 = false /\
  direct.1 = true /\
  processed direct.2 = [chunk_of env a].
Proof.
  cbv zeta. unfold start, Kafka.send, send_audio_chunk. simpl.
  repeat split; try done.
  apply (process_audio_chunk_processed avro_write_chunk avro_write_result
           env (chunk_of env a) init).
Qed.

End KafkaStart.

Example failed_start_sample :
  let svc := (Kafka.start true false false Kafka.init).2 in
  Kafka.send Kafka.binary_write_chunk Kafka.no_result_writer
    Kafka.sample_env Kafka.sample_args svc = (false, svc) /\
  Kafka.processed svc = [] /\
  Kafka.producer svc = Some {| Kafka.broker_up := false; Kafka.log := [] |}.
Proof. repeat split. Qed.

(** ** The streaming service *)

Section RealtimeFacts.
Import Realtime.

Lemma consistent_init : consistent init.
Proof.
  split; unfold session_of; simpl.
  - by rewrite fmap_empty, dom_empty_L.
  - intros c sid. by rewrite fmap_empty, lookup_empty.
  - intros sid members c. by rewrite lookup_empty.
  - intros sid. by rewrite lookup_empty.
  - by rewrite !dom_empty_L.
  - by rewrite !dom_empty_L.
  - by rewrite !dom_empty_L.
Qed.

Lemma consistent_shape s s' : shape s' = shape s -> consistent s -> consistent s'.
Proof.
  unfold shape. intros Heq [H1 H2 H3 H4 H5 H6 H7].
  injection Heq as Ha Hs Hm Hb Hq Ht.
  split; rewrite ?Ha, ?Hs, ?Hm, ?Hb, ?Hq, ?Ht; done.
Qed.

Lemma dom_update {A} (m : gmap string A) k v v' :
  m !! k = Some v -> dom (<[k := v']> m) = dom m.
Proof. intros H. apply dom_insert_lookup_L. by exists v. Qed.

Lemma session_of_update (infos : gmap string ConnInfo) c info info' :
  infos !! c = Some info -> session_id info' = session_id info ->
  session_id <$> <[c := info']> infos = session_id <$> infos.
Proof.
  intros Hc Hs. rewrite fmap_insert, Hs. apply insert_id.
  by rewrite lookup_fmap, Hc.
Qed.

Lemma shape_send_message c data s : shape (_send_message c data s) = shape s.
Proof.
  unfold _send_message. destruct (sockets s !! c) as [ws|]; [|done].
  by destruct (sends ws).
Qed.

Lemma shape_handle_audio_data data sid c now s :
  shape (_handle_audio_data data sid c now s) = shape s.
Proof.
  unfold _handle_audio_data.
  set (s1 := match audio_buffers s !! sid with Some _ => _ | None => s end).
  assert (H1 : shape s1 = shape s).
  { unfold s1. destruct (audio_buffers s !! sid) as [buffer|] eqn:E; [|done].
    unfold shape. simpl. by rewrite (dom_update _ _ _ _ E). }
  set (s2 := match connection_sessions s1 !! c with Some _ => _ | None => s1 end).
  assert (H2 : shape s2 = shape s).
  { rewrite <- H1. unfold s2.
    destruct (connection_sessions s1 !! c) as [info|] eqn:E; [|done].
    unfold shape, session_of. simpl.
    by rewrite (session_of_update _ _ _ _ E). }
  case_bool_decide; [rewrite shape_send_message|]; exact H2.
Qed.

Lemma shape_send_transcription_result sid result ptime now s :
  shape (_send_transcription_result sid result ptime now s) = shape s.
Proof.
  unfold _send_transcription_result.
  set (s1 := match text_queue s !! sid with Some _ => _ | None => s end).
  assert (H1 : shape s1 = shape s).
  { unfold s1. destruct (text_queue s !! sid) as [queue|] eqn:E; [|done].
    unfold shape. simpl. by rewrite (dom_update _ _ _ _ E). }
  by destruct (kafka_producer_started s1).
Qed.

Lemma shape_cycle_begin sid c s : shape (cycle_begin sid c s) = shape s.
Proof.
  unfold cycle_begin.
  destruct (processing_tasks s !! c) as [[|? ?| | |]|]; try done.
  case_bool_decide; [|done].
  destruct (audio_buffers s !! sid) as [[|chunk chunks]|] eqn:E; try done.
  unfold shape. simpl. by rewrite (dom_update _ _ _ _ E).
Qed.

Lemma shape_cycle_end c reply elapsed now utc s :
  shape (cycle_end c reply elapsed now utc s) = shape s.
Proof.
  unfold cycle_end.
  destruct (processing_tasks s !! c) as [[|sid audio| | |]|]; try done.
  destruct reply as [result|message]; [|done].
  cbv zeta.
  match goal with
  | |- shape (set_processing_tasks _
                (match connection_sessions ?s5 !! _ with _ => _ end)) = _ =>
      assert (H5 : shape s5 = shape s);
      [|destruct (connection_sessions s5 !! c) as [info|] eqn:Ei]
  end.
  - destruct (negb _ && negb _); [rewrite shape_send_transcription_result|]; done.
  - rewrite <- H5. unfold shape, session_of. simpl.
    by rewrite (session_of_update _ _ _ _ Ei).
  - by rewrite <- H5.
Qed.

Lemma shape_stream_text sid c s : shape (stream_text sid c s) = shape s.
Proof.
  unfold stream_text.
  destruct (text_queue s !! sid) as [[|item rest]|] eqn:E; [| |done].
  - apply shape_send_message.
  - rewrite shape_send_message. unfold shape. simpl.
    by rewrite (dom_update _ _ _ _ E).
Qed.

Lemma serving_session_of s c sid : serving s c sid <-> session_of s !! c = Some sid.
Proof. unfold serving, session_of. by rewrite lookup_fmap. Qed.

Lemma consistent_handle_text_message data c sid s :
  serving s c sid -> consistent s -> consistent (_handle_text_message data c sid s).
Proof.
  intros Hserving Hs. destruct data; simpl.
  - eapply consistent_shape; [apply shape_send_message | done].
  - eapply consistent_shape; [apply shape_send_message | done].
  - (* subscribe_text: the set is created for a session that has members *)
    eapply consistent_shape; [apply shape_send_message|].
    destruct Hs as [H1 H2 H3 H4 H5 H6 H7].
    split; simpl; try done.
    rewrite dom_insert_L.
    apply serving_session_of, H2 in Hserving as (members & Hm & _).
    apply elem_of_dom_2 in Hm. set_solver.
  - eapply consistent_shape; [apply shape_send_message|].
    destruct (text_subscribers s !! sid) as [subscribers|] eqn:E; [|done].
    eapply consistent_shape; [|exact Hs].
    unfold shape. simpl. by rewrite (dom_update _ _ _ _ E).
  - eapply consistent_shape; [apply shape_send_message | done].
Qed.

Lemma consistent_cleanup c sid s :
  serving s c sid \/ c ∉ active_connections s ->
  consistent s -> consistent (_cleanup_connection c sid s).
Proof.
  intros Hcase [H1 H2 H3 H4 H5 H6 H7].
  destruct Hcase as [Hserving|Hfresh].
  - (* the connection is registered under this session *)
    apply serving_session_of in Hserving.
    destruct (H2 c sid Hserving) as (members & Hm & Hin).
    unfold _cleanup_connection. rewrite Hm.
    destruct (decide (members ∖ {[c]} = ∅)) as [Hlast|Hmore].
    + (* it was the last one: the session and its resources go *)
      rewrite bool_decide_eq_true_2 by apply lookup_delete_eq.
      split; unfold session_of; simpl.
      * rewrite fmap_delete, dom_delete_L. fold (session_of s). by rewrite H1.
      * intros c' sid'. rewrite fmap_delete. fold (session_of s).
        intros Hc'. apply lookup_delete_Some in Hc' as [Hne Hc'].
        destruct (H2 c' sid' Hc') as (members' & Hm' & Hin').
        exists members'. split; [|done].
        rewrite lookup_delete_ne; [done|]. intros <-.
        assert (members' = members) by congruence. set_solver.
      * intros sid' members' c'. rewrite fmap_delete. fold (session_of s).
        intros Hm' Hin'. apply lookup_delete_Some in Hm' as [Hne Hm'].
        rewrite lookup_delete_ne; [by eapply H3|].
        intros <-. specialize (H3 sid' members' c Hm' Hin'). congruence.
      * intros sid'. destruct (decide (sid = sid')) as [<-|Hne].
        -- by rewrite lookup_delete_eq.
        -- rewrite lookup_delete_ne by done. apply H4.
      * rewrite !dom_delete_L. by rewrite H5.
      * rewrite !dom_delete_L. by rewrite H6.
      * rewrite !dom_delete_L. set_solver.
    + (* other connections remain *)
      rewrite bool_decide_eq_false_2 by by rewrite lookup_insert_eq.
      split; unfold session_of; simpl.
      * rewrite fmap_delete, dom_delete_L. fold (session_of s). by rewrite H1.
      * intros c' sid'. rewrite fmap_delete. fold (session_of s).
        intros Hc'. apply lookup_delete_Some in Hc' as [Hne Hc'].
        destruct (H2 c' sid' Hc') as (members' & Hm' & Hin').
        destruct (decide (sid = sid')) as [<-|Hsid].
        -- exists (members ∖ {[c]}). rewrite lookup_insert_eq. split; [done|].
           assert (members' = members) by congruence. set_solver.
        -- exists members'. by rewrite lookup_insert_ne.
      * intros sid' members' c'. rewrite fmap_delete. fold (session_of s).
        intros Hm' Hin'.
        destruct (decide (sid = sid')) as [<-|Hsid].
        -- rewrite lookup_insert_eq in Hm'. injection Hm' as <-.
           rewrite lookup_delete_ne by set_solver.
           apply (H3 sid members); [done | set_solver].
        -- rewrite lookup_insert_ne in Hm' by done.
           rewrite lookup_delete_ne; [by eapply H3|].
           intros <-. specialize (H3 sid' members' c Hm' Hin'). congruence.
      * intros sid'. destruct (decide (sid = sid')) as [<-|Hne].
        -- rewrite lookup_insert_eq. congruence.
        -- rewrite lookup_insert_ne by done. apply H4.
      * rewrite (dom_update _ _ _ _ Hm). done.
      * rewrite (dom_update _ _ _ _ Hm). done.
      * rewrite (dom_update _ _ _ _ Hm). done.
  - (* nothing was registered: nothing changes *)
    assert (Hnone : session_of s !! c = None).
    { apply not_elem_of_dom. by rewrite H1. }
    assert (Hinfo : connection_sessions s !! c = None).
    { unfold session_of in Hnone. rewrite lookup_fmap in Hnone.
      by destruct (connection_sessions s !! c). }
    assert (Hsessions :
      match session_connections s !! sid with
      | Some members =>
          if decide (members ∖ {[c]} = ∅) then delete sid (session_connections s)
          else <[sid := members ∖ {[c]}]> (session_connections s)
      | None => session_connections s
      end = session_connections s).
    { destruct (session_connections s !! sid) as [members|] eqn:Hm; [|done].
      assert (Hc : c ∉ members).
      { intros Hin. specialize (H3 sid members c Hm Hin). congruence. }
      assert (Hsame : members ∖ {[c]} = members) by set_solver.
      rewrite Hsame. case_decide as Hempty.
      - subst members. by destruct (H4 sid).
      - by apply insert_id. }
    unfold _cleanup_connection. rewrite Hsessions.
    eapply consistent_shape; [|by split].
    unfold shape, session_of. simpl.
    rewrite (delete_id _ _ Hinfo).
    assert (Ha : active_connections s ∖ {[c]} = active_connections s) by set_solver.
    rewrite Ha.
    case_bool_decide as Hgone; [|done].
    assert (Hb : audio_buffers s !! sid = None).
    { apply not_elem_of_dom. rewrite H5. by apply not_elem_of_dom. }
    assert (Hq : text_queue s !! sid = None).
    { apply not_elem_of_dom. rewrite H6. by apply not_elem_of_dom. }
    assert (Ht : text_subscribers s !! sid = None).
    { apply not_elem_of_dom. intros Hin. apply H7 in Hin.
      by apply not_elem_of_dom in Hgone. }
    by rewrite (delete_id _ _ Hb), (delete_id _ _ Hq), (delete_id _ _ Ht).
Qed.

Lemma consistent_disconnect c sid s :
  serving s c sid \/ c ∉ active_connections s ->
  consistent s -> consistent (disconnect c sid s).
Proof.
  intros Hcase Hs. unfold disconnect.
  pose proof (consistent_cleanup c sid s Hcase Hs) as Hs'.
  destruct (processing_tasks _ !! c) as [[|? ?| | |]|]; try done;
    (eapply consistent_shape; [|exact Hs']; done).
Qed.

Lemma consistent_connect c sid user now ws s :
  c ∉ active_connections s -> consistent s -> consistent (connect c sid user now ws s).
Proof.
  intros Hfresh Hs. unfold connect.
  destruct (accepts ws); [|apply consistent_disconnect; auto].
  eapply consistent_shape; [apply shape_send_message|].
  destruct Hs as [H1 H2 H3 H4 H5 H6 H7].
  assert (Hnone : session_of s !! c = None).
  { apply not_elem_of_dom. by rewrite H1. }
  split; unfold session_of; simpl.
  - rewrite fmap_insert, dom_insert_L. fold (session_of s). rewrite H1. set_solver.
  - intros c' sid'. rewrite fmap_insert. fold (session_of s). simpl.
    destruct (decide (c = c')) as [<-|Hne].
    + rewrite lookup_insert_eq. intros [= <-].
      eexists. rewrite lookup_insert_eq. split; [done|]. set_solver.
    + rewrite lookup_insert_ne by done. intros Hc'.
      destruct (H2 c' sid' Hc') as (members & Hm & Hin).
      destruct (decide (sid = sid')) as [<-|Hsid].
      * eexists. rewrite lookup_insert_eq. split; [done|].
        rewrite Hm. simpl. set_solver.
      * exists members. by rewrite lookup_insert_ne.
  - intros sid' members c'. rewrite fmap_insert. fold (session_of s). simpl.
    destruct (decide (sid = sid')) as [<-|Hsid].
    + rewrite lookup_insert_eq. intros [= <-] Hin.
      apply elem_of_union in Hin as [Hin|Hin].
      * destruct (session_connections s !! sid) as [members|] eqn:Hm;
          simpl in Hin; [|set_solver].
        pose proof (H3 sid members c' Hm Hin) as Hc'.
        rewrite lookup_insert_ne; [done|]. intros <-. congruence.
      * apply elem_of_singleton in Hin as ->. by rewrite lookup_insert_eq.
    + rewrite lookup_insert_ne by done. intros Hm Hin.
      pose proof (H3 sid' members c' Hm Hin) as Hc'.
      rewrite lookup_insert_ne; [done|]. intros <-. congruence.
  - intros sid'. destruct (decide (sid = sid')) as [<-|Hsid].
    + rewrite lookup_insert_eq. intros [= Hempty]. set_solver.
    + rewrite lookup_insert_ne by done. apply H4.
  - rewrite !dom_insert_L. by rewrite H5.
  - rewrite !dom_insert_L. by rewrite H6.
  - rewrite dom_insert_L. set_solver.
Qed.

(** Every state the service reaches is consistent. *)
Lemma reachable_consistent s : reachable s -> consistent s.
Proof.
  induction 1 as [|s now ev Hreach IH Hallowed]; [apply consistent_init|].
  destruct ev; simpl in *.
  - by apply consistent_connect.
  - eapply consistent_shape; [apply shape_handle_audio_data | done].
  - by apply consistent_handle_text_message.
  - eapply consistent_shape; [apply shape_cycle_begin | done].
  - eapply consistent_shape; [apply shape_cycle_end | done].
  - eapply consistent_shape; [apply shape_stream_text | done].
  - apply consistent_disconnect; auto.
Qed.

Lemma has_connection_iff_session s sid :
  consistent s -> has_connection s sid <-> is_Some (session_connections s !! sid).
Proof.
  intros [H1 H2 H3 H4 H5 H6 H7]. split.
  - intros (c & _ & Hserving). apply serving_session_of in Hserving.
    destruct (H2 c sid Hserving) as (members & Hm & _). by exists members.
  - intros [members Hm].
    destruct (set_choose_or_empty members) as [[c Hc]|Hempty].
    + exists c. pose proof (H3 sid members c Hm Hc) as Hs. split.
      * rewrite <- H1. by apply elem_of_dom_2 in Hs.
      * by apply serving_session_of.
    + apply leibniz_equiv in Hempty. subst members. by destruct (H4 sid).
Qed.

(** *** The subscriber sets *)

Lemma send_message_subscribers c data s :
  text_subscribers (_send_message c data s) = text_subscribers s.
Proof.
  unfold _send_message.
  destruct (sockets s !! c) as [ws|]; [destruct (sends ws)|]; done.
Qed.

Lemma cleanup_subscribers_none c sid' s sid :
  text_subscribers s !! sid = None ->
  text_subscribers (disconnect c sid' s) !! sid = None.
Proof.
  intros Hnone.
  assert (H : text_subscribers (_cleanup_connection c sid' s) !! sid = None).
  { unfold _cleanup_connection. simpl. case_bool_decide; [|done].
    destruct (decide (sid' = sid)) as [->|Hne].
    - apply lookup_delete_eq.
    - by rewrite lookup_delete_ne. }
  unfold disconnect.
  by destruct (processing_tasks _ !! c) as [[|? ?| | |]|].
Qed.

(** A session without a subscriber set gets one from a [subscribe_text]
    message for it, and from nothing else. *)
Lemma only_subscribe_allocates now ev s sid :
  text_subscribers s !! sid = None ->
  is_Some (text_subscribers (apply_event now ev s) !! sid) ->
  exists c, ev = Text c sid SubscribeText.
Proof.
  intros Hnone Hsome.
  assert (Hno : text_subscribers (apply_event now ev s) !! sid = None ->
                exists c, ev = Text c sid SubscribeText).
  { intros H. rewrite H in Hsome. by destruct Hsome. }
  destruct ev as [c sid' user ws | c sid' data | c sid' data | c sid'
                 | c reply elapsed utc | c sid' | c sid']; simpl in *.
  - apply Hno. unfold connect. destruct (accepts ws).
    + by rewrite send_message_subscribers.
    + by apply cleanup_subscribers_none.
  - apply Hno. unfold _handle_audio_data.
    destruct (audio_buffers s !! sid'); simpl;
      match goal with
      | |- context [connection_sessions ?x !! c] =>
          destruct (connection_sessions x !! c)
      end; simpl; case_bool_decide; rewrite ?send_message_subscribers; done.
  - destruct data; simpl in *.
    + apply Hno. by rewrite send_message_subscribers.
    + apply Hno. by rewrite send_message_subscribers.
    + destruct (decide (sid' = sid)) as [->|Hne]; [by exists c|].
      apply Hno. rewrite send_message_subscribers. simpl.
      by rewrite lookup_insert_ne.
    + apply Hno. rewrite send_message_subscribers.
      destruct (text_subscribers s !! sid') eqn:Hs; [|done]. simpl.
      rewrite lookup_insert_ne; [done|]. intros ->. congruence.
    + apply Hno. unfold _send_error. by rewrite send_message_subscribers.
  - apply Hno. unfold cycle_begin.
    destruct (processing_tasks s !! c) as [[|? ?| | |]|]; try done.
    case_bool_decide; [|done].
    by destruct (default [] (audio_buffers s !! sid')).
  - apply Hno. unfold cycle_end.
    destruct (processing_tasks s !! c) as [[|sid0 ?| | |]|]; try done.
    destruct reply as [result|message]; [|done]. cbv zeta.
    match goal with
    | |- context [connection_sessions ?x !! c] =>
        set (s5 := x);
        assert (H5 : text_subscribers s5 = text_subscribers s)
    end.
    { subst s5. destruct (_ && _); [|done].
      unfold _send_transcription_result. simpl.
      destruct (text_queue s !! sid0); simpl;
        by destruct (kafka_producer_started s). }
    destruct (connection_sessions s5 !! c); simpl; by rewrite H5.
  - apply Hno. unfold stream_text.
    destruct (text_queue s !! sid') as [[|? ?]|];
      rewrite ?send_message_subscribers; done.
  - apply Hno. by apply cleanup_subscribers_none.
Qed.

Lemma subscribe_text_allocates c sid s :
  text_subscribers (_handle_text_message SubscribeText c sid s) !! sid
  = Some (default ∅ (text_subscribers s !! sid) ∪ {[c]}).
Proof.
  simpl. rewrite send_message_subscribers. simpl. apply lookup_insert_eq.
Qed.

(** C7 (as amended).  In every state the service reaches, a session has an
    audio buffer exactly when it has an active connection, and likewise a
    text queue; a text subscriber set exists only for a session with an
    active connection.  Registering a connection leaves its session with an
    empty buffer and an empty text queue, and the cleanup of a session's
    last connection deletes the buffer, the text queue and the subscriber
    set together.  The subscriber set is allocated by the session's first
    [subscribe_text] message: such a message from a connection of the
    session leaves the session with a subscriber set that holds the
    connection beside the subscribers there were, and for a session that
    has no subscriber set no other step of the service creates one, the
    set being the sender alone after the first [subscribe_text]. *)
Theorem session_resources_follow_connections s sid :
  reachable s ->
  (is_Some (audio_buffers s !! sid) <-> has_connection s sid) /\
  (is_Some (text_queue s !! sid) <-> has_connection s sid) /\
  (is_Some (text_subscribers s !! sid) -> has_connection s sid) /\
  (forall c user now ws,
     c ∉ active_connections s -> accepts ws = true ->
     let s' := apply_event now (Connect c sid user ws) s in
     has_connection s' sid /\
     audio_buffers s' !! sid = Some [] /\ text_queue s' !! sid = Some []) /\
  (forall c now,
     serving s c sid -> (forall c', serving s c' sid -> c' = c) ->
     let s' := apply_event now (Disconnect c sid) s in
     ~ has_connection s' sid /\
     audio_buffers s' !! sid = None /\ text_queue s' !! sid = None /\
     text_subscribers s' !! sid = None) /\
  (forall c now,
     serving s c sid ->
     let s' := apply_event now (Text c sid SubscribeText) s in
     has_connection s' sid /\
     text_subscribers s' !! sid
     = Some (default ∅ (text_subscribers s !! sid) ∪ {[c]})) /\
  (forall now ev,
     allowed s ev -> text_subscribers s !! sid = None ->
     let s' := apply_event now ev s in
     is_Some (text_subscribers s' !! sid) ->
     exists c, ev = Text c sid SubscribeText /\
               text_subscribers s' !! sid = Some {[c]}).
Proof.
  intros Hreach. pose proof (reachable_consistent s Hreach) as Hs.
  pose proof (has_connection_iff_session s sid Hs) as Hiff.
  destruct Hs as [H1 H2 H3 H4 H5 H6 H7].
  split; [|split; [|split; [|split; [|split; [|split]]]]].
  6: { intros c now Hserving s'.
       assert (Hreach' : reachable s') by by apply reachable_step.
       split; [|apply subscribe_text_allocates].
       pose proof (reachable_consistent s' Hreach') as Hs'.
       destruct Hs' as [_ _ _ _ _ _ H7'].
       apply (has_connection_iff_session s' sid (reachable_consistent s' Hreach')).
       apply elem_of_dom, H7', elem_of_dom.
       subst s'. simpl. rewrite send_message_subscribers. simpl.
       by rewrite lookup_insert_eq. }
  6: { intros now ev Hallowed Hnone s' Hsome.
       destruct (only_subscribe_allocates now ev s sid Hnone Hsome) as [c ->].
       exists c. split; [done|].
       subst s'. cbn [apply_event]. rewrite subscribe_text_allocates, Hnone.
       simpl. f_equal. set_solver. }
  - rewrite Hiff, <- !elem_of_dom. by rewrite H5.
  - rewrite Hiff, <- !elem_of_dom. by rewrite H6.
  - rewrite Hiff, <- !elem_of_dom. apply H7.
  - intros c user now ws Hfresh Hacc s'.
    assert (Hreach' : reachable s') by by apply reachable_step.
    split.
    + apply (has_connection_iff_session s' sid (reachable_consistent s' Hreach')).
      subst s'. simpl. unfold connect. rewrite Hacc.
      unfold _send_message. simpl.
      destruct (_ !! c) as [w|]; [destruct (sends w)|]; simpl;
        by rewrite lookup_insert_eq.
    + subst s'. simpl. unfold connect. rewrite Hacc.
      unfold _send_message. simpl.
      destruct (_ !! c) as [w|]; [destruct (sends w)|]; simpl;
        by rewrite !lookup_insert_eq.
  - intros c now Hserving Honly s'.
    assert (Hreach' : reachable s') by by apply reachable_step.
    assert (Hgone : session_connections s' !! sid = None
                    /\ audio_buffers s' !! sid = None
                    /\ text_queue s' !! sid = None
                    /\ text_subscribers s' !! sid = None).
    { pose proof Hserving as Hc. apply serving_session_of in Hc.
      destruct (H2 c sid Hc) as (members & Hm & Hin).
      assert (Hlast : members ∖ {[c]} = ∅).
      { apply set_eq. intros c'. split; [|set_solver].
        intros Hc'. apply elem_of_difference in Hc' as [Hc' Hne].
        pose proof (H3 sid members c' Hm Hc') as Hs'.
        apply serving_session_of, Honly in Hs'. set_solver. }
      subst s'. simpl. unfold disconnect.
      assert (Hclean : session_connections (_cleanup_connection c sid s) !! sid = None
                       /\ audio_buffers (_cleanup_connection c sid s) !! sid = None
                       /\ text_queue (_cleanup_connection c sid s) !! sid = None
                       /\ text_subscribers (_cleanup_connection c sid s) !! sid = None).
      { unfold _cleanup_connection. rewrite Hm. simpl.
        rewrite decide_True by done.
        rewrite bool_decide_eq_true_2 by apply lookup_delete_eq.
        by rewrite !lookup_delete_eq. }
      by destruct (processing_tasks _ !! c) as [[|? ?| | |]|]. }
    destruct Hgone as (Hm' & Hb' & Hq' & Ht').
    split; [|done].
    rewrite (has_connection_iff_session s' sid (reachable_consistent s' Hreach')).
    rewrite Hm'. by intros [? ?].
Qed.

(** *** The processing loop *)

Lemma assoc_get_upd {V} k (f : option V -> V) d :
  Py.assoc_get k (Py.assoc_upd k f d) = Some (f (Py.assoc_get k d)).
Proof.
  induction d as [|[k' v] d IH]; simpl.
  - by rewrite decide_True.
  - destruct (decide (k = k')) as [->|Hne]; simpl.
    + by rewrite decide_True.
    + by rewrite decide_False.
Qed.

Lemma deque_append_last {A} (n : nat) (x : A) (d : list A) :
  (0 < n)%nat -> last (Py.deque_append n x d) = Some x.
Proof.
  intros Hn. unfold Py.deque_append. case_decide.
  - apply last_snoc.
  - rewrite drop_app_le by lia. apply last_snoc.
Qed.

(** The sample a call of [record_model_performance] leaves at the end of
    the model's history. *)
Lemma record_model_performance_last utc name acc conf ptime failed svc :
  exists sample,
    last (default [] (Py.assoc_get name
            (Monitor.performance_history
               (Monitor.record_model_performance utc name acc conf ptime failed svc))))
    = Some sample /\
    Monitor.model_name sample = name /\
    Monitor.confidence sample = conf /\
    Monitor.processing_time sample = ptime /\
    Monitor.error_rate sample = if failed then 1.0%float else 0.0%float.
Proof.
  unfold Monitor.record_model_performance. simpl.
  rewrite assoc_get_upd. simpl.
  eexists. split; [apply deque_append_last; lia|]. done.
Qed.

Lemma send_transcription_result_keeps sid result ptime now s :
  let s' := _send_transcription_result sid result ptime now s in
  monitor s' = monitor s /\ processing_tasks s' = processing_tasks s /\
  engine_calls s' = engine_calls s /\ active_connections s' = active_connections s /\
  connection_sessions s' = connection_sessions s /\
  audio_buffers s' = audio_buffers s.
Proof.
  unfold _send_transcription_result.
  destruct (text_queue s !! sid); simpl;
    by destruct (kafka_producer_started s).
Qed.

(** A pass that finds chunks buffered drains them, calls the engine on
    their concatenation and waits for it. *)
Lemma cycle_begin_calls_engine s sid c chunk chunks :
  processing_tasks s !! c = Some Running ->
  c ∈ active_connections s ->
  audio_buffers s !! sid = Some (chunk :: chunks) ->
  let s1 := cycle_begin sid c s in
  engine_calls s1
  = engine_calls s ++ [(Py.bytes_join (chunk :: chunks), default_language)] /\
  processing_tasks s1 !! c = Some (Awaiting sid (Py.bytes_join (chunk :: chunks))) /\
  audio_buffers s1 !! sid = Some [] /\
  monitor s1 = monitor s /\ active_connections s1 = active_connections s.
Proof.
  intros Htask Hactive Hbuf. simpl. unfold cycle_begin.
  rewrite Htask, bool_decide_eq_true_2 by done. rewrite Hbuf. simpl.
  by rewrite !lookup_insert_eq.
Qed.

(** When the engine returns a result carrying an error, the pass records
    a sample with the error flag set (error rate 1.0) for the streaming
    model, and the task keeps running, its connection still registered. *)
Lemma returned_error_is_recorded
      s sid c result elapsed now utc chunk chunks :
  processing_tasks s !! c = Some Running ->
  c ∈ active_connections s ->
  audio_buffers s !! sid = Some (chunk :: chunks) ->
  is_Some (Engine.error result) ->
  let s' := process_cycle sid c (Engine.Returns result) elapsed now utc s in
  let conf := default 0.0%float (Engine.confidence result) in
  engine_calls s'
  = engine_calls s ++ [(Py.bytes_join (chunk :: chunks), default_language)] /\
  monitor s'
  = Monitor.record_model_performance utc "whisper_realtime" conf conf
      elapsed true (monitor s) /\
  (exists sample,
     last (Monitor.history_of (monitor s')) = Some sample /\
     Monitor.error_rate sample = 1.0%float /\
     Monitor.processing_time sample = elapsed) /\
  processing_tasks s' !! c = Some Running /\
  c ∈ active_connections s'.
Proof.
  intros Htask Hactive Hbuf Herr. cbv zeta.
  destruct (cycle_begin_calls_engine s sid c chunk chunks Htask Hactive Hbuf)
    as (Hcalls & Hwait & _ & Hmon & Hact).
  unfold process_cycle. set (s1 := cycle_begin sid c s) in *.
  unfold cycle_end. rewrite Hwait. cbv zeta.
  rewrite (bool_decide_eq_true_2 _ Herr). simpl negb.
  rewrite andb_false_l. cbv iota.
  match goal with
  | |- context [connection_sessions ?s5 !! c] =>
      destruct (connection_sessions s5 !! c)
  end; simpl; rewrite Hcalls, Hmon, Hact, lookup_insert_eq;
    (split; [done|]; split; [done|]; split; [|done]);
    destruct (record_model_performance_last utc "whisper_realtime"
                (default 0.0%float (Engine.confidence result))
                (default 0.0%float (Engine.confidence result))
                elapsed true (monitor s)) as (sample & Hlast & _ & _ & Hp & He);
    by exists sample.
Qed.

(** The [except] clause of the task, for an engine that raises (the
    wired one does not): the task logs the exception and ends; no sample is
    recorded. *)
Lemma raised_exception_ends_task s sid c message elapsed now utc chunk chunks :
  processing_tasks s !! c = Some Running ->
  c ∈ active_connections s ->
  audio_buffers s !! sid = Some (chunk :: chunks) ->
  let s' := process_cycle sid c (Engine.Raises message) elapsed now utc s in
  monitor s' = monitor s /\
  processing_tasks s' !! c = Some (Failed message) /\
  (forall sid' reply' elapsed' now' utc',
     process_cycle sid' c reply' elapsed' now' utc' s' = s').
Proof.
  intros Htask Hactive Hbuf. cbv zeta.
  destruct (cycle_begin_calls_engine s sid c chunk chunks Htask Hactive Hbuf)
    as (Hcalls & Hwait & _ & Hmon & Hact).
  unfold process_cycle. set (s1 := cycle_begin sid c s) in *.
  assert (Hend : cycle_end c (Engine.Raises message) elapsed now utc s1
                 = set_processing_tasks
                     (<[c := Failed message]> (processing_tasks s1)) s1).
  { unfold cycle_end. by rewrite Hwait. }
  rewrite Hend. simpl.
  split; [done|]. split; [apply lookup_insert_eq|].
  intros sid' reply' elapsed' now' utc'.
  unfold cycle_begin. simpl. rewrite lookup_insert_eq.
  unfold cycle_end. simpl. by rewrite lookup_insert_eq.
Qed.

(** A pass that finds no chunk buffered calls nothing and records
    nothing. *)
Lemma empty_buffer_cycle_is_idle s sid c reply elapsed now utc :
  processing_tasks s !! c = Some Running ->
  default [] (audio_buffers s !! sid) = [] ->
  let s' := process_cycle sid c reply elapsed now utc s in
  engine_calls s' = engine_calls s /\ monitor s' = monitor s /\
  audio_buffers s' = audio_buffers s.
Proof.
  intros Htask Hbuf. simpl. unfold process_cycle, cycle_begin.
  rewrite Htask, Hbuf.
  case_bool_decide; unfold cycle_end; simpl.
  - by rewrite Htask.
  - by rewrite lookup_insert_eq.
Qed.

(** The request-at-a-time entry point answers empty audio without calling
    the engine or recording a sample. *)
Lemma process_audio_empty reply elapsed utc s :
  process_audio [] reply elapsed utc s = (false, s).
Proof. reflexivity. Qed.

(** *** The wired engine in the loop *)

(** The wired engine returns an ["error"] entry exactly when it has a
    client and the request raised; the entry is the exception's text. *)
Lemma transcribe_error client env audio lang message :
  Engine.error (Engine.transcribe_audio_bytes client env audio lang) = Some message
  <-> client = true /\ Engine.api env = Engine.ApiRaises message.
Proof.
  unfold Engine.transcribe_audio_bytes, Engine._mock_transcription.
  destruct client; [|simpl; split; [discriminate | intros [? _]; discriminate]].
  destruct (Engine.api env) as [t|m]; simpl.
  - split; [discriminate | intros [_ ?]; discriminate].
  - split; [intros [= ->]; done | intros [_ [= ->]]; done].
Qed.

(** What a pass does once the engine has returned, whatever it returned:
    the task goes back to the top of its loop. *)
Lemma returned_result_keeps_the_loop s sid c result elapsed now utc chunk chunks :
  processing_tasks s !! c = Some Running ->
  c ∈ active_connections s ->
  audio_buffers s !! sid = Some (chunk :: chunks) ->
  let s' := process_cycle sid c (Engine.Returns result) elapsed now utc s in
  engine_calls s'
  = engine_calls s ++ [(Py.bytes_join (chunk :: chunks), default_language)] /\
  processing_tasks s' !! c = Some Running /\
  c ∈ active_connections s' /\
  audio_buffers s' !! sid = Some [] /\
  (is_Some (Engine.error result) -> text_queue s' = text_queue s).
Proof.
  intros Htask Hactive Hbuf. cbv zeta.
  destruct (cycle_begin_calls_engine s sid c chunk chunks Htask Hactive Hbuf)
    as (Hcalls & Hwait & Hdrained & Hmon & Hact).
  assert (Hq : text_queue (cycle_begin sid c s) = text_queue s).
  { unfold cycle_begin. rewrite Htask, bool_decide_eq_true_2 by done.
    by rewrite Hbuf. }
  unfold process_cycle. set (s1 := cycle_begin sid c s) in *.
  unfold cycle_end. rewrite Hwait. cbv zeta.
  match goal with
  | |- context [connection_sessions ?x !! c] => set (s5 := x)
  end.
  assert (H5 : engine_calls s5 = engine_calls s1 /\
               active_connections s5 = active_connections s1 /\
               audio_buffers s5 = audio_buffers s1 /\
               (is_Some (Engine.error result) -> text_queue s5 = text_queue s1)).
  { subst s5. destruct (bool_decide (is_Some (Engine.error result))) eqn:Herr.
    - simpl. repeat split; done.
    - destruct (negb _ && negb _) eqn:Hsend.
      + match goal with
        | |- context [_send_transcription_result ?a ?b ?c ?d ?e] =>
            destruct (send_transcription_result_keeps a b c d e)
              as (_ & _ & He & Ha & _ & Hb)
        end.
        rewrite He, Ha, Hb. simpl. repeat split; try done.
        intros Hsome. apply bool_decide_eq_false in Herr. by destruct Herr.
      + simpl. repeat split; done. }
  destruct H5 as (He & Ha & Hb & Hqueue).
  destruct (connection_sessions s5 !! c); simpl;
    rewrite He, Ha, Hb, Hcalls, Hact, Hdrained, lookup_insert_eq;
    (repeat split; try done); intros Hsome; rewrite (Hqueue Hsome); exact Hq.
Qed.

(** Audio that arrives after a pass is picked up by the next one. *)
Lemma next_cycle_calls_engine s sid c chunk now :
  processing_tasks s !! c = Some Running ->
  c ∈ active_connections s ->
  audio_buffers s !! sid = Some [] ->
  engine_calls (cycle_begin sid c (_handle_audio_data chunk sid c now s))
  = engine_calls s ++ [(Py.bytes_join [chunk], default_language)].
Proof.
  intros Htask Hactive Hbuf.
  assert (H : processing_tasks (_handle_audio_data chunk sid c now s) !! c
              = Some Running /\
              c ∈ active_connections (_handle_audio_data chunk sid c now s) /\
              audio_buffers (_handle_audio_data chunk sid c now s) !! sid
              = Some [chunk] /\
              engine_calls (_handle_audio_data chunk sid c now s) = engine_calls s).
  { unfold _handle_audio_data. rewrite Hbuf. simpl.
    destruct (connection_sessions s !! c); simpl;
      rewrite bool_decide_eq_true_2 by done;
      unfold _send_message; simpl;
      (destruct (sockets s !! c) as [ws|]; [destruct (sends ws)|]); simpl;
      rewrite lookup_insert_eq; done. }
  destruct H as (Ht & Ha & Hb & He).
  destruct (cycle_begin_calls_engine _ sid c chunk [] Ht Ha Hb) as (Hcalls & _).
  by rewrite Hcalls, He.
Qed.

(** C1.  A pass of a session's processing loop that found audio calls the
    wired engine, which returns a dict whatever happens to the request: an
    exception raised inside the call comes back as an ["error"] entry, so
    none reaches the loop.  When the call fails (the dict has an
    ["error"] entry) the pass records a sample with the error flag set
    (error rate 1.0) for the streaming model and queues no text; and
    after the pass, failed or not, the task is back at the top of its
    loop with its connection registered and the buffer drained, so that
    the next pass calls the engine on the audio that has arrived since. *)
Theorem failed_engine_call_is_recorded
        s sid c chunk chunks client env elapsed now utc :
  processing_tasks s !! c = Some Running ->
  c ∈ active_connections s ->
  audio_buffers s !! sid = Some (chunk :: chunks) ->
  let audio := Py.bytes_join (chunk :: chunks) in
  let result := Engine.transcribe_audio_bytes client env audio default_language in
  let s' := process_cycle sid c (Engine.Returns result) elapsed now utc s in
  (forall message,
     client = true -> Engine.api env = Engine.ApiRaises message ->
     Engine.error result = Some message) /\
  (is_Some (Engine.error result) ->
   monitor s'
   = Monitor.record_model_performance utc "whisper_realtime" 0.0%float 0.0%float
       elapsed true (monitor s) /\
   (exists sample,
      last (Monitor.history_of (monitor s')) = Some sample /\
      Monitor.error_rate sample = 1.0%float /\
      Monitor.processing_time sample = elapsed) /\
   text_queue s' = text_queue s) /\
  engine_calls s' = engine_calls s ++ [(audio, default_language)] /\
  processing_tasks s' !! c = Some Running /\
  c ∈ active_connections s' /\
  audio_buffers s' !! sid = Some [] /\
  (forall chunk' now',
     engine_calls (cycle_begin sid c (_handle_audio_data chunk' sid c now' s'))
     = engine_calls s' ++ [(Py.bytes_join [chunk'], default_language)]).
Proof.
  intros Htask Hactive Hbuf audio result s'.
  destruct (returned_result_keeps_the_loop s sid c result elapsed now utc
              chunk chunks Htask Hactive Hbuf)
    as (Hcalls & Hrun & Hact & Hdrained & Hqueue).
  fold s' in Hcalls, Hrun, Hact, Hdrained, Hqueue.
  split; [|split; [|split; [|split; [|split; [|split]]]]]; try done.
  - intros message Hc Hapi. by apply transcribe_error.
  - intros Herr.
    destruct (returned_error_is_recorded s sid c result elapsed now utc
                chunk chunks Htask Hactive Hbuf Herr)
      as (_ & Hmon & Hsample & _).
    fold s' in Hmon, Hsample.
    destruct Herr as [message Hmsg].
    apply transcribe_error in Hmsg as [-> Hapi].
    assert (Hconf : Engine.confidence result = Some 0.0%float).
    { subst result. unfold Engine.transcribe_audio_bytes. by rewrite Hapi. }
    rewrite Hconf in Hmon. simpl in Hmon.
    split; [exact Hmon|]. split; [exact Hsample|].
    apply Hqueue. subst result. unfold Engine.transcribe_audio_bytes.
    rewrite Hapi. by eexists.
  - intros chunk' now'. by apply next_cycle_calls_engine.
Qed.

End RealtimeFacts.

Lemma one_connection_reachable : Realtime.reachable Realtime.one_connection.
Proof.
  apply Realtime.reachable_step; [apply Realtime.reachable_init|].
  simpl. set_solver.
Qed.

Lemma one_connection_serving :
  Realtime.serving Realtime.one_connection "conn-1" "session-1".
Proof. vm_compute. reflexivity. Qed.

(** C7 as stated fails for the subscriber set: after a connection is
    registered its session has an active connection, a buffer and a text
    queue, and no text subscriber set. *)
Lemma connected_session_without_subscriber_set :
  Realtime.reachable Realtime.one_connection /\
  Realtime.has_connection Realtime.one_connection "session-1" /\
  Realtime.audio_buffers Realtime.one_connection !! "session-1" = Some [] /\
  Realtime.text_queue Realtime.one_connection !! "session-1" = Some [] /\
  Realtime.text_subscribers Realtime.one_connection !! "session-1" = None.
Proof.
  split; [apply one_connection_reachable|].
  split; [|repeat split; vm_compute; reflexivity].
  exists "conn-1". split; [|apply one_connection_serving].
  unfold Realtime.one_connection. simpl. set_solver.
Qed.

Lemma session_resources_follow_connections_witness :
  Realtime.reachable Realtime.one_connection /\
  (is_Some (Realtime.audio_buffers Realtime.one_connection !! "session-1")
   <-> Realtime.has_connection Realtime.one_connection "session-1") /\
  Realtime.audio_buffers
    (Realtime.apply_event 9 (Realtime.Disconnect "conn-1" "session-1")
       Realtime.one_connection) !! "session-1" = None /\
  Realtime.text_subscribers Realtime.one_connection !! "session-1" = None /\
  Realtime.text_subscribers
    (Realtime.apply_event 5
       (Realtime.Text "conn-1" "session-1" Realtime.SubscribeText)
       Realtime.one_connection) !! "session-1" = Some {["conn-1"]}.
Proof.
  pose proof (session_resources_follow_connections Realtime.one_connection
                "session-1" one_connection_reachable)
    as (Hbuf & _ & _ & _ & Hlast & Hsub & Honly).
  assert (Hnone : Realtime.text_subscribers Realtime.one_connection
                  !! "session-1" = None) by (vm_compute; reflexivity).
  split; [apply one_connection_reachable|]. split; [exact Hbuf|].
  split; [|split; [exact Hnone|]].
  2: { destruct (Hsub "conn-1" 5%float one_connection_serving) as [_ Hset].
       destruct (Honly 5%float
                   (Realtime.Text "conn-1" "session-1" Realtime.SubscribeText)
                   one_connection_serving Hnone)
         as (c & Hev & Hc).
       - rewrite Hset. by eexists.
       - injection Hev as <-. exact Hc. }
  destruct (Hlast "conn-1" 9%float one_connection_serving) as (_ & Hgone & _).
  - intros c'. unfold Realtime.serving.
    assert (Realtime.connection_sessions Realtime.one_connection
            = {[ "conn-1" := {| Realtime.session_id := "session-1";
                                Realtime.user_id := None;
                                Realtime.connected_at := 1%float;
                                Realtime.audio_chunks_received := 0;
                                Realtime.transcriptions_sent := 0;
                                Realtime.last_activity := 1%float |} ]}) as ->
      by (vm_compute; reflexivity).
    destruct (decide (c' = "conn-1")) as [->|Hne]; [done|].
    rewrite lookup_singleton_ne by done. discriminate.
  - exact Hgone.
Defined.

Lemma returned_error_is_recorded_example :
  let s' := Realtime.process_cycle "session-1" "conn-1" Realtime.engine_error
              0.2 3 10 Realtime.one_chunk_buffered in
  Realtime.engine_calls s' = [([Byte.x01; Byte.x02; Byte.x03], "en")] /\
  (exists sample,
     last (Monitor.history_of (Realtime.monitor s')) = Some sample /\
     Monitor.error_rate sample = 1.0%float /\
     Monitor.processing_time sample = 0.2%float) /\
  Realtime.processing_tasks s' !! "conn-1" = Some Realtime.Running.
Proof.
  pose proof (returned_error_is_recorded Realtime.one_chunk_buffered
                "session-1" "conn-1"
                {| Engine.text := Some ""; Engine.confidence := Some 0.0%float;
                   Engine.language := Some "en";
                   Engine.error := Some "upstream timeout" |}
                0.2 3 10 [Byte.x01; Byte.x02; Byte.x03] []) as H.
  destruct H as (Hcalls & _ & Hsample & Htask & _).
  - vm_compute. reflexivity.
  - unfold Realtime.one_chunk_buffered, Realtime.one_connection. simpl. set_solver.
  - vm_compute. reflexivity.
  - by eexists.
  - split; [exact Hcalls|]. split; [exact Hsample | exact Htask].
Defined.

Lemma failed_engine_call_is_recorded_witness :
  let s' := Realtime.process_cycle "session-1" "conn-1"
              (Engine.Returns
                 (Engine.transcribe_audio_bytes true Engine.request_fails
                    [Byte.x01; Byte.x02; Byte.x03] "en"))
              0.2 3 10 Realtime.one_chunk_buffered in
  Engine.error
    (Engine.transcribe_audio_bytes true Engine.request_fails
       [Byte.x01; Byte.x02; Byte.x03] "en") = Some "Connection error." /\
  (exists sample,
     last (Monitor.history_of (Realtime.monitor s')) = Some sample /\
     Monitor.error_rate sample = 1.0%float /\
     Monitor.processing_time sample = 0.2%float) /\
  Realtime.engine_calls s' = [([Byte.x01; Byte.x02; Byte.x03], "en")] /\
  Realtime.processing_tasks s' !! "conn-1" = Some Realtime.Running /\
  Realtime.engine_calls
    (Realtime.cycle_begin "session-1" "conn-1"
       (Realtime._handle_audio_data [Byte.x04] "session-1" "conn-1" 4 s'))
  = [([Byte.x01; Byte.x02; Byte.x03], "en"); ([Byte.x04], "en")].
Proof.
  pose proof (failed_engine_call_is_recorded Realtime.one_chunk_buffered
                "session-1" "conn-1" [Byte.x01; Byte.x02; Byte.x03] []
                true Engine.request_fails 0.2 3 10) as H.
  destruct H as (Herr & Hfail & Hcalls & Htask & _ & _ & Hnext).
  - vm_compute. reflexivity.
  - unfold Realtime.one_chunk_buffered, Realtime.one_connection. simpl. set_solver.
  - vm_compute. reflexivity.
  - cbv zeta. split; [reflexivity|].
    destruct Hfail as (_ & Hsample & _); [by eexists|].
    split; [exact Hsample|].
    split; [exact Hcalls|]. split; [exact Htask|].
    pose proof (Hnext [Byte.x04] 4%float) as Hn. rewrite Hcalls in Hn. exact Hn.
Defined.

(** C8, at the failing input: the buffer holds one chunk of zero bytes, the
    joined audio is empty, and the pass still calls the engine (with no
    bytes) and records a sample. *)
Theorem zero_byte_chunk_reaches_engine :
  let s' := Realtime.process_cycle "session-1" "conn-1" Realtime.engine_error
              0.2 3 10 Realtime.empty_chunk_buffered in
  Realtime.audio_buffers Realtime.empty_chunk_buffered !! "session-1" = Some [[]] /\
  Py.bytes_join [[]] = [] /\
  Realtime.engine_calls Realtime.empty_chunk_buffered = [] /\
  Realtime.engine_calls s' = [([], "en")] /\
  Monitor.history_of (Realtime.monitor Realtime.empty_chunk_buffered) = [] /\
  length (Monitor.history_of (Realtime.monitor s')) = 1%nat.
Proof. repeat split; vm_compute; reflexivity. Qed.

(** ** The direct handler of main.py *)

Section DirectFacts.
Import Direct.

(** The handler answers a message of no bytes without calling the engine
    or recording a sample. *)
Lemma direct_empty_audio user env w :
  let w' := process_audio_directly [] user env w in
  engine_calls w' = engine_calls w /\ monitor w' = monitor w.
Proof.
  simpl. unfold outer_except.
  destruct (answer_send env); [done|]. by destruct (outer_send env).
Qed.

(** An engine that raises (the wired one does not) is met by the inner
    [except] clause: a sample with the error flag set for an authenticated
    user, taken with the clause's own readings, and word to the client. *)
Lemma direct_exception_is_recorded b audio u message env w :
  reply env = Engine.Raises message ->
  except_send env = Delivered ->
  let w' := process_audio_directly (b :: audio) (Some u) env w in
  monitor w'
  = Monitor.record_model_performance (except_utc env) "whisper" 0.0%float
      0.0%float (except_elapsed env) true (monitor w) /\
  sent w' = sent w ++ [ErrorMessage ("Speech recognition error: " +:+ message)].
Proof.
  intros Hr Hs. simpl. rewrite Hr. unfold inner_except. by rewrite Hs.
Qed.

End DirectFacts.

(** ** The drift monitor: retention, refresh and the health report *)

Section MonitorReports.
Import Monitor.
Variable np_mean : list float -> float.
Variable np_percentile : list float -> float -> float.

Abbreviation check := (_check_model_drift np_mean np_percentile).
Abbreviation check_one := (check_model np_mean np_percentile).
Abbreviation new_alerts := (appended_alerts np_mean np_percentile).
Abbreviation average := (_calculate_metrics_average np_mean np_percentile).
Abbreviation refresh := (_update_baseline_metrics np_mean np_percentile).
Abbreviation refresh_one := (update_model_baseline np_mean np_percentile).

Lemma assoc_get_upd_ne {V} k k' (f : option V -> V) d :
  k <> k' -> Py.assoc_get k (Py.assoc_upd k' f d) = Py.assoc_get k d.
Proof.
  intros Hne. induction d as [|[k0 v] d IH]; simpl.
  - by rewrite decide_False.
  - destruct (decide (k' = k0)) as [->|Hk0]; simpl.
    + by rewrite !decide_False.
    + destruct (decide (k = k0)); [done | exact IH].
Qed.

Lemma history_for_record_observation name o svc :
  history_for name (record_observation svc o)
  = if decide (o_model o = name)
    then Py.last_n 1000 (history_for name svc ++ [metrics_of o])
    else history_for name svc.
Proof.
  unfold history_for, record_observation, record_model_performance. simpl.
  case_decide as Hname.
  - subst name. rewrite assoc_get_upd. simpl.
    by rewrite deque_append_last_n by lia.
  - by rewrite assoc_get_upd_ne.
Qed.

Lemma history_for_record_length name o svc :
  (length (history_for name svc) <= 1000)%nat ->
  (length (history_for name (record_observation svc o)) <= 1000)%nat.
Proof.
  intros H. rewrite history_for_record_observation.
  case_decide; [rewrite last_n_length; lia | exact H].
Qed.

(** X1. Recording keeps, for every model, the most recent 1000 samples in
    the order they were recorded; samples recorded for other models do not
    count against the bound. *)
Theorem history_keeps_last_1000 (name : string) (os : list Observation)
        (svc : ModelMonitoringService) :
  (length (history_for name svc) <= 1000)%nat ->
  history_for name (record_observations os svc)
  = Py.last_n 1000
      (history_for name svc
       ++ (metrics_of <$> filter (fun o => o_model o = name) os)).
Proof.
  revert svc. induction os as [|o os IH]; intros svc Hlen.
  - simpl. rewrite app_nil_r. by rewrite last_n_short.
  - change (record_observations (o :: os) svc)
      with (record_observations os (record_observation svc o)).
    rewrite IH by by apply history_for_record_length.
    rewrite history_for_record_observation, filter_cons.
    case_decide as Hname.
    + rewrite last_n_app_last_n, fmap_cons, <- app_assoc. reflexivity.
    + reflexivity.
Qed.

Lemma history_keeps_last_1000_witness :
  history_for "whisper_realtime"
    (record_observations
       [ {| o_time := 1; o_model := "whisper_realtime"; o_accuracy := 0.9;
            o_confidence := 0.9; o_processing_time := 0.5; o_error := false |};
         {| o_time := 2; o_model := "whisper_kafka"; o_accuracy := 0.8;
            o_confidence := 0.8; o_processing_time := 0.25; o_error := false |};
         {| o_time := 3; o_model := "whisper_realtime"; o_accuracy := 0;
            o_confidence := 0; o_processing_time := 0; o_error := true |} ]
       init)
  = Py.last_n 1000
      (history_for "whisper_realtime" init
       ++ (metrics_of <$>
           filter (fun o => o_model o = "whisper_realtime")
             [ {| o_time := 1; o_model := "whisper_realtime"; o_accuracy := 0.9;
                  o_confidence := 0.9; o_processing_time := 0.5; o_error := false |};
               {| o_time := 2; o_model := "whisper_kafka"; o_accuracy := 0.8;
                  o_confidence := 0.8; o_processing_time := 0.25; o_error := false |};
               {| o_time := 3; o_model := "whisper_realtime"; o_accuracy := 0;
                  o_confidence := 0; o_processing_time := 0; o_error := true |} ])).
Proof. apply history_keeps_last_1000. simpl. lia. Defined.

(** *** The drift check *)

Lemma check_metric_frame now name cur base svc item :
  baseline_metrics (check_metric now name cur base svc item) = baseline_metrics svc /\
  performance_history (check_metric now name cur base svc item)
  = performance_history svc /\
  drift_thresholds (check_metric now name cur base svc item) = drift_thresholds svc /\
  monitoring_active (check_metric now name cur base svc item) = monitoring_active svc.
Proof.
  destruct item as [m t]. unfold check_metric.
  repeat case_match; done.
Qed.

(** What the inner loop appends, beyond [built_for]: the baseline value
    is not zero. *)
Lemma check_metric_stamps now name cur base svc item :
  adds (fun a => alert_model_name a = name /\
                 PrimFloat.eqb (baseline_value a) 0 = false)
       svc (check_metric now name cur base svc item).
Proof.
  destruct item as [m t]. unfold check_metric.
  destruct (PrimFloat.eqb (default 0%float (base !! m)) 0) eqn:Hz;
    [apply adds_refl|].
  destruct (PrimFloat.ltb t _) eqn:Hd; [|apply adds_refl].
  split; [done|]. split; [done|].
  eexists [_]. split; [reflexivity|].
  apply Forall_singleton. simpl. done.
Qed.

Lemma check_model_stamps now svc name history :
  adds (fun a => alert_model_name a = name /\
                 PrimFloat.eqb (baseline_value a) 0 = false /\
                 (10 <= length history)%nat)
       svc (check_one now svc (name, history)).
Proof.
  unfold check_model.
  case_decide as Hlen; [apply adds_refl|].
  case_decide; [split; [done|]; split; [done|]; exists []; by rewrite app_nil_r|].
  apply (fold_left_invariant (fun s => adds _ svc s)); [apply adds_refl|].
  intros s item _ Hs. eapply adds_trans; [exact Hs|].
  eapply adds_weaken; [|apply check_metric_stamps].
  intros a (? & ?). repeat split; try done. lia.
Qed.

Lemma check_models_frame now svc items :
  monitoring_active (fold_left (check_one now) items svc) = monitoring_active svc.
Proof.
  apply (fold_left_invariant
           (fun s => monitoring_active s = monitoring_active svc)); [done|].
  intros s [name history] _ Hs. rewrite <- Hs. unfold check_model.
  case_decide; [done|]. case_decide; [done|].
  apply (fold_left_invariant
           (fun s' => monitoring_active s' = monitoring_active s)); [done|].
  intros s' item _ Hs'. rewrite <- Hs'.
  apply check_metric_frame.
Qed.

(** X2. A drift check changes neither the recorded samples nor the
    thresholds nor the activity flag, and it never replaces a baseline
    that is already set: only models without one are given one. *)
Theorem drift_check_keeps_samples_and_baselines (now : string -> string -> Z)
        (svc : ModelMonitoringService) :
  performance_history (check now svc) = performance_history svc /\
  drift_thresholds (check now svc) = drift_thresholds svc /\
  monitoring_active (check now svc) = monitoring_active svc /\
  (forall name base,
      baseline_metrics svc !! name = Some base -> base <> ∅ ->
      baseline_metrics (check now svc) !! name = Some base) /\
  (forall name,
      name ∉ (performance_history svc).*1 ->
      baseline_metrics (check now svc) !! name = baseline_metrics svc !! name).
Proof.
  destruct (check_adds np_mean np_percentile now svc) as (Hh & Ht & _).
  split; [exact Hh|]. split; [exact Ht|].
  split; [apply check_models_frame|].
  split.
  - intros name base Hb Hne. by apply check_models_baseline_kept.
  - intros name Hn. by apply check_models_baseline_other.
Qed.

(** X3. The alert history is a window of one hundred: after a drift check
    it holds the last hundred of the alerts it held before followed by the
    alerts the check raised, oldest first. *)
Theorem alert_history_keeps_last_100 (now : string -> string -> Z)
        (svc : ModelMonitoringService) :
  (length (alert_history svc) <= 100)%nat ->
  alert_history (check now svc)
  = Py.last_n 100 (alert_history svc ++ new_alerts now svc) /\
  (length (alert_history (check now svc)) <= 100)%nat.
Proof.
  intros Hlen.
  pose proof (check_alert_history np_mean np_percentile now svc Hlen) as Heq.
  split; [exact Heq|].
  rewrite Heq, last_n_length. lia.
Qed.

(** X4. Every alert a drift check raises belongs to a tracked model with
    at least ten samples, and compares against a baseline value that is
    not zero: a metric whose baseline is zero is skipped, never divided
    by. *)
Theorem drift_alerts_have_a_baseline (now : string -> string -> Z)
        (svc : ModelMonitoringService) :
  Forall (fun a =>
            PrimFloat.eqb (baseline_value a) 0 = false /\
            exists history,
              (alert_model_name a, history) ∈ performance_history svc /\
              (10 <= length history)%nat)
         (new_alerts now svc).
Proof.
  assert (H : forall items,
             adds (fun a =>
                     PrimFloat.eqb (baseline_value a) 0 = false /\
                     exists history, (alert_model_name a, history) ∈ items /\
                                     (10 <= length history)%nat)
                  svc (fold_left (check_one now) items svc));
    [|apply adds_new_alerts, H].
  intros items.
  apply (fold_left_invariant (fun s => adds _ svc s)); [apply adds_refl|].
  intros s [name history] Hin Hs.
  eapply adds_trans; [exact Hs|].
  eapply adds_weaken; [|apply check_model_stamps].
  intros a (Hn & Hz & Hlen). split; [done|].
  exists history. by rewrite Hn.
Qed.

(** *** The baseline refresh *)

Lemma refresh_one_other svc name history other :
  other <> name ->
  baseline_metrics (refresh_one svc (name, history)) !! other
  = baseline_metrics svc !! other.
Proof.
  intros Hne. unfold update_model_baseline.
  case_decide; [done|]. simpl. by rewrite lookup_insert_ne.
Qed.

Lemma refresh_others svc items name :
  name ∉ items.*1 ->
  baseline_metrics (fold_left refresh_one items svc) !! name
  = baseline_metrics svc !! name.
Proof.
  intros Hni.
  apply (fold_left_invariant
           (fun s => baseline_metrics s !! name = baseline_metrics svc !! name));
    [done|].
  intros s [n h] Hin Hs. rewrite <- Hs. apply refresh_one_other.
  intros ->. apply Hni, list_elem_of_fmap. by exists (n, h).
Qed.

Lemma refresh_frame svc items :
  performance_history (fold_left refresh_one items svc) = performance_history svc /\
  alert_history (fold_left refresh_one items svc) = alert_history svc /\
  handled (fold_left refresh_one items svc) = handled svc /\
  drift_thresholds (fold_left refresh_one items svc) = drift_thresholds svc.
Proof.
  apply (fold_left_invariant
           (fun s => performance_history s = performance_history svc /\
                     alert_history s = alert_history svc /\
                     handled s = handled svc /\
                     drift_thresholds s = drift_thresholds svc)); [done|].
  intros s [n h] _ Hs. unfold update_model_baseline.
  case_decide; [exact Hs|]. exact Hs.
Qed.

(** X5. The periodic refresh replaces the baseline of every model with at
    least fifty samples by the averages of its last two hundred, whatever
    the baseline was, and leaves every other baseline, the samples and the
    alerts as they were. *)
Theorem baseline_refresh (svc : ModelMonitoringService) (name : string)
        (history : list ModelPerformanceMetrics) :
  NoDup (performance_history svc).*1 ->
  (name, history) ∈ performance_history svc ->
  ((50 <= length history)%nat ->
   baseline_metrics (refresh svc) !! name
   = Some (average (Py.last_n 200 history))) /\
  ((length history < 50)%nat ->
   baseline_metrics (refresh svc) !! name = baseline_metrics svc !! name) /\
  (forall other, other ∉ (performance_history svc).*1 ->
     baseline_metrics (refresh svc) !! other = baseline_metrics svc !! other) /\
  performance_history (refresh svc) = performance_history svc /\
  alert_history (refresh svc) = alert_history svc.
Proof.
  intros Hnd Hin.
  split; [|split; [|split]].
  3: { intros other Ho. by apply refresh_others. }
  3: { destruct (refresh_frame svc (performance_history svc)) as (? & ? & _).
       done. }
  all: apply list_elem_of_split in Hin as (l1 & l2 & Hph);
    rewrite Hph, fmap_app, fmap_cons in Hnd; simpl in Hnd;
    apply NoDup_app in Hnd as (_ & Hl1 & Hnd);
    apply NoDup_cons in Hnd as (Hl2 & _);
    assert (Hn1 : name ∉ l1.*1) by (intros H1; apply (Hl1 name H1); left);
    unfold _update_baseline_metrics; rewrite Hph, fold_left_app; simpl;
    rewrite refresh_others by exact Hl2;
    intros Hlen; unfold update_model_baseline at 1.
  - rewrite decide_False by lia. simpl. by rewrite lookup_insert_eq.
  - rewrite decide_True by lia. by apply refresh_others.
Qed.


End MonitorReports.

Lemma alert_history_keeps_last_100_witness :
  Monitor.alert_history
    (Monitor._check_model_drift Monitor.seq_mean Monitor.seq_percentile
          (Monitor.clock_at 120)
       Monitor.svc_090_050)
  = Py.last_n 100
      (Monitor.alert_history Monitor.svc_090_050
       ++ Monitor.appended_alerts Monitor.seq_mean Monitor.seq_percentile
             (Monitor.clock_at 120)
            Monitor.svc_090_050) /\
  (length (Monitor.alert_history
             (Monitor._check_model_drift Monitor.seq_mean Monitor.seq_percentile
                (Monitor.clock_at 120) Monitor.svc_090_050)) <= 100)%nat.
Proof.
  apply (alert_history_keeps_last_100 Monitor.seq_mean Monitor.seq_percentile
        (Monitor.clock_at 120)
           Monitor.svc_090_050).
  vm_compute. lia.
Defined.

Lemma baseline_refresh_witness :
  Monitor.baseline_metrics
    (Monitor._update_baseline_metrics Monitor.seq_mean Monitor.seq_percentile
       Monitor.svc_fifty_samples)
    !! "whisper_realtime"
  = Some (Monitor._calculate_metrics_average Monitor.seq_mean Monitor.seq_percentile
            (Py.last_n 200 (Monitor.history_of Monitor.svc_fifty_samples))).
Proof.
  apply (baseline_refresh Monitor.seq_mean Monitor.seq_percentile
           Monitor.svc_fifty_samples "whisper_realtime"
           (Monitor.history_of Monitor.svc_fifty_samples)).
  - vm_compute. apply NoDup_singleton.
  - vm_compute. left.
  - vm_compute. lia.
Defined.

Section MonitorHealth.
Import Monitor.

(** *** The health report *)

Lemma recent_alerts_elem now name svc a :
  a ∈ recent_alerts now name svc <->
  exists i, alert_history svc !! i = Some a /\ alert_model_name a = name /\
            now name i - hours 1 < alert_timestamp a.
Proof.
  unfold recent_alerts. rewrite list_elem_of_fmap. split.
  - intros ([i a'] & -> & Hin). apply list_elem_of_filter in Hin as [[Hn Ht] Hin].
    apply elem_of_lookup_imap in Hin as (j & b & Heq & Hj).
    inversion Heq; subst. simpl in *. by exists j.
  - intros (i & Hi & Hn & Ht). exists (i, a). split; [done|].
    apply list_elem_of_filter. split; [done|].
    apply elem_of_lookup_imap. by exists i, a.
Qed.

Lemma existsb_severity (sevs : list string) (f : ModelDriftAlert -> bool) recent :
  (forall a, f a = true <-> severity a ∈ sevs) ->
  existsb f recent = true <-> exists a, a ∈ recent /\ severity a ∈ sevs.
Proof.
  intros Hf. rewrite existsb_exists. split.
  - intros (a & Hin & Ha). exists a. split; [by apply list_elem_of_In | by apply Hf].
  - intros (a & Hin & Ha). exists a. split; [by apply list_elem_of_In | by apply Hf].
Qed.

(** The status of one model, read off its recent alerts. *)
Lemma model_status_cases recent :
  let has sevs := exists a, a ∈ recent /\ severity a ∈ sevs in
  (model_status recent = "critical" <-> has ["critical"]) /\
  (model_status recent = "warning" <-> ~ has ["critical"] /\ has ["high"]) /\
  (model_status recent = "degraded" <->
   ~ has ["critical"] /\ ~ has ["high"] /\ has ["medium"; "low"]) /\
  (model_status recent = "healthy" <->
   ~ has ["critical"] /\ ~ has ["high"] /\ ~ has ["medium"; "low"]).
Proof.
  intros has. unfold model_status.
  pose proof (existsb_severity ["critical"]
                (fun a => bool_decide (severity a = "critical")) recent) as Hc.
  pose proof (existsb_severity ["high"]
                (fun a => bool_decide (severity a = "high")) recent) as Hh.
  pose proof (existsb_severity ["medium"; "low"]
                (fun a => bool_decide (severity a ∈ ["medium"; "low"])) recent) as Hm.
  fold (has ["critical"]) in Hc. fold (has ["high"]) in Hh.
  fold (has ["medium"; "low"]) in Hm.
  assert (Hc' : existsb (fun a => bool_decide (severity a = "critical")) recent = true
                <-> has ["critical"]).
  { apply Hc. intros a. rewrite bool_decide_eq_true. set_solver. }
  assert (Hh' : existsb (fun a => bool_decide (severity a = "high")) recent = true
                <-> has ["high"]).
  { apply Hh. intros a. rewrite bool_decide_eq_true. set_solver. }
  assert (Hm' : existsb (fun a => bool_decide (severity a ∈ ["medium"; "low"])) recent
                = true <-> has ["medium"; "low"]).
  { apply Hm. intros a. by rewrite bool_decide_eq_true. }
  clear Hc Hh Hm.
  destruct (existsb (fun a => bool_decide (severity a = "critical")) recent);
    destruct (existsb (fun a => bool_decide (severity a = "high")) recent);
    destruct (existsb (fun a => bool_decide (severity a ∈ ["medium"; "low"])) recent);
    repeat split; try discriminate; try tauto;
    intros; intuition discriminate.
Qed.

Lemma tracked_recent_alert_status sevs now svc :
  tracked_recent_alert sevs now svc <->
  exists name, name ∈ (performance_history svc).*1 /\
               exists a, a ∈ recent_alerts now name svc /\ severity a ∈ sevs.
Proof.
  unfold tracked_recent_alert. split.
  - intros (name & i & a & Hn & Hi & Ha & Ht & Hs). exists name. split; [done|].
    exists a. split; [|done]. apply recent_alerts_elem. by exists i.
  - intros (name & Hn & a & Ha & Hs).
    apply recent_alerts_elem in Ha as (i & Hi & Ha & Ht). by exists name, i, a.
Qed.

Lemma model_statuses_elem now svc s :
  s ∈ (fun m : string * ModelHealth => status m.2)
        <$> models (get_model_health_status now svc) <->
  exists name, name ∈ (performance_history svc).*1 /\
               s = model_status (recent_alerts now name svc).
Proof.
  simpl. rewrite <- list_fmap_compose, !list_elem_of_fmap. split.
  - intros ([name h] & -> & Hin). exists name. split; [|done].
    apply list_elem_of_fmap. by exists (name, h).
  - intros (name & Hin & ->). apply list_elem_of_fmap in Hin as ([n h] & -> & Hin).
    by exists (n, h).
Qed.

(** X6. The overall status of the health report is the worst status among
    the tracked models, and a model's status is decided by its most severe
    alert of the last hour: critical before high (reported as warning)
    before medium or low (reported as degraded); without any such alert
    the report says healthy. *)
Theorem overall_status_is_the_worst (now : string -> nat -> Z)
        (svc : ModelMonitoringService) :
  let overall := overall_status (get_model_health_status now svc) in
  let alerted sevs := tracked_recent_alert sevs now svc in
  (overall = "critical" <-> alerted ["critical"]) /\
  (overall = "warning" <-> ~ alerted ["critical"] /\ alerted ["high"]) /\
  (overall = "degraded" <->
   ~ alerted ["critical"] /\ ~ alerted ["high"] /\ alerted ["medium"; "low"]) /\
  (overall = "healthy" <->
   ~ alerted ["critical"] /\ ~ alerted ["high"] /\ ~ alerted ["medium"; "low"]).
Proof.
  intros overall alerted.
  set (statuses := (fun m : string * ModelHealth => status m.2)
                     <$> models (get_model_health_status now svc)).
  assert (Hc : "critical" ∈ statuses <-> alerted ["critical"]).
  { unfold statuses, alerted.
    rewrite model_statuses_elem, tracked_recent_alert_status.
    split; intros (name & Hn & H); exists name; (split; [done|]).
    - symmetry in H. by apply model_status_cases in H.
    - symmetry. by apply model_status_cases. }
  assert (Hw : ~ alerted ["critical"] ->
               "warning" ∈ statuses <-> alerted ["high"]).
  { intros Hnc. unfold statuses, alerted.
    rewrite model_statuses_elem, tracked_recent_alert_status.
    split; intros (name & Hn & H); exists name; (split; [done|]).
    - symmetry in H. apply model_status_cases in H. tauto.
    - symmetry. apply model_status_cases. split; [|done].
      intros Hcr. apply Hnc, tracked_recent_alert_status. by exists name. }
  assert (Hd : ~ alerted ["critical"] -> ~ alerted ["high"] ->
               "degraded" ∈ statuses <-> alerted ["medium"; "low"]).
  { intros Hnc Hnh. unfold statuses, alerted.
    rewrite model_statuses_elem, tracked_recent_alert_status.
    split; intros (name & Hn & H); exists name; (split; [done|]).
    - symmetry in H. apply model_status_cases in H. tauto.
    - symmetry. apply model_status_cases. split; [|split; [|done]].
      + intros Hcr. apply Hnc, tracked_recent_alert_status. by exists name.
      + intros Hhi. apply Hnh, tracked_recent_alert_status. by exists name. }
  assert (Ho : overall
               = if bool_decide ("critical" ∈ statuses) then "critical"
                 else if bool_decide ("warning" ∈ statuses) then "warning"
                 else if bool_decide ("degraded" ∈ statuses) then "degraded"
                 else "healthy") by reflexivity.
  rewrite Ho. clear Ho.
  destruct (bool_decide_reflect ("critical" ∈ statuses)) as [Ic|Ic];
    [|destruct (bool_decide_reflect ("warning" ∈ statuses)) as [Iw|Iw];
      [|destruct (bool_decide_reflect ("degraded" ∈ statuses)) as [Id|Id]]].
  - repeat split; try discriminate; tauto.
  - repeat split; try discriminate; tauto.
  - repeat split; try discriminate; tauto.
  - repeat split; try discriminate; tauto.
Qed.

End MonitorHealth.

Example health_report_example :
  Monitor.get_model_health_status (fun _ _ => Monitor.hours 5 + 2)
    Monitor.svc_with_alerts
  = {| Monitor.overall_status := "warning";
       Monitor.models :=
         [("whisper_realtime",
           {| Monitor.status := "warning"; Monitor.recent_alert_count := 1;
              Monitor.baseline_available := false |});
          ("whisper_kafka",
           {| Monitor.status := "degraded"; Monitor.recent_alert_count := 1;
              Monitor.baseline_available := false |})];
       Monitor.total_alerts := 3;
       Monitor.critical_alerts := 1 |}.
Proof. vm_compute. reflexivity. Qed.

(** ** The audio buffers under every call *)

Section AudioProcCalls.
Import AudioProc.

Lemma held_insert_fresh (m : gmap string (list bytes)) k b :
  m !! k = None -> held (<[k := b]> m) = Z.of_nat (length b) + held m.
Proof.
  intros Hk. unfold held. rewrite map_fold_insert_L; [done| |exact Hk].
  intros. lia.
Qed.

Lemma held_delete (m : gmap string (list bytes)) k b :
  m !! k = Some b -> held m = Z.of_nat (length b) + held (delete k m).
Proof.
  intros Hk. rewrite <- (insert_delete_id m k b Hk) at 1.
  apply held_insert_fresh, lookup_delete_eq.
Qed.

Lemma held_insert (m : gmap string (list bytes)) k b :
  held (<[k := b]> m)
  = Z.of_nat (length b) + held m - Z.of_nat (length (default [] (m !! k))).
Proof.
  destruct (m !! k) as [old|] eqn:Hk; simpl.
  - rewrite (held_delete m k old Hk), <- insert_delete_eq.
    rewrite held_insert_fresh by apply lookup_delete_eq. lia.
  - rewrite held_insert_fresh by done. lia.
Qed.

Lemma held_nonneg (m : gmap string (list bytes)) : 0 <= held m.
Proof.
  unfold held. apply (map_fold_weak_ind (fun r _ => 0 <= r)); [lia|].
  intros. lia.
Qed.

Lemma add_audio_chunk_step C sid chunk p :
  0 < C -> within C p ->
  within C (add_audio_chunk sid chunk p).2 /\
  balance (add_audio_chunk sid chunk p).2 = balance p /\
  total_chunks_processed (stats (add_audio_chunk sid chunk p).2)
  = total_chunks_processed (stats p) + 1 /\
  (add_audio_chunk sid chunk p).1 = true.
Proof.
  intros HC (Hsize & Htotal & Hover & Hbound). unfold add_audio_chunk.
  set (bufs0 := match audio_buffers p !! sid with
                | Some _ => audio_buffers p
                | None => <[sid := []]> (audio_buffers p)
                end).
  assert (Hheld0 : held bufs0 = buffered p).
  { unfold bufs0, buffered. destruct (audio_buffers p !! sid) eqn:E; [done|].
    rewrite held_insert_fresh by done. simpl. lia. }
  assert (Hother : forall s, s <> sid -> bufs0 !! s = audio_buffers p !! s).
  { intros s Hs. unfold bufs0. destruct (audio_buffers p !! sid); [done|].
    by rewrite lookup_insert_ne. }
  assert (Hbuf0 : exists buf0, bufs0 !! sid = Some buf0 /\
                               Z.of_nat (length buf0) <= C).
  { unfold bufs0. destruct (audio_buffers p !! sid) as [b|] eqn:E.
    - exists b. split; [done|]. by apply (Hbound sid).
    - exists []. rewrite lookup_insert_eq. split; [done|]. simpl. lia. }
  destruct Hbuf0 as (buf0 & Hbuf0 & Hlen0). rewrite Hbuf0. simpl.
  rewrite Hsize.
  assert (Hpop : exists buf1 ov,
    (if Z.of_nat (length buf0) >=? C
     then match buf0 with
          | [] => None
          | _ :: rest => Some (rest, buffer_overflows (stats p) + 1)
          end
     else Some (buf0, buffer_overflows (stats p))) = Some (buf1, ov) /\
    Z.of_nat (length buf1) < C /\
    ov - buffer_overflows (stats p)
    = Z.of_nat (length buf0) - Z.of_nat (length buf1) /\
    0 <= ov).
  { destruct (Z.geb_spec (Z.of_nat (length buf0)) C) as [Hge|Hlt].
    - destruct buf0 as [|first rest]; [simpl in Hge; lia|].
      eexists _, _. split; [reflexivity|]. simpl in *. lia.
    - eexists _, _. split; [reflexivity|]. lia. }
  destruct Hpop as (buf1 & ov & -> & Hlen1 & Hov & Hov0).
  destruct (Z.eqb_spec (total_chunks_processed (stats p) + 1) 0) as [|_]; [lia|].
  simpl. unfold within, balance, buffered in *. simpl.
  rewrite held_insert, Hbuf0, Hheld0. simpl.
  split; [|split; [|done]].
  - split; [done|]. split; [lia|]. split; [lia|]. intros s chunks.
    destruct (decide (s = sid)) as [->|Hne].
    + rewrite lookup_insert_eq. intros [= <-]. rewrite length_app. simpl. lia.
    + rewrite lookup_insert_ne by done. rewrite Hother by done. apply Hbound.
  - rewrite length_app. simpl. lia.
Qed.

(** Emptying or deleting one buffer keeps the others within the capacity. *)
Lemma within_emptied C p sid :
  0 < C -> within C p ->
  within C (with_buffers (<[sid := []]> (audio_buffers p)) p) /\
  within C (with_buffers (delete sid (audio_buffers p)) p).
Proof.
  intros HC (Hsize & Htotal & Hover & Hbound).
  split; (split; [done|]; split; [done|]; split; [done|]); intros s cs; simpl;
    destruct (decide (s = sid)) as [->|Hne].
  - rewrite lookup_insert_eq. intros [= <-]. simpl. lia.
  - rewrite lookup_insert_ne by done. apply Hbound.
  - by rewrite lookup_delete_eq.
  - rewrite lookup_delete_ne by done. apply Hbound.
Qed.

Lemma step_within C p c :
  0 < C -> within C p ->
  within C (step p c) /\
  balance (step p c) = balance p + removed c p /\
  total_chunks_processed (stats (step p c))
  = total_chunks_processed (stats p) + (if is_add c then 1 else 0).
Proof.
  intros HC Hin.
  destruct (within_emptied C p) with (sid := "") as [_ _]; [done..|].
  destruct c as [sid chunk|sid clear|sid|sid|]; simpl.
  - destruct (add_audio_chunk_step C sid chunk p HC Hin) as (H1 & H2 & H3 & _).
    split; [exact H1|]. split; [lia | exact H3].
  - unfold get_audio_chunks.
    destruct (audio_buffers p !! sid) as [chunks|] eqn:E; simpl.
    2: { destruct clear; simpl; (split; [done|split; lia]). }
    destruct clear; simpl; [|split; [done|split; lia]].
    split; [by apply within_emptied|]. split; [|lia].
    unfold balance, buffered. simpl. rewrite held_insert, E. simpl. lia.
  - unfold clear_buffer.
    destruct (audio_buffers p !! sid) as [chunks|] eqn:E; simpl;
      [|split; [done|split; lia]].
    split; [by apply within_emptied|]. split; [|lia].
    unfold balance, buffered. simpl. rewrite held_insert, E. simpl. lia.
  - unfold cleanup_session.
    destruct (audio_buffers p !! sid) as [chunks|] eqn:E; simpl;
      [|split; [done|split; lia]].
    split; [by apply within_emptied|]. split; [|lia].
    unfold balance, buffered. simpl. rewrite (held_delete _ sid chunks E). lia.
  - destruct Hin as (Hsize & Htotal & Hover & Hbound).
    split; [|split; [|lia]].
    + split; [done|]. split; [done|]. split; [done|].
      intros s cs. simpl. by rewrite lookup_empty.
    + unfold balance, buffered, held. simpl. rewrite map_fold_empty. lia.
Qed.

Lemma run_within C calls p :
  0 < C -> within C p ->
  within C (run calls p) /\
  balance (run calls p) = balance p + removed_by calls p /\
  total_chunks_processed (stats (run calls p))
  = total_chunks_processed (stats p) + adds_in calls.
Proof.
  intros HC. revert p. induction calls as [|c calls IH]; intros p Hin.
  - simpl. unfold adds_in. simpl. split; [done|]. split; lia.
  - destruct (step_within C p c HC Hin) as (Hin' & Hbal & Htot).
    destruct (IH (step p c) Hin') as (Hin'' & Hbal' & Htot').
    change (run (c :: calls) p) with (run calls (step p c)).
    split; [exact Hin''|]. split.
    + rewrite Hbal', Hbal. simpl. lia.
    + rewrite Htot', Htot. unfold adds_in. rewrite filter_cons.
      destruct c; simpl; lia.
Qed.

Lemma init_within C d : 0 < C -> within C (init C d).
Proof.
  intros HC. split; [done|]. split; [simpl; lia|]. split; [simpl; lia|].
  intros sid chunks. simpl. by rewrite lookup_empty.
Qed.

(** X7. Whatever is called on a processor of capacity [C >= 1], and in
    whatever order, no buffer ever holds more than [C] chunks. *)
Theorem buffers_stay_within_capacity (C : Z) (d : float) (calls : list call)
        (sid : string) (chunks : list bytes) :
  0 < C ->
  audio_buffers (run calls (init C d)) !! sid = Some chunks ->
  Z.of_nat (length chunks) <= C.
Proof.
  intros HC.
  destruct (run_within C calls (init C d) HC (init_within C d HC))
    as ((_ & _ & _ & Hbound) & _).
  apply Hbound.
Qed.

(** X8. No chunk disappears unaccounted for.  After any sequence of calls
    on a processor of capacity [C >= 1], [total_chunks_processed] is the
    number of [add_audio_chunk] calls, and each of those chunks is either
    still buffered, or was taken out by a clearing read, a clear or a
    clean-up, or was dropped as the oldest chunk of a full buffer; the last
    are exactly what [buffer_overflows] counts. *)
Theorem chunks_are_accounted_for (C : Z) (d : float) (calls : list call) :
  0 < C ->
  let p := run calls (init C d) in
  total_chunks_processed (stats p) = adds_in calls /\
  adds_in calls
  = buffered p + removed_by calls (init C d) + buffer_overflows (stats p) /\
  0 <= buffer_overflows (stats p) /\ 0 <= buffered p.
Proof.
  intros HC p.
  destruct (run_within C calls (init C d) HC (init_within C d HC))
    as ((_ & _ & Hover & _) & Hbal & Htot).
  fold p in Hbal, Htot, Hover. simpl in Htot.
  assert (H0 : balance (init C d) = 0) by reflexivity.
  rewrite H0 in Hbal. unfold balance in Hbal.
  split; [lia|]. split; [lia|]. split; [done|]. apply held_nonneg.
Qed.

(** *** Which sessions have a buffer *)

Lemma add_audio_chunk_active sid chunk p other :
  is_Some (audio_buffers (add_audio_chunk sid chunk p).2 !! other) <->
  other = sid \/ is_Some (audio_buffers p !! other).
Proof.
  unfold add_audio_chunk.
  set (bufs0 := match audio_buffers p !! sid with
                | Some _ => audio_buffers p
                | None => <[sid := []]> (audio_buffers p)
                end).
  assert (H0 : is_Some (bufs0 !! other) <->
               other = sid \/ is_Some (audio_buffers p !! other)).
  { unfold bufs0. destruct (audio_buffers p !! sid) eqn:E.
    - split; [by right|]. intros [->|H]; [by rewrite E | done].
    - rewrite lookup_insert_is_Some. split.
      + intros [->|[_ H]]; [by left | by right].
      + intros [->|H]; [by left|].
        destruct (decide (sid = other)) as [->|Hne]; [by left | by right]. }
  assert (H1 : forall buf, is_Some (<[sid := buf]> bufs0 !! other) <->
                           other = sid \/ is_Some (audio_buffers p !! other)).
  { intros buf. rewrite lookup_insert_is_Some, <- H0. split.
    - intros [->|[_ H]]; [|done]. apply H0. by left.
    - intros H. destruct (decide (sid = other)) as [->|Hne]; [by left | by right]. }
  destruct (_ >=? _); [destruct (default [] (bufs0 !! sid))|];
    repeat case_match; simpl; first [exact H0 | apply H1].
Qed.

Lemma step_active sid p c :
  is_Some (audio_buffers (step p c) !! sid) <->
  (exists chunk, c = AddChunk sid chunk) \/
  (is_Some (audio_buffers p !! sid) /\ ~ ends sid c).
Proof.
  unfold ends. destruct c as [s chunk|s clear|s|s|]; simpl.
  - rewrite add_audio_chunk_active. split.
    + intros [->|H]; [left; by exists chunk|].
      right. split; [done|]. intros [?|?]; discriminate.
    + intros [[ch [= -> ->]]|[H _]]; [by left | by right].
  - unfold get_audio_chunks.
    assert (Hk : is_Some (audio_buffers p !! sid) <->
                 (exists chunk, GetChunks s clear = AddChunk sid chunk) \/
                 is_Some (audio_buffers p !! sid) /\
                 ~ (GetChunks s clear = CleanupSession sid \/
                    GetChunks s clear = CleanupAll)).
    { split; [|intros [[? [=]]|[H _]]; done].
      intros H. right. split; [done|]. intros [?|?]; discriminate. }
    destruct (audio_buffers p !! s) eqn:E; simpl; [|exact Hk].
    destruct clear; simpl; [|exact Hk].
    rewrite <- Hk, lookup_insert_is_Some. split.
    + intros [->|[_ H]]; [by rewrite E | done].
    + intros H. destruct (decide (s = sid)) as [->|Hne]; [by left | by right].
  - unfold clear_buffer.
    assert (Hk : is_Some (audio_buffers p !! sid) <->
                 (exists chunk, ClearBuffer s = AddChunk sid chunk) \/
                 is_Some (audio_buffers p !! sid) /\
                 ~ (ClearBuffer s = CleanupSession sid \/ ClearBuffer s = CleanupAll)).
    { split; [|intros [[? [=]]|[H _]]; done].
      intros H. right. split; [done|]. intros [?|?]; discriminate. }
    destruct (audio_buffers p !! s) eqn:E; simpl; [|exact Hk].
    rewrite <- Hk, lookup_insert_is_Some. split.
    + intros [->|[_ H]]; [by rewrite E | done].
    + intros H. destruct (decide (s = sid)) as [->|Hne]; [by left | by right].
  - unfold cleanup_session.
    destruct (audio_buffers p !! s) eqn:E; simpl.
    + rewrite lookup_delete_is_Some. split.
      * intros [Hne H]. right. split; [done|]. intros [[= ->]|[=]]. done.
      * intros [[? [=]]|[H Hn]]. split; [|done]. intros ->. apply Hn. by left.
    + split.
      * intros H. right. split; [done|]. intros [[= ->]|[=]].
        rewrite E in H. by destruct H.
      * intros [[? [=]]|[H _]]. done.
  - rewrite lookup_empty. split.
    + intros [? [=]].
    + intros [[? [=]]|[_ Hn]]. destruct Hn. by right.
Qed.

(** X9. A session has a buffer exactly from its first chunk until it is
    cleaned up: [is_session_active] holds after a sequence of calls if and
    only if a chunk was added for the session and neither its clean-up
    nor the clean-up of all sessions came later.  Reading or clearing the
    buffer does not end the session, and reading an unknown session does
    not start one. *)
Theorem session_active_from_first_chunk (C : Z) (d : float)
        (calls : list call) (sid : string) :
  is_session_active sid (run calls (init C d)) = true <->
  exists before chunk later,
    calls = before ++ AddChunk sid chunk :: later /\
    Forall (fun c => ~ ends sid c) later.
Proof.
  unfold is_session_active. rewrite bool_decide_eq_true.
  induction calls as [|c calls IH] using rev_ind.
  - simpl. rewrite lookup_empty. split.
    + intros [? [=]].
    + intros (before & chunk & later & Heq & _). by destruct before.
  - unfold run. rewrite fold_left_app. simpl. fold (run calls (init C d)).
    rewrite step_active, IH. split.
    + intros [[chunk ->]|[(before & chunk & later & -> & Hl) Hc]].
      * exists calls, chunk, []. split; [done | constructor].
      * exists before, chunk, (later ++ [c]). split.
        -- by rewrite <- app_assoc.
        -- apply Forall_app. split; [done|]. by constructor.
    + intros (before & chunk & later & Heq & Hl).
      destruct later as [|l0 later _] using rev_ind.
      * apply app_inj_tail in Heq as [-> ->]. left. by exists chunk.
      * rewrite app_comm_cons, app_assoc in Heq.
        apply app_inj_tail in Heq as [-> ->].
        apply Forall_app in Hl as [Hl Hc].
        right. split; [by exists before, chunk, later|].
        by inversion Hc.
Qed.

(** *** Reports and the stream callback *)

Lemma sum_sizes_length (chunks : list bytes) :
  sum_sizes chunks = Z.of_nat (length (Py.bytes_join chunks)).
Proof.
  unfold sum_sizes, Py.bytes_join.
  assert (H : forall acc, fold_left (fun a (c : bytes) => a + Z.of_nat (length c))
                                    chunks acc
                          = acc + Z.of_nat (length (concat chunks))).
  { induction chunks as [|c chunks IH]; intros acc; simpl; [lia|].
    rewrite IH, length_app. lia. }
  rewrite H. lia.
Qed.

(** X10. The buffer report agrees with what a read returns: the chunk
    count is the number of chunks a non-clearing read gives, the total
    size is the length of the combined audio, the buffer is reported full
    exactly when it holds at least [buffer_size] chunks, and such reads
    change nothing. *)
Theorem buffer_info_agrees_with_reads (sid : string) (p : AudioStreamProcessor) :
  let info := get_buffer_info sid p in
  chunk_count info = Z.of_nat (length (get_audio_chunks sid false p).1) /\
  total_size info = Z.of_nat (length (get_combined_audio sid false p).1) /\
  (is_full info = true <->
   exists chunks, audio_buffers p !! sid = Some chunks /\
                  buffer_size p <= Z.of_nat (length chunks)) /\
  (get_combined_audio sid false p).2 = p.
Proof.
  unfold get_buffer_info, get_combined_audio, get_audio_chunks.
  destruct (audio_buffers p !! sid) as [chunks|] eqn:E; simpl.
  - split; [done|]. split; [apply sum_sizes_length|]. split; [|done].
    rewrite Z.geb_le. split.
    + intros H. by exists chunks.
    + intros (cs & [= <-] & H). done.
  - split; [done|]. split; [done|]. split; [|done].
    split; [done|]. intros (cs & [=] & _).
Qed.

(** X11. Stream processing hands the callback the most recent chunks of
    the session, joined in arrival order, after the buffer has been
    emptied: when the callback fails the audio is gone, and when there is
    nothing buffered the callback is not run at all.  On success the time
    the callback took is added to [total_audio_duration]. *)
Theorem stream_callback_gets_recent_audio {R} (C : Z) (d : float)
        (ops : list (string * bytes)) (sid : string)
        (callback : bytes -> AudioStreamProcessor
                    -> (R + string) * AudioStreamProcessor)
        (clock : nat -> float) :
  0 < C ->
  let p := (add_all ops (init C d)).2 in
  let audio := Py.bytes_join (Py.last_n (Z.to_nat C) (chunks_for sid ops)) in
  let drained := (get_audio_chunks sid true p).2 in
  default [] (audio_buffers drained !! sid) = [] /\
  (forall other, other <> sid ->
     audio_buffers drained !! other = audio_buffers p !! other) /\
  (audio = [] ->
   process_audio_stream sid callback clock p = (NoAudio sid, drained)) /\
  (audio <> [] ->
   (forall result p2,
      callback audio drained = (inl result, p2) ->
      (process_audio_stream sid callback clock p).1
      = Processed result (clock 1%nat - clock 0%nat)%float
                  (Z.of_nat (length audio)) sid (clock 2%nat) /\
      audio_buffers (process_audio_stream sid callback clock p).2
      = audio_buffers p2 /\
      total_audio_duration (stats (process_audio_stream sid callback clock p).2)
      = (total_audio_duration (stats p2) + (clock 1%nat - clock 0%nat))%float) /\
   (forall error p2,
      callback audio drained = (inr error, p2) ->
      process_audio_stream sid callback clock p
      = (Errored error sid (clock 1%nat), p2))).
Proof.
  intros HC p audio drained.
  destruct (add_all_tracks C d ops HC) as (_ & _ & _ & _ & Hbufs).
  fold p in Hbufs.
  assert (Hread : get_combined_audio sid true p = (audio, drained)).
  { unfold get_combined_audio, drained, audio, get_audio_chunks.
    rewrite (Hbufs sid). by destruct (chunks_for sid ops). }
  split; [|split; [|split]].
  - unfold drained, get_audio_chunks.
    destruct (audio_buffers p !! sid) eqn:E; simpl; [|by rewrite E].
    by rewrite lookup_insert_eq.
  - intros other Hne. unfold drained, get_audio_chunks.
    destruct (audio_buffers p !! sid); simpl; [|done].
    by rewrite lookup_insert_ne.
  - intros Ha. unfold process_audio_stream. rewrite Hread, Ha. reflexivity.
  - intros Ha. unfold process_audio_stream. rewrite Hread.
    destruct audio as [|b audio']; [done|].
    split.
    + intros result p2 ->. repeat split.
    + intros error p2 ->. reflexivity.
Qed.

End AudioProcCalls.


Lemma buffers_stay_within_capacity_witness :
  Z.of_nat (length [AudioProc.chunk_c; AudioProc.chunk_a; AudioProc.chunk_b]) <= 3.
Proof.
  apply (buffers_stay_within_capacity 3 1%float AudioProc.sample_calls "s1").
  - lia.
  - vm_compute. reflexivity.
Defined.

Lemma chunks_are_accounted_for_witness :
  let p := AudioProc.run AudioProc.sample_calls (AudioProc.init 2 1%float) in
  AudioProc.total_chunks_processed (AudioProc.stats p)
  = AudioProc.adds_in AudioProc.sample_calls /\
  AudioProc.adds_in AudioProc.sample_calls
  = AudioProc.buffered p
    + AudioProc.removed_by AudioProc.sample_calls (AudioProc.init 2 1%float)
    + AudioProc.buffer_overflows (AudioProc.stats p) /\
  0 <= AudioProc.buffer_overflows (AudioProc.stats p) /\
  0 <= AudioProc.buffered p.
Proof. apply (chunks_are_accounted_for 2 1%float AudioProc.sample_calls). lia. Defined.

Example sample_calls_counts :
  let p := AudioProc.run AudioProc.sample_calls (AudioProc.init 2 1%float) in
  (AudioProc.adds_in AudioProc.sample_calls, AudioProc.buffered p,
   AudioProc.removed_by AudioProc.sample_calls (AudioProc.init 2 1%float),
   AudioProc.buffer_overflows (AudioProc.stats p)) = (6, 2, 3, 1).
Proof. vm_compute. reflexivity. Qed.

Lemma stream_callback_gets_recent_audio_witness :
  (AudioProc.process_audio_stream "s1"
     (fun audio p => (inl (length audio), p)) (fun n => Py.float_of_Z (Z.of_nat n))
     (AudioProc.add_all AudioProc.sample_appends (AudioProc.init 2 1%float)).2).1
  = AudioProc.Processed 4%nat 1%float 4 "s1" 2%float.
Proof.
  pose proof (stream_callback_gets_recent_audio 2 1%float AudioProc.sample_appends
                "s1" (fun audio p => (inl (length audio), p))
                (fun n => Py.float_of_Z (Z.of_nat n)) ltac:(lia)) as H.
  destruct H as (_ & _ & _ & H).
  destruct H as [H _]; [vm_compute; discriminate|].
  edestruct H as (Hres & _); [reflexivity|].
  exact Hres.
Defined.

(** ** The connection manager over time *)

Section ConnMgrOverTime.
Import ConnMgr.

Abbreviation session_of mgr c := (session_id <$> connection_sessions mgr !! c).

Lemma aligned_init : aligned init.
Proof.
  split; simpl; done.
Qed.

(** Alignment only looks at the keys of the registries, the session id of
    each connection, the session sets and the counters. *)
Lemma aligned_shape mgr mgr' :
  dom (active_connections mgr') = dom (active_connections mgr) ->
  (forall c, session_of mgr' c = session_of mgr c) ->
  session_connections mgr' = session_connections mgr ->
  dom (connection_metadata mgr') = dom (connection_metadata mgr) ->
  stats mgr' = stats mgr ->
  aligned mgr -> aligned mgr'.
Proof.
  intros Ha Hs Hc Hm Hst [A1 A2 A3 A4 A5 A6 A7].
  assert (Hd : dom (connection_sessions mgr') = dom (connection_sessions mgr)).
  { apply set_eq. intros c. rewrite !elem_of_dom.
    specialize (Hs c).
    destruct (connection_sessions mgr' !! c), (connection_sessions mgr !! c);
      simpl in Hs; try discriminate; split; intros [? ?]; done || by eexists. }
  split.
  - by rewrite Hd, Ha.
  - by rewrite Hm, Ha.
  - rewrite Hst, A3.
    rewrite <- (size_dom (active_connections mgr)),
            <- (size_dom (active_connections mgr')), Ha. done.
  - by rewrite Hst, Hc.
  - by rewrite Hst.
  - intros c s. rewrite Hs, Hc. apply A6.
  - intros s members. rewrite Hc. intros H.
    destruct (A7 s members H) as (? & ? & Hall).
    split; [done|]. split; [done|]. intros c Hin. rewrite Hs. by apply Hall.
Qed.

Lemma aligned_active_session mgr c :
  aligned mgr ->
  is_Some (active_connections mgr !! c) <-> is_Some (connection_sessions mgr !! c).
Proof.
  intros [A1 _ _ _ _ _ _]. by rewrite <- !elem_of_dom, A1.
Qed.

Lemma aligned_members_active mgr s members c :
  aligned mgr -> session_connections mgr !! s = Some members -> c ∈ members ->
  is_Some (active_connections mgr !! c).
Proof.
  intros Hal Hs Hin. apply aligned_active_session; [done|].
  destruct Hal as [_ _ _ _ _ _ A7].
  destruct (A7 s members Hs) as (_ & _ & Hall). specialize (Hall c Hin).
  destruct (connection_sessions mgr !! c); [done | discriminate].
Qed.

Lemma size_delete_present {V} (m : gmap string V) c :
  is_Some (m !! c) -> Z.of_nat (size (delete c m)) = Z.of_nat (size m) - 1.
Proof.
  intros H. rewrite map_size_delete_Some by done.
  assert (size m <> 0%nat); [|lia].
  intros Hz. apply map_size_empty_inv in Hz. subst m.
  rewrite lookup_empty in H. by destruct H.
Qed.

Lemma remove_connection_aligned c mgr :
  aligned mgr -> aligned (remove_connection c mgr).2.
Proof.
  intros Hal. pose proof Hal as [A1 A2 A3 A4 A5 A6 A7].
  unfold remove_connection.
  destruct (active_connections mgr !! c) as [ws|] eqn:Hc; [|done].
  assert (Hinfo : is_Some (connection_sessions mgr !! c)).
  { apply aligned_active_session; [done | by rewrite Hc]. }
  destruct Hinfo as [info Hinfo]. rewrite Hinfo. simpl.
  destruct (A6 c (session_id info)) as (Hne & members & Hmem & Hin);
    [by rewrite Hinfo|].
  rewrite bool_decide_eq_false_2 by done. rewrite Hmem. simpl.
  assert (Hothers : forall s' members' c',
            s' <> session_id info -> session_connections mgr !! s' = Some members' ->
            c' ∈ members' -> c' <> c).
  { intros s' members' c' Hs' Hm' Hc' ->.
    destruct (A7 s' members' Hm') as (_ & _ & Hall).
    specialize (Hall c Hc'). rewrite Hinfo in Hall. simpl in Hall. congruence. }
  assert (Hmd : is_Some (connection_metadata mgr !! c)).
  { rewrite <- elem_of_dom, A2, elem_of_dom. by rewrite Hc. }
  destruct (set_discard c members) as [|m0 rest] eqn:Hdis.
  - split; simpl.
    + by rewrite !dom_delete_L, A1.
    + by rewrite !dom_delete_L, A2.
    + rewrite size_delete_present by (by rewrite Hc). lia.
    + rewrite size_delete_present by (by rewrite Hmem). lia.
    + lia.
    + intros c' s'. destruct (decide (c' = c)) as [->|Hcc].
      { by rewrite lookup_delete_eq. }
      rewrite lookup_delete_ne by done. intros Hs'.
      destruct (A6 c' s' Hs') as (Hne' & members' & Hm' & Hin').
      split; [done|]. exists members'. split; [|done].
      rewrite lookup_delete_ne; [done|]. intros <-.
      assert (members' = members) as -> by congruence.
      assert (c' ∈ set_discard c members) as Hx.
      { apply list_elem_of_filter. done. }
      rewrite Hdis in Hx. by apply elem_of_nil in Hx.
    + intros s' members'. destruct (decide (s' = session_id info)) as [->|Hss].
      { by rewrite lookup_delete_eq. }
      rewrite lookup_delete_ne by done. intros Hm'.
      destruct (A7 s' members' Hm') as (? & ? & Hall).
      split; [done|]. split; [done|]. intros c' Hc'.
      rewrite lookup_delete_ne; [by apply Hall|].
      intros <-. by apply (Hothers s' members' c).
  - split; simpl.
    + by rewrite !dom_delete_L, A1.
    + by rewrite !dom_delete_L, A2.
    + rewrite size_delete_present by (by rewrite Hc). lia.
    + rewrite map_size_insert_Some by (by rewrite Hmem). lia.
    + lia.
    + intros c' s'. destruct (decide (c' = c)) as [->|Hcc].
      { by rewrite lookup_delete_eq. }
      rewrite lookup_delete_ne by done. intros Hs'.
      destruct (A6 c' s' Hs') as (Hne' & members' & Hm' & Hin').
      split; [done|].
      destruct (decide (s' = session_id info)) as [->|Hss].
      * rewrite lookup_insert_eq. eexists. split; [done|].
        assert (members' = members) as -> by congruence.
        rewrite <- Hdis. apply list_elem_of_filter. done.
      * rewrite lookup_insert_ne by done. by exists members'.
    + intros s' members'. destruct (decide (s' = session_id info)) as [->|Hss].
      * rewrite lookup_insert_eq. intros [= <-].
        destruct (A7 _ members Hmem) as (_ & Hnd & Hall).
        split; [done|]. split.
        { rewrite <- Hdis. by apply NoDup_filter. }
        intros c' Hc'. rewrite <- Hdis in Hc'.
        apply list_elem_of_filter in Hc' as [Hcc Hc'].
        rewrite lookup_delete_ne by done. by apply Hall.
      * rewrite lookup_insert_ne by done. intros Hm'.
        destruct (A7 s' members' Hm') as (? & ? & Hall).
        split; [done|]. split; [done|]. intros c' Hc'.
        rewrite lookup_delete_ne; [by apply Hall|].
        intros <-. by apply (Hothers s' members' c).
Qed.

Lemma bump_first_session members infos c :
  session_id <$> bump_first members infos !! c = session_id <$> infos !! c.
Proof.
  induction members as [|m members IH]; simpl; [done|].
  destruct (infos !! m) as [info|] eqn:E; [|exact IH].
  destruct (decide (c = m)) as [->|Hne].
  - by rewrite lookup_insert_eq, E.
  - by rewrite lookup_insert_ne.
Qed.

Lemma set_add_fresh c members : c ∉ members -> set_add c members = members ++ [c].
Proof. intros H. unfold set_add. by rewrite bool_decide_eq_false_2. Qed.

Lemma add_connection_aligned c s ws user now mgr :
  active_connections mgr !! c = None -> s <> "" ->
  aligned mgr -> aligned (add_connection c s ws user now mgr).2.
Proof.
  intros Hfresh Hs Hal. pose proof Hal as [A1 A2 A3 A4 A5 A6 A7].
  unfold add_connection. destruct (on_accept ws); [done|].
  set (info0 := {| session_id := s; user_id := user; connected_at := now;
                   last_activity := now; audio_chunks_received := 0;
                   transcriptions_sent := 0; connection_count := 1 |}).
  set (infos' := match session_connections mgr !! s with
                 | Some members =>
                     bump_first members (<[c := info0]> (connection_sessions mgr))
                 | None => <[c := info0]> (connection_sessions mgr)
                 end).
  assert (Hshape : forall k, session_id <$> infos' !! k
                             = session_id <$> <[c := info0]> (connection_sessions mgr) !! k).
  { intros k. unfold infos'. destruct (session_connections mgr !! s); [|done].
    apply bump_first_session. }
  assert (Hnoinfo : connection_sessions mgr !! c = None).
  { apply eq_None_not_Some. intros H.
    apply aligned_active_session in H; [|done]. rewrite Hfresh in H. by destruct H. }
  assert (Hnomd : connection_metadata mgr !! c = None).
  { apply not_elem_of_dom. rewrite A2. by apply not_elem_of_dom. }
  assert (Hold : forall s' members' c', session_connections mgr !! s' = Some members' ->
                                        c' ∈ members' -> c' <> c).
  { intros s' members' c' Hm' Hc' ->.
    destruct (aligned_members_active mgr s' members' c Hal Hm' Hc') as [? H].
    congruence. }
  assert (Hdom : dom infos' = {[c]} ∪ dom (connection_sessions mgr)).
  { rewrite <- dom_insert_L with (x := info0).
    apply set_eq. intros k. rewrite !elem_of_dom.
    specialize (Hshape k).
    destruct (infos' !! k), (<[c:=info0]> (connection_sessions mgr) !! k);
      simpl in Hshape; try discriminate; split; intros [? ?]; done || by eexists. }
  assert (Hsess : forall k,
            session_id <$> infos' !! k
            = if decide (k = c) then Some s else session_of mgr k).
  { intros k. rewrite Hshape. case_decide as Hk.
    - subst k. by rewrite lookup_insert_eq.
    - by rewrite lookup_insert_ne. }
  assert (Hset : set_add c (default [] (session_connections mgr !! s))
                 = default [] (session_connections mgr !! s) ++ [c]).
  { apply set_add_fresh. destruct (session_connections mgr !! s) eqn:E; simpl.
    - intros Hin. by apply (Hold s l c E Hin).
    - apply not_elem_of_nil. }
  split; simpl; fold info0; fold infos'.
  - rewrite Hdom, dom_insert_L, A1. done.
  - rewrite !dom_insert_L, A2. done.
  - rewrite map_size_insert_None by done. lia.
  - destruct (session_connections mgr !! s) eqn:E.
    + rewrite map_size_insert_Some by (by rewrite E). lia.
    + rewrite map_size_insert_None by done. lia.
  - destruct (session_connections mgr !! s); lia.
  - intros k s'. rewrite Hsess. case_decide as Hk.
    + subst k. intros [= <-]. split; [done|].
      rewrite lookup_insert_eq. eexists. split; [done|].
      rewrite Hset. apply elem_of_app. right. left.
    + intros Hs'. destruct (A6 k s' Hs') as (Hne & members & Hm & Hin).
      split; [done|].
      destruct (decide (s' = s)) as [->|Hss].
      * rewrite lookup_insert_eq. eexists. split; [done|].
        rewrite Hset, Hm. simpl. apply elem_of_app. by left.
      * rewrite lookup_insert_ne by done. by exists members.
  - intros s' members'. destruct (decide (s' = s)) as [->|Hss].
    + rewrite lookup_insert_eq. intros [= <-]. rewrite Hset.
      split; [by destruct (default [] _)|]. split.
      * apply NoDup_app. split; [|split].
        -- destruct (session_connections mgr !! s) eqn:E; simpl; [|constructor].
           by destruct (A7 s l E) as (_ & ? & _).
        -- intros k Hk Hk'. apply list_elem_of_singleton in Hk'. subst k.
           destruct (session_connections mgr !! s) eqn:E; simpl in Hk.
           ++ by apply (Hold s l c E Hk).
           ++ by apply elem_of_nil in Hk.
        -- apply NoDup_singleton.
      * intros k Hk. rewrite Hsess. case_decide as Hkc; [done|].
        apply elem_of_app in Hk as [Hk|Hk].
        -- destruct (session_connections mgr !! s) eqn:E; simpl in Hk.
           ++ destruct (A7 s l E) as (_ & _ & Hall). by apply Hall.
           ++ by apply elem_of_nil in Hk.
        -- apply list_elem_of_singleton in Hk. done.
    + rewrite lookup_insert_ne by done. intros Hm'.
      destruct (A7 s' members' Hm') as (? & ? & Hall).
      split; [done|]. split; [done|]. intros k Hk. rewrite Hsess.
      rewrite decide_False; [by apply Hall|]. by apply (Hold s' members').
Qed.

Lemma send_message_aligned c msg now mgr :
  aligned mgr -> aligned (send_message c msg now mgr).2.
Proof.
  intros Hal. unfold send_message.
  destruct (active_connections mgr !! c) as [ws|] eqn:Hc; [|done].
  destruct (on_send ws) as [|[| |]]; simpl; try done.
  - eapply aligned_shape; [..|exact Hal]; simpl; try done.
    + apply dom_insert_lookup_L. by rewrite Hc.
    + intros k. destruct (connection_sessions mgr !! c) as [info|] eqn:E; [|done].
      destruct (decide (k = c)) as [->|Hne].
      * by rewrite lookup_insert_eq, E.
      * by rewrite lookup_insert_ne.
  - by apply remove_connection_aligned.
Qed.

Lemma broadcast_loop_aligned s msg now used pending n mgr :
  aligned mgr -> aligned (broadcast_loop s msg now used pending n mgr).2.
Proof.
  revert n mgr. induction pending as [|c pending IH]; intros n mgr Hal; simpl.
  - by case_decide.
  - case_decide; [|done].
    pose proof (send_message_aligned c msg now mgr Hal) as Hal'.
    destruct (send_message c msg now mgr) as [ok mgr']. by apply IH.
Qed.

Lemma sweep_aligned items now timeout mgr :
  aligned mgr -> aligned (cleanup_inactive_connections items now timeout mgr).2.
Proof.
  intros Hal. unfold cleanup_inactive_connections.
  apply (fold_left_invariant (fun acc : Z * ConnectionManager => aligned acc.2));
    [done|].
  intros acc c _ Hacc. simpl. by apply remove_connection_aligned.
Qed.

Lemma apply_event_aligned mgr e :
  allowed mgr e -> aligned mgr -> aligned (apply_event mgr e).
Proof.
  destruct e as [c s ws user now|c|c msg now|s msg now|items now timeout];
    simpl; intros Hallowed Hal.
  - destruct Hallowed. by apply add_connection_aligned.
  - by apply remove_connection_aligned.
  - by apply send_message_aligned.
  - unfold broadcast_to_session.
    destruct (session_connections mgr !! s) as [members|]; [|done].
    pose proof (broadcast_loop_aligned s msg now (length members) members 0 mgr Hal).
    by destruct (broadcast_loop s msg now (length members) members 0 mgr) as [[? ?] ?].
  - by apply sweep_aligned.
Qed.

Lemma reachable_aligned mgr : reachable mgr -> aligned mgr.
Proof.
  induction 1 as [|mgr e _ IH Hallowed]; [apply aligned_init|].
  by apply apply_event_aligned.
Qed.

Lemma three_connections_reachable : reachable three_connections.
Proof.
  unfold three_connections.
  repeat (apply reachable_step; [|vm_compute; split; [reflexivity | discriminate]]).
  apply reachable_init.
Qed.

(** X12. The counters the manager reports are the sizes of its
    registries: in every state it can reach, the number of active
    connections in [stats] is [get_connection_count], the number of active
    sessions is [get_session_count], and neither exceeds its running
    total. *)
Theorem counters_match_registries (mgr : ConnectionManager) :
  reachable mgr ->
  stat_active_connections (stats mgr) = get_connection_count mgr /\
  active_sessions (stats mgr) = get_session_count mgr /\
  get_connection_count mgr <= total_connections (stats mgr) /\
  get_session_count mgr <= total_sessions (stats mgr).
Proof.
  intros Hr. destruct (reachable_aligned mgr Hr) as [_ _ A3 A4 A5 _ _].
  unfold get_connection_count, get_session_count. lia.
Qed.

(** X13. The registries stay aligned.  In every reachable state a
    connection is active exactly when [get_connection_info] knows it, and
    then its info carries its metadata and its session reports it among
    its connections; every session that [get_session_info] reports has at
    least one connection, lists each once, lists only active connections,
    and describes itself by the info of one of them. *)
Theorem registries_stay_aligned (mgr : ConnectionManager) :
  reachable mgr ->
  (forall c,
      is_connection_active c mgr = true <->
      exists info report,
        get_connection_info c mgr = Some info /\
        is_Some (ci_user_agent info) /\
        get_session_info (ci_session_id info) mgr = Some report /\
        c ∈ sr_connections report) /\
  (forall s report,
      get_session_info s mgr = Some report ->
      1 <= sr_connection_count report /\
      NoDup (sr_connections report) /\
      (forall c, c ∈ sr_connections report -> is_connection_active c mgr = true) /\
      exists info, sr_session_info report = Some info /\ ci_session_id info = s).
Proof.
  intros Hr. pose proof (reachable_aligned mgr Hr) as Hal.
  pose proof Hal as [A1 A2 A3 A4 A5 A6 A7].
  split.
  - intros c. unfold is_connection_active. rewrite bool_decide_eq_true. split.
    + intros Hact.
      assert (Hinfo : is_Some (connection_sessions mgr !! c))
        by by apply aligned_active_session.
      destruct Hinfo as [info Hinfo].
      assert (Hmd : is_Some (connection_metadata mgr !! c)).
      { by rewrite <- elem_of_dom, A2, elem_of_dom. }
      destruct Hmd as [md Hmd].
      destruct (A6 c (session_id info)) as (_ & members & Hm & Hin);
        [by rewrite Hinfo|].
      unfold get_connection_info. rewrite Hinfo, Hmd.
      eexists _, _. split; [reflexivity|]. simpl.
      split; [done|]. unfold get_session_info. rewrite Hm.
      split; [reflexivity | exact Hin].
    + intros (info & report & Hinfo & _). unfold get_connection_info in Hinfo.
      apply aligned_active_session; [done|].
      by destruct (connection_sessions mgr !! c).
  - intros s report. unfold get_session_info.
    destruct (session_connections mgr !! s) as [members|] eqn:Hm; [|done].
    intros [= <-]. simpl.
    destruct (A7 s members Hm) as (Hne & Hnd & Hall).
    split; [destruct members; [done | simpl; lia]|].
    split; [done|]. split.
    + intros c Hc. unfold is_connection_active. apply bool_decide_eq_true.
      by apply (aligned_members_active mgr s members).
    + destruct members as [|first rest]; [done|].
      specialize (Hall first ltac:(left)).
      unfold get_connection_info.
      destruct (connection_sessions mgr !! first) as [info|]; [|done].
      simpl in Hall. eexists. split; [reflexivity|]. simpl. congruence.
Qed.

(** X14. A connection that comes and goes leaves nothing behind but the
    running totals: registering a connection under unused ids and removing
    it again returns its session id and restores every registry and the
    active counters. *)
Theorem add_then_remove_restores (mgr : ConnectionManager) (c s : string)
        (ws : WebSocket) (user : option string) (now : float) :
  reachable mgr ->
  active_connections mgr !! c = None ->
  session_connections mgr !! s = None -> s <> "" ->
  on_accept ws = None ->
  let added := (add_connection c s ws user now mgr).2 in
  let removed := remove_connection c added in
  is_connection_active c added = true /\
  removed.1 = Some s /\
  active_connections removed.2 = active_connections mgr /\
  connection_sessions removed.2 = connection_sessions mgr /\
  session_connections removed.2 = session_connections mgr /\
  connection_metadata removed.2 = connection_metadata mgr /\
  stat_active_connections (stats removed.2) = stat_active_connections (stats mgr) /\
  active_sessions (stats removed.2) = active_sessions (stats mgr) /\
  total_connections (stats removed.2) = total_connections (stats mgr) + 1 /\
  total_sessions (stats removed.2) = total_sessions (stats mgr) + 1.
Proof.
  intros Hr Hc Hs Hne Hacc added removed.
  pose proof (reachable_aligned mgr Hr) as Hal.
  pose proof Hal as [A1 A2 _ _ _ _ _].
  assert (Hnoinfo : connection_sessions mgr !! c = None).
  { apply eq_None_not_Some. intros H.
    apply aligned_active_session in H; [|done]. rewrite Hc in H. by destruct H. }
  assert (Hnomd : connection_metadata mgr !! c = None).
  { apply not_elem_of_dom. rewrite A2. by apply not_elem_of_dom. }
  unfold removed, added, add_connection, remove_connection, is_connection_active.
  rewrite Hacc, Hs. simpl.
  rewrite !lookup_insert_eq. simpl.
  rewrite bool_decide_eq_false_2 by done.
  rewrite lookup_insert_eq. simpl.
  unfold set_add. simpl. unfold set_discard. simpl.
  assert (Hf : filter (fun y : string => y <> c) [c] = []).
  { rewrite filter_cons. by rewrite decide_False by (intros H; by apply H). }
  rewrite Hf. simpl.
  rewrite !delete_insert_id by done.
  repeat split; try done; lia.
Qed.

(** *** Broadcasting to healthy connections *)

Lemma broadcast_loop_healthy s msg now used pending n mgr :
  length (default [] (session_connections mgr !! s)) = used ->
  NoDup pending ->
  (forall c, c ∈ pending ->
             exists ws, active_connections mgr !! c = Some ws /\ on_send ws = SendOk) ->
  let r := broadcast_loop s msg now used pending n mgr in
  r.1 = (None, n + Z.of_nat (length pending)) /\
  (forall c, active_connections r.2 !! c
             = if decide (c ∈ pending)
               then deliver msg <$> active_connections mgr !! c
               else active_connections mgr !! c) /\
  session_connections r.2 = session_connections mgr /\
  connection_metadata r.2 = connection_metadata mgr /\
  stats r.2 = stats mgr /\
  (forall c, session_of r.2 c = session_of mgr c).
Proof.
  revert n mgr. induction pending as [|c0 pending IH]; intros n mgr Hused Hnd Hok.
  - cbv zeta. simpl. rewrite decide_True by done. simpl.
    split; [f_equal; lia | done].
  - apply NoDup_cons in Hnd as [Hc0 Hnd].
    destruct (Hok c0 ltac:(left)) as (ws0 & Hws0 & Hsend0).
    pose (mgr1 := {| active_connections :=
                       <[c0 := deliver msg ws0]> (active_connections mgr);
                     connection_sessions :=
                       match connection_sessions mgr !! c0 with
                       | Some info =>
                           <[c0 := touch now info]> (connection_sessions mgr)
                       | None => connection_sessions mgr
                       end;
                     session_connections := session_connections mgr;
                     connection_metadata := connection_metadata mgr;
                     stats := stats mgr |}).
    assert (Hsend : send_message c0 msg now mgr = (true, mgr1)).
    { unfold send_message. by rewrite Hws0, Hsend0. }
    cbv zeta. simpl. rewrite decide_True by done. rewrite Hsend.
    assert (Hsess1 : forall c, session_of mgr1 c = session_of mgr c).
    { intros c. simpl.
      destruct (connection_sessions mgr !! c0) as [info|] eqn:E; [|done].
      destruct (decide (c = c0)) as [->|Hne].
      - by rewrite lookup_insert_eq, E.
      - by rewrite lookup_insert_ne. }
    destruct (IH (n + 1) mgr1) as (Hres & Hact & Hsc & Hmd & Hst & Hso);
      [exact Hused | exact Hnd | |].
    { intros c Hc. destruct (Hok c ltac:(by right)) as (ws & Hws & Hsnd).
      exists ws. split; [|done]. simpl.
      rewrite lookup_insert_ne; [done|]. intros ->. done. }
    split; [rewrite Hres; f_equal; simpl length; lia|].
    split; [|split; [done|split; [done|split; [done|]]]].
    + intros c. rewrite Hact. simpl.
      destruct (decide (c = c0)) as [->|Hne].
      * rewrite decide_False by done. rewrite decide_True by left.
        by rewrite lookup_insert_eq, Hws0.
      * rewrite lookup_insert_ne by done.
        destruct (decide (c ∈ pending)) as [Hin|Hnin].
        -- by rewrite decide_True by by right.
        -- rewrite decide_False; [done|].
           intros Hin. apply elem_of_cons in Hin as [?|?]; done.
    + intros c. by rewrite Hso, Hsess1.
Qed.

(** X15. A broadcast to a session whose connections all accept the
    message reaches each of them exactly once and nobody else, returns
    their number, and changes neither the registries nor the counters. *)
Theorem broadcast_reaches_every_member (mgr : ConnectionManager)
        (s msg : string) (now : float) (members : list string) :
  reachable mgr ->
  session_connections mgr !! s = Some members ->
  (forall c ws, c ∈ members -> active_connections mgr !! c = Some ws ->
                on_send ws = SendOk) ->
  let r := broadcast_to_session s msg now mgr in
  r.1 = Z.of_nat (length members) /\
  (forall c ws,
      active_connections mgr !! c = Some ws ->
      active_connections r.2 !! c
      = Some (if decide (c ∈ members) then deliver msg ws else ws)) /\
  dom (active_connections r.2) = dom (active_connections mgr) /\
  session_connections r.2 = session_connections mgr /\
  stats r.2 = stats mgr.
Proof.
  intros Hr Hm Hok r.
  pose proof (reachable_aligned mgr Hr) as Hal.
  destruct (al_session mgr Hal s members Hm) as (_ & Hnd & _).
  destruct (broadcast_loop_healthy s msg now (length members) members 0 mgr)
    as (Hres & Hact & Hsc & _ & Hst & _).
  { by rewrite Hm. }
  { exact Hnd. }
  { intros c Hc.
    destruct (aligned_members_active mgr s members c Hal Hm Hc) as [ws Hws].
    exists ws. split; [done|]. by apply (Hok c). }
  unfold r, broadcast_to_session. rewrite Hm.
  destruct (broadcast_loop s msg now (length members) members 0 mgr)
    as [[e n] mgr'] eqn:E.
  simpl in *. injection Hres as _ ->.
  split; [lia|]. split; [|split; [|done]].
  - intros c ws Hws. rewrite Hact, Hws. by case_decide.
  - apply set_eq. intros c. rewrite !elem_of_dom, Hact.
    case_decide; [|done]. by rewrite fmap_is_Some.
Qed.

(** *** The idle sweep *)

Lemma remove_connection_sessions c mgr :
  aligned mgr ->
  connection_sessions (remove_connection c mgr).2
  = delete c (connection_sessions mgr).
Proof.
  intros Hal. unfold remove_connection.
  destruct (active_connections mgr !! c) eqn:E; simpl.
  - by repeat case_match.
  - rewrite delete_id; [done|].
    apply eq_None_not_Some. intros H.
    apply aligned_active_session in H; [|done]. rewrite E in H. by destruct H.
Qed.

Lemma remove_all_lookup (cs : list string) (n : Z) mgr :
  aligned mgr ->
  let r := fold_left
             (fun (acc : Z * ConnectionManager) c =>
                (acc.1 + 1, (remove_connection c acc.2).2))
             cs (n, mgr) in
  r.1 = n + Z.of_nat (length cs) /\
  forall c,
    active_connections r.2 !! c
    = (if decide (c ∈ cs) then None else active_connections mgr !! c) /\
    connection_sessions r.2 !! c
    = (if decide (c ∈ cs) then None else connection_sessions mgr !! c).
Proof.
  revert n mgr. induction cs as [|c0 cs IH]; intros n mgr Hal; simpl.
  - split; [lia|]. intros c. by split.
  - destruct (IH (n + 1) (remove_connection c0 mgr).2) as [Hn Hlook];
      [by apply remove_connection_aligned|].
    split; [rewrite Hn; simpl length; lia|].
    intros c. destruct (Hlook c) as [Ha Hs].
    rewrite Ha, Hs, remove_connection_active.
    rewrite (remove_connection_sessions c0 mgr Hal).
    destruct (decide (c = c0)) as [->|Hne].
    + rewrite !lookup_delete_eq.
      destruct (decide (c0 ∈ c0 :: cs)) as [_|Hn']; [|destruct Hn'; left].
      by destruct (decide (c0 ∈ cs)).
    + rewrite !lookup_delete_ne by done.
      destruct (decide (c ∈ cs)) as [Hin|Hnin];
        destruct (decide (c ∈ c0 :: cs)) as [Hin'|Hnin']; try done.
      * destruct Hnin'. by right.
      * apply elem_of_cons in Hin' as [?|?]; done.
Qed.

(** X16. The idle sweep removes exactly the idle connections: a connection
    is active afterwards if and only if it was active before and its last
    activity is not older than the timeout; the survivors keep their
    session info, and the number returned is the number of idle
    connections. *)
Theorem sweep_removes_exactly_the_idle (mgr : ConnectionManager)
        (items : list (string * SessionInfo)) (current_time timeout : float) :
  reachable mgr ->
  lists_sessions items mgr ->
  let r := cleanup_inactive_connections items current_time timeout mgr in
  let idle c := exists info, connection_sessions mgr !! c = Some info /\
                             is_inactive current_time timeout info = true in
  r.1 = Z.of_nat (length (filter (fun item : string * SessionInfo =>
                                    is_inactive current_time timeout item.2 = true)
                                 items)) /\
  (forall c, is_connection_active c r.2 = true <->
             is_connection_active c mgr = true /\ ~ idle c) /\
  (forall c, ~ idle c ->
             active_connections r.2 !! c = active_connections mgr !! c /\
             connection_sessions r.2 !! c = connection_sessions mgr !! c).
Proof.
  intros Hr [Hnd Hitems] r idle.
  pose proof (reachable_aligned mgr Hr) as Hal.
  set (cs := (filter (fun item : string * SessionInfo =>
                        is_inactive current_time timeout item.2 = true) items).*1).
  assert (Hcs : forall c, c ∈ cs <-> idle c).
  { intros c. unfold cs, idle. rewrite list_elem_of_fmap. split.
    - intros ([c' info] & -> & Hin). apply list_elem_of_filter in Hin as [Hi Hin].
      exists info. split; [by apply Hitems | done].
    - intros (info & Hinfo & Hi). exists (c, info). split; [done|].
      apply list_elem_of_filter. split; [done | by apply Hitems]. }
  destruct (remove_all_lookup cs 0 mgr Hal) as [Hn Hlook].
  change (fold_left _ cs (0, mgr)) with r in Hn, Hlook.
  split; [|split].
  - rewrite Hn. unfold cs. rewrite length_fmap. lia.
  - intros c. unfold is_connection_active. rewrite !bool_decide_eq_true.
    destruct (Hlook c) as [-> _]. case_decide as Hc.
    + split; [by intros [? ?]|]. intros [_ Hn']. destruct Hn'. by apply Hcs.
    + split; [|by intros [? _]]. intros H. split; [done|]. by rewrite <- Hcs.
  - intros c Hc. destruct (Hlook c) as [-> ->].
    destruct (decide (c ∈ cs)) as [Hin|_]; [|done].
    destruct Hc. by apply Hcs.
Qed.

End ConnMgrOverTime.

Lemma counters_match_registries_witness :
  ConnMgr.stat_active_connections (ConnMgr.stats ConnMgr.three_connections)
  = ConnMgr.get_connection_count ConnMgr.three_connections /\
  ConnMgr.active_sessions (ConnMgr.stats ConnMgr.three_connections)
  = ConnMgr.get_session_count ConnMgr.three_connections /\
  ConnMgr.get_connection_count ConnMgr.three_connections
  <= ConnMgr.total_connections (ConnMgr.stats ConnMgr.three_connections) /\
  ConnMgr.get_session_count ConnMgr.three_connections
  <= ConnMgr.total_sessions (ConnMgr.stats ConnMgr.three_connections).
Proof.
  apply counters_match_registries. exact three_connections_reachable.
Defined.

Lemma registries_stay_aligned_witness :
  ConnMgr.is_connection_active "conn-b" ConnMgr.three_connections = true <->
  exists info report,
    ConnMgr.get_connection_info "conn-b" ConnMgr.three_connections = Some info /\
    is_Some (ConnMgr.ci_user_agent info) /\
    ConnMgr.get_session_info (ConnMgr.ci_session_id info) ConnMgr.three_connections
    = Some report /\
    "conn-b" ∈ ConnMgr.sr_connections report.
Proof.
  apply (registries_stay_aligned ConnMgr.three_connections).
  exact three_connections_reachable.
Defined.

Lemma add_then_remove_restores_witness :
  let added := (ConnMgr.add_connection "conn-d" "session-3" ConnMgr.healthy_socket
                  None 300%float ConnMgr.three_connections).2 in
  (ConnMgr.remove_connection "conn-d" added).1 = Some "session-3" /\
  ConnMgr.session_connections (ConnMgr.remove_connection "conn-d" added).2
  = ConnMgr.session_connections ConnMgr.three_connections.
Proof.
  pose proof (add_then_remove_restores ConnMgr.three_connections "conn-d"
                "session-3" ConnMgr.healthy_socket None 300%float
                three_connections_reachable) as H.
  destruct H as (_ & H1 & _ & _ & H2 & _);
    [vm_compute; reflexivity | vm_compute; reflexivity | discriminate
    | reflexivity |].
  split; [exact H1 | exact H2].
Defined.

Lemma broadcast_reaches_every_member_witness :
  (ConnMgr.broadcast_to_session "session-1" "hello" 260%float
     ConnMgr.three_connections).1 = 2.
Proof.
  pose proof (broadcast_reaches_every_member ConnMgr.three_connections
                "session-1" "hello" 260%float ["conn-a"; "conn-b"]
                three_connections_reachable) as H.
  destruct H as (H & _).
  - vm_compute. reflexivity.
  - intros c ws Hc.
    apply elem_of_cons in Hc as [->|Hc];
      [|apply elem_of_cons in Hc as [->|Hc]; [|by apply elem_of_nil in Hc]];
      vm_compute; intros [= <-]; reflexivity.
  - exact H.
Defined.

Lemma sweep_removes_exactly_the_idle_witness :
  (ConnMgr.cleanup_inactive_connections
     [("conn-a", {| ConnMgr.session_id := "session-1"; ConnMgr.user_id := None;
                    ConnMgr.connected_at := 1; ConnMgr.last_activity := 1;
                    ConnMgr.audio_chunks_received := 0;
                    ConnMgr.transcriptions_sent := 0;
                    ConnMgr.connection_count := 2 |});
      ("conn-b", {| ConnMgr.session_id := "session-1";
                    ConnMgr.user_id := Some "user-7";
                    ConnMgr.connected_at := 2; ConnMgr.last_activity := 2;
                    ConnMgr.audio_chunks_received := 0;
                    ConnMgr.transcriptions_sent := 0;
                    ConnMgr.connection_count := 1 |});
      ("conn-c", {| ConnMgr.session_id := "session-2"; ConnMgr.user_id := None;
                    ConnMgr.connected_at := 250; ConnMgr.last_activity := 250;
                    ConnMgr.audio_chunks_received := 0;
                    ConnMgr.transcriptions_sent := 0;
                    ConnMgr.connection_count := 1 |})]
     400%float 300%float ConnMgr.three_connections).1 = 2.
Proof.
  match goal with
  | |- (ConnMgr.cleanup_inactive_connections ?items _ _ _).1 = _ =>
      pose proof (sweep_removes_exactly_the_idle ConnMgr.three_connections items
                    400%float 300%float three_connections_reachable) as H
  end.
  destruct H as (H & _).
  - assert (Hnd : NoDup ["conn-a"; "conn-b"; "conn-c"]).
    { apply (bool_decide_unpack _). vm_compute. exact I. }
    split; [exact Hnd|].
    intros c info.
    match goal with
    | |- (_, _) ∈ ?items <-> _ =>
        assert (Hmap : ConnMgr.connection_sessions ConnMgr.three_connections
                       = list_to_map items) by (vm_compute; reflexivity)
    end.
    rewrite Hmap. apply elem_of_list_to_map. exact Hnd.
  - rewrite H. vm_compute. reflexivity.
Defined.

(** ** The Kafka bridge over sequences of calls *)

Section KafkaStreams.
Import Kafka.
Variable avro_write_chunk : AudioChunk -> option bytes.
Variable avro_read_chunk : bytes -> option AudioChunk.
Variable avro_write_result : TranscriptionResult -> option bytes.

Abbreviation process_chunk :=
  (_process_audio_chunk avro_write_chunk avro_write_result).
Abbreviation send_result :=
  (_send_transcription_result avro_write_chunk avro_write_result).
Abbreviation send_one := (send avro_write_chunk avro_write_result).
Abbreviation send_seq := (send_all avro_write_chunk avro_write_result).
Abbreviation consume_one :=
  (consume_message avro_write_chunk avro_read_chunk avro_write_result).
Abbreviation consume_seq :=
  (_process_audio_streams avro_write_chunk avro_read_chunk avro_write_result).
Abbreviation run_calls :=
  (run avro_write_chunk avro_read_chunk avro_write_result).
Abbreviation step_call :=
  (step avro_write_chunk avro_read_chunk avro_write_result).
Abbreviation replies_of :=
  (engine_replies avro_write_chunk avro_read_chunk avro_write_result).

(** Sending a result only touches the producer. *)
Lemma send_result_frame result svc :
  processing_stats (send_result result svc) = processing_stats svc /\
  monitor (send_result result svc) = monitor svc /\
  active_sessions (send_result result svc) = active_sessions svc /\
  processed (send_result result svc) = processed svc /\
  audio_topic (send_result result svc) = audio_topic svc /\
  transcription_topic (send_result result svc) = transcription_topic svc /\
  (producer svc = None -> producer (send_result result svc) = None) /\
  (forall prod, producer svc = Some prod -> broker_up prod = true ->
     producer (send_result result svc)
     = Some {| broker_up := true;
               log := log prod ++ [(transcription_topic svc, r_session_id result,
                                    [])] |}).
Proof.
  unfold _send_transcription_result.
  destruct (producer svc) as [prod|] eqn:Hp; [|repeat split; done].
  unfold producer_send. destruct (broker_up prod) eqn:Hup; simpl.
  - repeat split; try done. intros prod' [= <-] _. done.
  - repeat split; try done. intros prod' [= <-] Hup'. congruence.
Qed.

(** What one processing step does to the counters, by the engine's
    reply. *)
Lemma process_chunk_counts env chunk svc :
  let svc' := process_chunk env chunk svc in
  let st := processing_stats svc in
  let st' := processing_stats svc' in
  processed svc' = processed svc ++ [chunk] /\
  dom (active_sessions svc') = dom (active_sessions svc) /\
  (forall s, sent_count s svc' = sent_count s svc) /\
  (producer svc = None -> producer svc' = None) /\
  match reply env with
  | Engine.Raises _ =>
      st' = st /\ monitor svc' = monitor svc /\
      active_sessions svc' = active_sessions svc
  | Engine.Returns result =>
      let failed := bool_decide (is_Some (Engine.error result)) in
      total_chunks_processed st' = total_chunks_processed st + 1 /\
      successful_transcriptions st'
      = successful_transcriptions st + (if failed then 0 else 1) /\
      failed_transcriptions st'
      = failed_transcriptions st + (if failed then 1 else 0) /\
      monitor svc'
      = Monitor.record_model_performance (utc_now env) "whisper_kafka"
          (default 0%float (Engine.confidence result))
          (default 0%float (Engine.confidence result))
          (elapsed env) failed (monitor svc) /\
      forall s, processed_count s svc'
                = processed_count s svc
                  + (if decide (s = session_id chunk)
                     then (if active_sessions svc !! s is Some _ then 1 else 0)
                     else 0)
  end.
Proof.
  intros svc' st st'.
  split; [apply process_audio_chunk_processed|].
  subst st' st svc'. unfold _process_audio_chunk.
  destruct (reply env) as [result|message]; cbv zeta; simpl.
  - match goal with
    | |- context [send_result ?r ?s] =>
        destruct (send_result_frame r s) as (Hst & Hmon & Hact & _ & _ & _ & Hprod & _);
        set (svc2 := send_result r s) in *; clearbody svc2
    end.
    simpl in Hst, Hmon, Hact, Hprod. rewrite Hact.
    unfold sent_count, processed_count.
    destruct (active_sessions svc !! session_id chunk) as [info|] eqn:Hinfo; simpl.
    + rewrite Hst, Hmon. simpl.
      split; [apply dom_insert_lookup_L; by rewrite Hinfo|].
      split.
      { intros s. destruct (decide (s = session_id chunk)) as [->|Hne].
        - by rewrite lookup_insert_eq, Hinfo.
        - by rewrite lookup_insert_ne. }
      split; [done|].
      split; [done|]. split; [case_bool_decide; lia|].
      split; [case_bool_decide; lia|]. split; [done|].
      intros s. case_decide as Hs.
      * subst s. rewrite lookup_insert_eq, Hinfo. simpl. lia.
      * rewrite lookup_insert_ne by done. lia.
    + rewrite Hst, Hmon, ?Hact. simpl.
      split; [done|]. split; [done|]. split; [done|].
      split; [done|]. split; [case_bool_decide; lia|].
      split; [case_bool_decide; lia|]. split; [done|].
      intros s. case_decide as Hs; [subst s; rewrite Hinfo|]; lia.
  - match goal with
    | |- context [send_result ?r ?s] =>
        destruct (send_result_frame r s) as (Hst & Hmon & Hact & _ & _ & _ & Hprod & _);
        set (svc2 := send_result r s) in *; clearbody svc2
    end.
    simpl in Hst, Hmon, Hact, Hprod.
    unfold sent_count. rewrite Hst, Hmon, Hact. done.
Qed.

Lemma send_unfold env a svc :
  send_one env a svc
  = match producer svc with
    | None => (true, process_chunk env (chunk_of env a) svc)
    | Some prod =>
        if broker_up prod then
          let info :=
            default {| s_user_id := a_user_id a; start_time := now_s env;
                       chunks_sent := 0; chunks_processed := 0;
                       s_total_audio_duration := 0%float |}
                    (active_sessions svc !! a_session_id a) in
          (true,
           with_sessions
             (<[a_session_id a :=
                  {| s_user_id := s_user_id info;
                     start_time := start_time info;
                     chunks_sent := chunks_sent info + 1;
                     chunks_processed := chunks_processed info;
                     s_total_audio_duration := s_total_audio_duration info |}]>
                (active_sessions svc))
             (with_producer
                (Some {| broker_up := broker_up prod;
                         log := log prod
                                ++ [audio_record avro_write_chunk (audio_topic svc)
                                      (env, a)] |})
                svc))
        else (false, svc)
    end.
Proof.
  unfold send, send_audio_chunk, producer_send, audio_record, chunk_of.
  destruct (producer svc) as [prod|]; [|done].
  by destruct (broker_up prod).
Qed.

Lemma step_counts svc c :
  let svc' := step_call svc c in
  let st := processing_stats svc in
  let st' := processing_stats svc' in
  match engine_reply avro_read_chunk c svc with
  | None => processed svc' = processed svc /\ st' = st
  | Some (Engine.Raises _) =>
      length (processed svc') = S (length (processed svc)) /\ st' = st
  | Some (Engine.Returns result) =>
      let failed := bool_decide (is_Some (Engine.error result)) in
      length (processed svc') = S (length (processed svc)) /\
      total_chunks_processed st' = total_chunks_processed st + 1 /\
      successful_transcriptions st'
      = successful_transcriptions st + (if failed then 0 else 1) /\
      failed_transcriptions st'
      = failed_transcriptions st + (if failed then 1 else 0)
  end.
Proof.
  assert (Hp : forall env chunk,
    match reply env with
    | Engine.Raises _ =>
        length (processed (process_chunk env chunk svc)) = S (length (processed svc)) /\
        processing_stats (process_chunk env chunk svc) = processing_stats svc
    | Engine.Returns result =>
        let failed := bool_decide (is_Some (Engine.error result)) in
        length (processed (process_chunk env chunk svc)) = S (length (processed svc)) /\
        total_chunks_processed (processing_stats (process_chunk env chunk svc))
        = total_chunks_processed (processing_stats svc) + 1 /\
        successful_transcriptions (processing_stats (process_chunk env chunk svc))
        = successful_transcriptions (processing_stats svc)
          + (if failed then 0 else 1) /\
        failed_transcriptions (processing_stats (process_chunk env chunk svc))
        = failed_transcriptions (processing_stats svc) + (if failed then 1 else 0)
    end).
  { intros env chunk.
    destruct (process_chunk_counts env chunk svc) as (Hpr & _ & _ & _ & H).
    cbv zeta in H. destruct (reply env) as [result|message].
    - destruct H as (? & ? & ? & _).
      rewrite Hpr, length_app. simpl. repeat split; try done. lia.
    - destruct H as (? & _). rewrite Hpr, length_app. simpl. split; [lia | done]. }
  destruct c as [env a|env raw|session]; cbv zeta; simpl.
  - rewrite send_unfold. destruct (producer svc) as [prod|]; simpl.
    + by destruct (broker_up prod).
    + apply Hp.
  - unfold consume_message.
    destruct (_deserialize_audio_chunk avro_read_chunk raw) as [chunk|]; [|done].
    apply Hp.
  - unfold cleanup_session. by destruct (active_sessions svc !! session).
Qed.

(** X17. Every answer of the engine is counted once.  Over any sequence
    of sends, consumed records and session clean-ups, [processed] grows by
    one per call of the engine, [total_chunks_processed] by one per call
    that returned, split between [failed_transcriptions] (results with an
    ["error"] entry) and [successful_transcriptions] (the others); a call
    that raised is counted in none of the three. *)
Theorem engine_answers_are_counted (calls : list call) (svc0 : KafkaStreamService) :
  let svc := run_calls calls svc0 in
  let replies := replies_of calls svc0 in
  let results := returned replies in
  let st0 := processing_stats svc0 in
  let st := processing_stats svc in
  length (processed svc) = (length (processed svc0) + length replies)%nat /\
  total_chunks_processed st
  = total_chunks_processed st0 + Z.of_nat (length results) /\
  failed_transcriptions st
  = failed_transcriptions st0 + Z.of_nat (length (with_error results)) /\
  successful_transcriptions st + Z.of_nat (length (with_error results))
  = successful_transcriptions st0 + Z.of_nat (length results).
Proof.
  cbv zeta. revert svc0. induction calls as [|c calls IH]; intros svc0.
  - simpl. repeat split; lia.
  - change (run_calls (c :: calls) svc0) with (run_calls calls (step_call svc0 c)).
    specialize (IH (step_call svc0 c)).
    destruct IH as (I1 & I2 & I3 & I4).
    pose proof (step_counts svc0 c) as Hs. cbv zeta in Hs.
    assert (Hrep : replies_of (c :: calls) svc0
                   = match engine_reply avro_read_chunk c svc0 with
                     | Some r => r :: replies_of calls (step_call svc0 c)
                     | None => replies_of calls (step_call svc0 c)
                     end) by reflexivity.
    rewrite Hrep. clear Hrep.
    set (rest := replies_of calls (step_call svc0 c)) in *.
    destruct (engine_reply avro_read_chunk c svc0) as [[result|message]|].
    + destruct Hs as (S1 & S2 & S3 & S4).
      change (returned (Engine.Returns result :: rest))
        with (result :: returned rest).
      set (results := returned rest) in *.
      unfold with_error in *. rewrite filter_cons.
      set (errors := filter _ results) in *.
      case_bool_decide as Herr.
      * rewrite decide_True by done. simpl length.
        repeat split; lia.
      * rewrite decide_False by done. simpl length.
        repeat split; lia.
    + destruct Hs as (S1 & S2). rewrite S2 in *.
      change (returned (Engine.Raises message :: rest)) with (returned rest).
      simpl length. repeat split; lia.
    + destruct Hs as (S1 & S2). rewrite S1, S2 in *. repeat split; lia.
Qed.

(** *** Without a producer *)

Lemma step_without_producer svc c :
  producer svc = None ->
  producer (step_call svc c) = None /\
  dom (active_sessions (step_call svc c)) ⊆ dom (active_sessions svc).
Proof.
  intros Hp. destruct c as [env a|env raw|session]; simpl.
  - rewrite send_unfold, Hp. simpl.
    destruct (process_chunk_counts env (chunk_of env a) svc)
      as (_ & Hdom & _ & Hprod & _).
    split; [by apply Hprod | by rewrite Hdom].
  - unfold consume_message.
    destruct (_deserialize_audio_chunk avro_read_chunk raw) as [chunk|]; [|done].
    destruct (process_chunk_counts env chunk svc) as (_ & Hdom & _ & Hprod & _).
    split; [by apply Hprod | by rewrite Hdom].
  - unfold cleanup_session.
    destruct (active_sessions svc !! session); [|done].
    simpl. split; [done|]. rewrite dom_delete_L. set_solver.
Qed.

(** X18. A service whose producer was never started keeps no session
    records: whatever is sent, consumed or cleaned up, every send is
    answered [True] and processed in the call, yet [get_session_status] is
    [None] for every session and the statistics report no active
    session. *)
Theorem fallback_keeps_no_sessions (calls : list call) (session : string)
        (env : Env) (a : SendArgs) :
  let svc := run_calls calls init in
  get_session_status session svc = None /\
  (get_processing_stats svc).2 = 0 /\
  (send_one env a svc).1 = true /\
  processed (send_one env a svc).2 = processed svc ++ [chunk_of env a].
Proof.
  cbv zeta.
  assert (H : producer (run_calls calls init) = None /\
              active_sessions (run_calls calls init) = ∅).
  { apply (fold_left_invariant
             (fun s => producer s = None /\ active_sessions s = ∅)); [done|].
    intros s c _ [Hp Hs].
    destruct (step_without_producer s c Hp) as [Hp' Hdom].
    split; [done|]. apply dom_empty_iff_L.
    rewrite Hs, dom_empty_L in Hdom. set_solver. }
  destruct H as [Hp Hs].
  unfold get_session_status, get_processing_stats. rewrite Hs. simpl.
  split; [done|]. split; [done|].
  rewrite send_unfold, Hp. simpl.
  split; [done|]. apply process_audio_chunk_processed.
Qed.

(** *** Through the broker *)

Lemma send_broker_up env a svc prod :
  producer svc = Some prod -> broker_up prod = true ->
  exists svc1,
    send_one env a svc = (true, svc1) /\
    producer svc1
    = Some {| broker_up := true;
              log := log prod
                     ++ [audio_record avro_write_chunk (audio_topic svc) (env, a)] |} /\
    audio_topic svc1 = audio_topic svc /\
    processed svc1 = processed svc /\
    processing_stats svc1 = processing_stats svc /\
    monitor svc1 = monitor svc /\
    (forall s, sent_count s svc1
               = sent_count s svc + (if decide (a_session_id a = s) then 1 else 0)) /\
    (forall s, processed_count s svc1 = processed_count s svc) /\
    (forall s, is_Some (active_sessions svc !! s) ->
               is_Some (active_sessions svc1 !! s)) /\
    is_Some (active_sessions svc1 !! a_session_id a).
Proof.
  intros Hp Hup. rewrite send_unfold, Hp, Hup. cbv zeta.
  eexists. split; [reflexivity|]. simpl.
  split; [done|]. split; [done|]. split; [done|]. split; [done|]. split; [done|].
  unfold sent_count, processed_count. simpl.
  split; [|split; [|split]].
  - intros s. destruct (decide (a_session_id a = s)) as [<-|Hne].
    + rewrite lookup_insert_eq. simpl.
      destruct (active_sessions svc !! a_session_id a); simpl; lia.
    + rewrite lookup_insert_ne by done. lia.
  - intros s. destruct (decide (a_session_id a = s)) as [<-|Hne].
    + rewrite lookup_insert_eq. simpl.
      by destruct (active_sessions svc !! a_session_id a).
    + by rewrite lookup_insert_ne.
  - intros s Hs. rewrite lookup_insert_is_Some.
    destruct (decide (a_session_id a = s)); [by left | by right].
  - by rewrite lookup_insert_eq.
Qed.

Lemma send_seq_broker msgs svc prod :
  producer svc = Some prod -> broker_up prod = true ->
  let r := send_seq msgs svc in
  r.1 = replicate (length msgs) true /\
  producer r.2
  = Some {| broker_up := true;
            log := log prod
                   ++ (audio_record avro_write_chunk (audio_topic svc) <$> msgs) |} /\
  processed r.2 = processed svc /\
  processing_stats r.2 = processing_stats svc /\
  monitor r.2 = monitor svc /\
  (forall s, sent_count s r.2 = sent_count s svc + sends_for s msgs) /\
  (forall s, processed_count s r.2 = processed_count s svc) /\
  (forall s, is_Some (active_sessions svc !! s) -> is_Some (active_sessions r.2 !! s)) /\
  (forall m, m ∈ msgs -> is_Some (active_sessions r.2 !! a_session_id m.2)).
Proof.
  revert svc prod. induction msgs as [|[env a] msgs IH]; intros svc prod Hp Hup.
  - simpl. rewrite Hp, app_nil_r. unfold sends_for. simpl.
    split; [done|]. split; [destruct prod; simpl in *; by subst|].
    repeat split; try done; try (intros; lia).
    intros m Hm. by apply elem_of_nil in Hm.
  - cbv zeta. simpl.
    destruct (send_broker_up env a svc prod Hp Hup)
      as (svc1 & -> & Hp1 & Htopic & Hpr1 & Hst1 & Hmon1 & Hs1 & Hc1 & Hk1 & Hn1).
    specialize (IH svc1 _ Hp1 eq_refl).
    destruct IH as (I1 & I2 & I3 & I4 & I5 & I6 & I7 & I8 & I9).
    destruct (send_seq msgs svc1) as [oks svc2]. simpl in *.
    split; [by rewrite I1|].
    split; [by rewrite I2, Htopic, <- app_assoc|].
    split; [congruence|]. split; [congruence|]. split; [congruence|].
    split; [|split; [|split]].
    + intros s. rewrite I6, Hs1. unfold sends_for. rewrite filter_cons. simpl.
      destruct (decide (a_session_id a = s)); simpl length; lia.
    + intros s. by rewrite I7, Hc1.
    + intros s Hs. by apply I8, Hk1.
    + intros m Hm. apply elem_of_cons in Hm as [->|Hm]; [|by apply I9].
      by apply I8.
Qed.

(** X19. With the broker accepting, a sequence of sends is answered
    [True] throughout, calls the engine for none of them, appends to the
    producer's log one record per send, in the order of the sends, on the
    audio topic and keyed by the session, and adds one to [chunks_sent] of
    the session for each; a broker that refuses leaves the service as it
    was and the send answers [False]. *)
Theorem broker_sends_are_logged_in_order (msgs : list (Env * SendArgs))
        (svc : KafkaStreamService) (prod : Producer) :
  producer svc = Some prod ->
  (broker_up prod = true ->
   let r := send_seq msgs svc in
   r.1 = replicate (length msgs) true /\
   producer r.2
   = Some {| broker_up := true;
             log := log prod
                    ++ (audio_record avro_write_chunk (audio_topic svc) <$> msgs) |} /\
   processed r.2 = processed svc /\
   processing_stats r.2 = processing_stats svc /\
   forall s, sent_count s r.2 = sent_count s svc + sends_for s msgs) /\
  (broker_up prod = false ->
   forall env a, send_one env a svc = (false, svc)).
Proof.
  intros Hp. split.
  - intros Hup.
    destruct (send_seq_broker msgs svc prod Hp Hup) as (? & ? & ? & ? & _ & ? & _).
    done.
  - intros Hdown env a. by rewrite send_unfold, Hp, Hdown.
Qed.

Abbreviation process_sent :=
  (fun s (p : Env * (Env * SendArgs)) =>
     process_chunk p.1 (chunk_of p.2.1 p.2.2) s).

Lemma consume_sent topic msgs envs svc :
  length envs = length msgs ->
  Forall (fun m : Env * SendArgs =>
            exists data, avro_write_chunk (chunk_of m.1 m.2) = Some data /\
                         avro_read_chunk data = Some (chunk_of m.1 m.2)) msgs ->
  consume_seq true (zip envs (audio_record avro_write_chunk topic <$> msgs).*2) svc
  = fold_left process_sent (zip envs msgs) svc.
Proof.
  unfold _process_audio_streams.
  revert envs svc. induction msgs as [|m msgs IH]; intros envs svc Hlen Hround.
  - by destruct envs.
  - destruct envs as [|env envs]; [done|].
    apply Forall_cons in Hround as [(data & Hw & Hr) Hround].
    simpl. unfold consume_message at 2, _deserialize_audio_chunk.
    rewrite Hw. simpl. rewrite Hr.
    apply IH; [by injection Hlen | done].
Qed.

Lemma process_sent_all (work : list (Env * (Env * SendArgs))) svc :
  (forall p, p ∈ work -> is_Some (active_sessions svc !! a_session_id p.2.2)) ->
  let svc' := fold_left process_sent work svc in
  processed svc' = processed svc ++ ((fun m => chunk_of m.1 m.2) <$> work.*2) /\
  dom (active_sessions svc') = dom (active_sessions svc) /\
  (forall s, sent_count s svc' = sent_count s svc) /\
  (Forall (fun env => exists result, reply env = Engine.Returns result) work.*1 ->
   forall s, processed_count s svc' = processed_count s svc + sends_for s work.*2).
Proof.
  revert svc. induction work as [|[env m] work IH]; intros svc Hin.
  - simpl. rewrite app_nil_r. unfold sends_for. simpl.
    repeat split; try done. intros _ s. lia.
  - cbv zeta.
    change (fold_left process_sent ((env, m) :: work) svc)
      with (fold_left process_sent work (process_chunk env (chunk_of m.1 m.2) svc)).
    rewrite !fmap_cons. change ((env, m).2) with m. change ((env, m).1) with env.
    destruct (process_chunk_counts env (chunk_of m.1 m.2) svc)
      as (Hpr & Hdom & Hsent & _ & Hreply).
    set (svc1 := process_chunk env (chunk_of m.1 m.2) svc) in *.
    destruct (IH svc1) as (I1 & I2 & I3 & I4).
    { intros p Hp. rewrite <- elem_of_dom, Hdom, elem_of_dom.
      apply Hin. by right. }
    split; [by rewrite I1, Hpr, <- app_assoc|].
    split; [by rewrite I2|].
    split; [intros s; by rewrite I3|].
    intros Hret s. apply Forall_cons in Hret as [[result Hres] Hret].
    rewrite (I4 Hret s). rewrite Hres in Hreply. cbv zeta in Hreply.
    destruct Hreply as (_ & _ & _ & _ & Hcount). specialize (Hcount s).
    rewrite Hcount. clear Hcount.
    unfold sends_for. rewrite filter_cons.
    change (session_id (chunk_of m.1 m.2)) with (a_session_id m.2).
    destruct (Hin (env, m) ltac:(left)) as [info Hinfo]. simpl in Hinfo.
    destruct (decide (s = a_session_id m.2)) as [->|Hne].
    + rewrite decide_True by done. rewrite Hinfo. simpl length. lia.
    + rewrite decide_False by done. lia.
Qed.

(** X20. What goes through the broker comes out once and in order.  When
    the codec reads back what it wrote for the chunks sent, the consumer
    loop run on the records of a sequence of sends calls the engine on
    exactly the chunks that were sent, in the order they were sent; and
    when the engine returns for each of them, [chunks_processed] of every
    session has grown by as much as its [chunks_sent]. *)
Theorem consumer_processes_what_was_sent (msgs : list (Env * SendArgs))
        (envs : list Env) (svc : KafkaStreamService) (prod : Producer) :
  producer svc = Some prod -> broker_up prod = true ->
  length envs = length msgs ->
  Forall (fun m : Env * SendArgs =>
            exists data, avro_write_chunk (chunk_of m.1 m.2) = Some data /\
                         avro_read_chunk data = Some (chunk_of m.1 m.2)) msgs ->
  let sent := (send_seq msgs svc).2 in
  let records :=
    drop (length (log prod)) (log (default prod (producer sent))) in
  let consumed := consume_seq true (zip envs records.*2) sent in
  processed consumed
  = processed svc ++ ((fun m => chunk_of m.1 m.2) <$> msgs) /\
  (Forall (fun env => exists result, reply env = Engine.Returns result) envs ->
   forall s,
     processed_count s consumed - processed_count s svc
     = sent_count s consumed - sent_count s svc).
Proof.
  intros Hp Hup Hlen Hround sent records consumed.
  destruct (send_seq_broker msgs svc prod Hp Hup)
    as (_ & Hlog & Hpr & _ & _ & Hsent & Hproc & _ & Hsess).
  fold sent in Hlog, Hpr, Hsent, Hproc, Hsess.
  assert (Hrec : records = audio_record avro_write_chunk (audio_topic svc) <$> msgs).
  { unfold records. rewrite Hlog. simpl. by rewrite drop_app_length. }
  unfold consumed. rewrite Hrec, consume_sent by done.
  destruct (process_sent_all (zip envs msgs) sent) as (W1 & _ & W3 & W4).
  { intros [env m] Hin. apply Hsess. simpl.
    apply elem_of_zip_r in Hin. done. }
  rewrite snd_zip in W1, W4 by lia. rewrite fst_zip in W4 by lia.
  split; [by rewrite W1, Hpr|].
  intros Hret s. rewrite (W4 Hret s), W3, Hsent, Hproc. lia.
Qed.

End KafkaStreams.

Example engine_answers_example :
  let calls := [Kafka.Send Kafka.sample_env Kafka.sample_args;
                Kafka.Send Kafka.failing_env Kafka.sample_args;
                Kafka.Cleanup "session-1";
                Kafka.Send Kafka.sample_env Kafka.sample_args] in
  let svc := Kafka.run Kafka.binary_write_chunk Kafka.binary_read_chunk
               Kafka.no_result_writer calls Kafka.init in
  (length (Kafka.processed svc),
   Kafka.total_chunks_processed (Kafka.processing_stats svc),
   Kafka.successful_transcriptions (Kafka.processing_stats svc),
   Kafka.failed_transcriptions (Kafka.processing_stats svc))
  = (3%nat, 2, 2, 0).
Proof. vm_compute. reflexivity. Qed.

Lemma broker_sends_are_logged_in_order_witness :
  (Kafka.broker_up {| Kafka.broker_up := true; Kafka.log := [] |} = true ->
   let r := Kafka.send_all Kafka.binary_write_chunk Kafka.no_result_writer
              [(Kafka.sample_env, Kafka.sample_args);
               (Kafka.failing_env, Kafka.sample_args)] Kafka.started in
   r.1 = replicate 2 true /\
   Kafka.producer r.2
   = Some {| Kafka.broker_up := true;
             Kafka.log :=
               [] ++ (Kafka.audio_record Kafka.binary_write_chunk
                        (Kafka.audio_topic Kafka.started)
                      <$> [(Kafka.sample_env, Kafka.sample_args);
                           (Kafka.failing_env, Kafka.sample_args)]) |} /\
   Kafka.processed r.2 = Kafka.processed Kafka.started /\
   Kafka.processing_stats r.2 = Kafka.processing_stats Kafka.started /\
   forall s, Kafka.sent_count s r.2
             = Kafka.sent_count s Kafka.started
               + Kafka.sends_for s [(Kafka.sample_env, Kafka.sample_args);
                                    (Kafka.failing_env, Kafka.sample_args)]) /\
  (Kafka.broker_up {| Kafka.broker_up := true; Kafka.log := [] |} = false ->
   forall env a,
     Kafka.send Kafka.binary_write_chunk Kafka.no_result_writer env a Kafka.started
     = (false, Kafka.started)).
Proof.
  apply (broker_sends_are_logged_in_order Kafka.binary_write_chunk
           Kafka.no_result_writer
           [(Kafka.sample_env, Kafka.sample_args);
            (Kafka.failing_env, Kafka.sample_args)]
           Kafka.started {| Kafka.broker_up := true; Kafka.log := [] |}).
  reflexivity.
Defined.

Lemma consumer_processes_what_was_sent_witness :
  let msgs := [(Kafka.sample_env, Kafka.sample_args);
               (Kafka.failing_env, Kafka.sample_args)] in
  let sent := (Kafka.send_all Kafka.binary_write_chunk Kafka.no_result_writer
                 msgs Kafka.started).2 in
  let records :=
    drop 0 (Kafka.log (default {| Kafka.broker_up := true; Kafka.log := [] |}
                               (Kafka.producer sent))) in
  let consumed :=
    Kafka._process_audio_streams Kafka.binary_write_chunk Kafka.binary_read_chunk
      Kafka.no_result_writer true
      (zip [Kafka.sample_env; Kafka.sample_env] records.*2) sent in
  Kafka.processed consumed
  = [Kafka.chunk_of Kafka.sample_env Kafka.sample_args;
     Kafka.chunk_of Kafka.failing_env Kafka.sample_args] /\
  Kafka.processed_count "session-1" consumed = 2.
Proof.
  pose proof (consumer_processes_what_was_sent Kafka.binary_write_chunk
                Kafka.binary_read_chunk Kafka.no_result_writer
                [(Kafka.sample_env, Kafka.sample_args);
                 (Kafka.failing_env, Kafka.sample_args)]
                [Kafka.sample_env; Kafka.sample_env]
                Kafka.started {| Kafka.broker_up := true; Kafka.log := [] |}
                eq_refl eq_refl eq_refl) as H.
  destruct H as [Hproc Hcount].
  - repeat constructor; (eexists; split; vm_compute; reflexivity).
  - cbv zeta. split; [exact Hproc|].
    specialize (Hcount ltac:(repeat constructor; eexists; reflexivity) "session-1").
    cbv zeta in Hcount.
    assert (H0 : forall x, x - 0 = 2 - 0 -> x = 2) by (intros; lia).
    apply H0. etransitivity; [exact Hcount|]. vm_compute. reflexivity.
Defined.

(** ** The streaming service: text delivery and counters *)

Section RealtimeStreams.
Import Realtime.

Lemma stream_text_delivers sid c s ws item rest :
  text_queue s !! sid = Some (item :: rest) ->
  sockets s !! c = Some ws -> sends ws = true ->
  let s' := stream_text sid c s in
  text_queue s' !! sid = Some rest /\
  sockets s' !! c = Some {| accepts := accepts ws; sends := sends ws;
                            outbox := outbox ws ++ [Transcription item] |}.
Proof.
  intros Hq Hws Hsend. unfold stream_text, _send_message. rewrite Hq. simpl.
  rewrite Hws, Hsend. simpl. by rewrite !lookup_insert_eq.
Qed.

Lemma stream_texts_deliver sid c q s ws :
  text_queue s !! sid = Some q ->
  sockets s !! c = Some ws -> sends ws = true ->
  let s' := stream_texts (length q) sid c s in
  text_queue s' !! sid = Some [] /\
  sockets s' !! c = Some {| accepts := accepts ws; sends := sends ws;
                            outbox := outbox ws ++ (Transcription <$> q) |}.
Proof.
  revert s ws. induction q as [|item q IH]; intros s ws Hq Hws Hsend.
  - simpl. rewrite app_nil_r. split; [done|]. by destruct ws.
  - destruct (stream_text_delivers sid c s ws item q Hq Hws Hsend) as [Hq' Hws'].
    cbv zeta. simpl stream_texts.
    destruct (IH _ _ Hq' Hws' Hsend) as [I1 I2].
    split; [done|]. rewrite I2. simpl. by rewrite <- app_assoc.
Qed.

(** X21. Transcriptions reach the client in the order the engine produced
    them.  A result queued for a session goes behind what is already
    queued; the passes of the text stream then send the queue to the client
    front to back, the new result last, and once the queue is empty a pass
    sends a keepalive instead. *)
Theorem transcriptions_arrive_in_order (s : RealtimeStreamingService)
        (sid c : string) (ws : WebSocket) (q : list TranscriptionData)
        (result : Engine.Result) (processing_time now : float) :
  text_queue s !! sid = Some q ->
  sockets s !! c = Some ws -> sends ws = true ->
  let item := transcription_of sid result processing_time now in
  let queued := _send_transcription_result sid result processing_time now s in
  let streamed := stream_texts (S (length q)) sid c queued in
  text_queue queued !! sid = Some (q ++ [item]) /\
  outbox_of c streamed = outbox ws ++ (Transcription <$> q) ++ [Transcription item] /\
  text_queue streamed !! sid = Some [] /\
  outbox_of c (stream_text sid c streamed)
  = outbox ws ++ (Transcription <$> q) ++ [Transcription item; Keepalive].
Proof.
  intros Hq Hws Hsend item queued streamed.
  assert (Hqueued : text_queue queued !! sid = Some (q ++ [item]) /\
                    sockets queued = sockets s).
  { unfold queued, _send_transcription_result. rewrite Hq. fold item.
    destruct (kafka_producer_started _); simpl; by rewrite lookup_insert_eq. }
  destruct Hqueued as [Hq1 Hs1].
  assert (Hws1 : sockets queued !! c = Some ws) by by rewrite Hs1.
  destruct (stream_texts_deliver sid c (q ++ [item]) queued ws Hq1 Hws1 Hsend)
    as [Hq2 Hws2].
  rewrite length_app in Hq2, Hws2.
  replace (length q + length [item])%nat with (S (length q)) in Hq2, Hws2
    by (simpl; lia).
  fold streamed in Hq2, Hws2.
  split; [done|]. split; [|split; [done|]].
  - unfold outbox_of. rewrite Hws2. simpl. by rewrite fmap_app.
  - unfold outbox_of, stream_text, _send_message. rewrite Hq2. simpl.
    rewrite Hws2. simpl. rewrite Hsend. simpl. rewrite lookup_insert_eq. simpl.
    rewrite fmap_app, <- !app_assoc. done.
Qed.

(** *** The counters *)

Abbreviation waits :=
  (fun kt : string * TaskState => is_awaiting kt.2 = true).

Lemma awaiting_insert_other (tasks : gmap string TaskState) c t :
  is_awaiting t = false ->
  (size (filter waits (<[c := t]> tasks)) <= size (filter waits tasks))%nat /\
  (forall old, tasks !! c = Some old -> is_awaiting old = true ->
     S (size (filter waits (<[c := t]> tasks))) = size (filter waits tasks)).
Proof.
  intros Ht.
  rewrite map_filter_insert_False by (simpl; congruence).
  rewrite map_filter_delete, map_size_delete.
  split.
  - destruct (filter waits tasks !! c); simpl; unfold id; lia.
  - intros old Hold Hw.
    assert (Hin : filter waits tasks !! c = Some old)
      by by apply map_lookup_filter_Some.
    rewrite Hin. simpl.
    assert (size (filter waits tasks) <> 0%nat); [|lia].
    intros Hz. apply map_size_empty_inv in Hz. rewrite Hz in Hin.
    by rewrite lookup_empty in Hin.
Qed.

Lemma awaiting_insert_waiting (tasks : gmap string TaskState) c t :
  (size (filter waits (<[c := t]> tasks)) <= S (size (filter waits tasks)))%nat.
Proof.
  destruct (is_awaiting t) eqn:Ht.
  - rewrite map_filter_insert_True by done. rewrite map_size_insert.
    destruct (filter waits tasks !! c); simpl; unfold id; lia.
  - destruct (awaiting_insert_other tasks c t Ht) as [H _]. lia.
Qed.

(** [counted] only looks at these five fields. *)
Lemma counted_frame s s' :
  stats s' = stats s -> active_connections s' = active_connections s ->
  monitor s' = monitor s -> engine_calls s' = engine_calls s ->
  processing_tasks s' = processing_tasks s ->
  counted s -> counted s'.
Proof.
  intros H1 H2 H3 H4 H5 [C1 C2 C3 C4 C5 C6].
  split; unfold awaiting in *; rewrite ?H1, ?H2, ?H3, ?H4, ?H5; done.
Qed.

Lemma counted_send_message c data s : counted s -> counted (_send_message c data s).
Proof.
  apply counted_frame; unfold _send_message;
    destruct (sockets s !! c) as [ws|]; try done; by destruct (sends ws).
Qed.

Lemma counted_init : counted init.
Proof. split; simpl; try done. Qed.

Lemma counted_set_task c t s :
  is_awaiting t = false -> counted s ->
  counted (set_processing_tasks (<[c := t]> (processing_tasks s)) s).
Proof.
  intros Ht [C1 C2 C3 C4 C5 C6]. split; try done.
  unfold awaiting in *. simpl.
  destruct (awaiting_insert_other (processing_tasks s) c t Ht) as [H _]. lia.
Qed.

Lemma counted_disconnect c sid s : counted s -> counted (disconnect c sid s).
Proof.
  intros [C1 C2 C3 C4 C5 C6].
  assert (Hclean : counted (_cleanup_connection c sid s)).
  { split; simpl; try done.
    assert (size (active_connections s ∖ {[c]}) <= size (active_connections s))%nat
      by (apply subseteq_size; set_solver).
    lia. }
  unfold disconnect.
  destruct (processing_tasks (_cleanup_connection c sid s) !! c) as [[| | | |]|];
    try done; by apply counted_set_task.
Qed.

Lemma counted_connect c sid user now ws s :
  c ∉ active_connections s -> counted s -> counted (connect c sid user now ws s).
Proof.
  intros Hc Hs. unfold connect. destruct (accepts ws); [|by apply counted_disconnect].
  apply counted_send_message. destruct Hs as [C1 C2 C3 C4 C5 C6].
  split; simpl; try done.
  - rewrite size_union by set_solver. rewrite size_singleton. lia.
  - lia.
  - unfold awaiting in *. simpl.
    destruct (awaiting_insert_other (processing_tasks s) c Running eq_refl) as [H _].
    lia.
Qed.

Lemma counted_handle_audio_data data sid c now s :
  counted s -> counted (_handle_audio_data data sid c now s).
Proof.
  intros [C1 C2 C3 C4 C5 C6]. unfold _handle_audio_data.
  set (s1 := match audio_buffers s !! sid with Some _ => _ | None => s end).
  assert (H1 : stats s1 = stats s /\ active_connections s1 = active_connections s /\
               monitor s1 = monitor s /\ engine_calls s1 = engine_calls s /\
               processing_tasks s1 = processing_tasks s).
  { unfold s1. by destruct (audio_buffers s !! sid). }
  set (s2 := match connection_sessions s1 !! c with Some _ => _ | None => s1 end).
  assert (H2 : stats s2 = stats s /\ active_connections s2 = active_connections s /\
               monitor s2 = monitor s /\ engine_calls s2 = engine_calls s /\
               processing_tasks s2 = processing_tasks s).
  { unfold s2. by destruct (connection_sessions s1 !! c). }
  destruct H2 as (E1 & E2 & E3 & E4 & E5).
  assert (H3 : counted (set_stats
                 {| total_connections := total_connections (stats s2);
                    stat_active_connections := stat_active_connections (stats s2);
                    total_audio_chunks := total_audio_chunks (stats s2) + 1;
                    total_transcriptions := total_transcriptions (stats s2);
                    average_processing_time := average_processing_time (stats s2) |}
                 s2)).
  { split; unfold awaiting; simpl; rewrite ?E1, ?E2, ?E3, ?E4, ?E5; try done. lia. }
  cbv zeta. case_bool_decide; [by apply counted_send_message | done].
Qed.

Lemma counted_handle_text_message data c sid s :
  counted s -> counted (_handle_text_message data c sid s).
Proof.
  intros Hs. destruct data; simpl; try (by apply counted_send_message).
  - apply counted_send_message. revert Hs. by apply counted_frame.
  - apply counted_send_message. revert Hs. apply counted_frame;
      by destruct (text_subscribers s !! sid).
Qed.

Lemma counted_cycle_begin sid c s : counted s -> counted (cycle_begin sid c s).
Proof.
  intros Hs. pose proof Hs as [C1 C2 C3 C4 C5 C6]. unfold cycle_begin.
  destruct (processing_tasks s !! c) as [[| | | |]|] eqn:Ht; try done.
  case_bool_decide.
  - destruct (default [] (audio_buffers s !! sid)) as [|chunk chunks]; [done|].
    split; try done. unfold awaiting in *. simpl.
    match goal with
    | |- context [<[c := ?t]> (processing_tasks s)] =>
        pose proof (awaiting_insert_waiting (processing_tasks s) c t) as H'
    end.
    rewrite length_app. simpl length. lia.
  - split; try done. unfold awaiting in *. simpl.
    destruct (awaiting_insert_other (processing_tasks s) c Finished eq_refl) as [H' _].
    lia.
Qed.

Lemma counted_send_transcription_result sid result ptime now s :
  counted s -> counted (_send_transcription_result sid result ptime now s).
Proof.
  apply counted_frame; unfold _send_transcription_result;
    destruct (text_queue s !! sid); by destruct (kafka_producer_started _).
Qed.

Lemma history_length_recorded utc conf ptime failed svc n :
  length (Monitor.history_for "whisper_realtime" svc) = Nat.min 1000 n ->
  length (Monitor.history_for "whisper_realtime"
            (Monitor.record_model_performance utc "whisper_realtime"
               conf conf ptime failed svc))
  = Nat.min 1000 (S n).
Proof.
  intros Hlen.
  change (Monitor.record_model_performance utc "whisper_realtime" conf conf ptime
            failed svc)
    with (Monitor.record_observation svc
            {| Monitor.o_time := utc; Monitor.o_model := "whisper_realtime";
               Monitor.o_accuracy := conf; Monitor.o_confidence := conf;
               Monitor.o_processing_time := ptime; Monitor.o_error := failed |}).
  rewrite history_for_record_observation. cbn [Monitor.o_model].
  rewrite decide_True by done.
  rewrite last_n_length, length_app, Hlen. simpl length. lia.
Qed.

Lemma counted_cycle_end c reply elapsed now utc s :
  counted s -> counted (cycle_end c reply elapsed now utc s).
Proof.
  intros Hs. pose proof Hs as [C1 C2 C3 C4 C5 C6]. unfold cycle_end.
  destruct (processing_tasks s !! c) as [[|sid audio| | |]|] eqn:Ht; try done.
  destruct reply as [result|message]; [|by apply counted_set_task].
  cbv zeta.
  set (conf := default 0%float (Engine.confidence result)).
  set (failed := bool_decide (is_Some (Engine.error result))).
  pose (core :=
    set_processing_tasks (<[c := Running]> (processing_tasks s))
      (set_stats
         {| total_connections := total_connections (stats s);
            stat_active_connections := stat_active_connections (stats s);
            total_audio_chunks := total_audio_chunks (stats s);
            total_transcriptions := total_transcriptions (stats s) + 1;
            average_processing_time :=
              if 0 <? total_transcriptions (stats s) + 1 then
                ((average_processing_time (stats s)
                  * Py.float_of_Z (total_transcriptions (stats s) + 1 - 1) + elapsed)
                 / Py.float_of_Z (total_transcriptions (stats s) + 1))%float
              else average_processing_time (stats s) |}
         (set_monitor
            (Monitor.record_model_performance utc "whisper_realtime" conf conf
               elapsed failed (monitor s)) s))).
  assert (Hcore : counted core).
  { split; unfold awaiting; simpl; try done; try lia.
    - replace (Z.to_nat (total_transcriptions (stats s) + 1))
        with (S (Z.to_nat (total_transcriptions (stats s)))) by lia.
      by apply history_length_recorded.
    - destruct (awaiting_insert_other (processing_tasks s) c Running eq_refl)
        as [_ H']. specialize (H' _ Ht eq_refl).
      unfold awaiting in C6. lia. }
  revert Hcore.
  apply counted_frame; unfold core;
    destruct (negb failed && negb _); unfold _send_transcription_result; simpl;
    destruct (text_queue s !! sid); simpl;
    destruct (kafka_producer_started s); simpl;
    destruct (connection_sessions s !! c); reflexivity.
Qed.

Lemma counted_stream_text sid c s : counted s -> counted (stream_text sid c s).
Proof.
  intros Hs. unfold stream_text.
  destruct (text_queue s !! sid) as [[|item rest]|]; [| |done].
  - by apply counted_send_message.
  - apply counted_send_message. revert Hs. by apply counted_frame.
Qed.

Lemma reachable_counted s : reachable s -> counted s.
Proof.
  induction 1 as [|s now ev _ IH Hallowed]; [apply counted_init|].
  destruct ev; simpl.
  - by apply counted_connect.
  - by apply counted_handle_audio_data.
  - by apply counted_handle_text_message.
  - by apply counted_cycle_begin.
  - by apply counted_cycle_end.
  - by apply counted_stream_text.
  - by apply counted_disconnect.
Qed.

(** X22. The counters of the streaming service keep track of what they
    count: in every state the service reaches, the active-connection
    counter is the number of registered connections and never exceeds the
    total; every result the engine returned is counted once in
    [total_transcriptions] and has left one sample with the monitor (which
    keeps the last thousand); and the results counted, together with the
    engine calls still pending, never outnumber the engine calls made. *)
Theorem counters_follow_the_service (s : RealtimeStreamingService) :
  reachable s ->
  stat_active_connections (stats s) = Z.of_nat (size (active_connections s)) /\
  Z.of_nat (size (active_connections s)) <= total_connections (stats s) /\
  0 <= total_audio_chunks (stats s) /\
  0 <= total_transcriptions (stats s) /\
  length (Monitor.history_for "whisper_realtime" (monitor s))
  = Nat.min 1000 (Z.to_nat (total_transcriptions (stats s))) /\
  total_transcriptions (stats s) + Z.of_nat (size (awaiting s))
  <= Z.of_nat (length (engine_calls s)).
Proof.
  intros Hr. destruct (reachable_counted s Hr) as [C1 C2 C3 C4 C5 C6].
  repeat split; try done. lia.
Qed.

End RealtimeStreams.


Lemma transcriptions_arrive_in_order_witness :
  Realtime.outbox_of "conn-1"
    (Realtime.stream_texts 3 "session-1" "conn-1"
       (Realtime._send_transcription_result "session-1"
          {| Engine.text := Some "again"; Engine.confidence := None;
             Engine.language := None; Engine.error := None |}
          0.125%float 5%float Realtime.two_texts_queued))
  = [Realtime.ConnectionEstablished "conn-1" "session-1";
     Realtime.Transcription
       (Realtime.transcription_of "session-1"
          {| Engine.text := Some "hello"; Engine.confidence := Some 0.9%float;
             Engine.language := Some "en"; Engine.error := None |}
          0.5%float 3%float);
     Realtime.Transcription
       (Realtime.transcription_of "session-1"
          {| Engine.text := Some "world"; Engine.confidence := Some 0.8%float;
             Engine.language := None; Engine.error := None |}
          0.25%float 4%float);
     Realtime.Transcription
       (Realtime.transcription_of "session-1"
          {| Engine.text := Some "again"; Engine.confidence := None;
             Engine.language := None; Engine.error := None |}
          0.125%float 5%float)].
Proof.
  pose proof (transcriptions_arrive_in_order Realtime.two_texts_queued
                "session-1" "conn-1"
                {| Realtime.accepts := true; Realtime.sends := true;
                   Realtime.outbox :=
                     [Realtime.ConnectionEstablished "conn-1" "session-1"] |}
                [Realtime.transcription_of "session-1"
                   {| Engine.text := Some "hello";
                      Engine.confidence := Some 0.9%float;
                      Engine.language := Some "en"; Engine.error := None |}
                   0.5%float 3%float;
                 Realtime.transcription_of "session-1"
                   {| Engine.text := Some "world";
                      Engine.confidence := Some 0.8%float;
                      Engine.language := None; Engine.error := None |}
                   0.25%float 4%float]
                {| Engine.text := Some "again"; Engine.confidence := None;
                   Engine.language := None; Engine.error := None |}
                0.125%float 5%float) as H.
  destruct H as (_ & H & _).
  - vm_compute. reflexivity.
  - vm_compute. reflexivity.
  - reflexivity.
  - exact H.
Defined.

Lemma one_transcribed_reachable : Realtime.reachable Realtime.one_transcribed.
Proof.
  unfold Realtime.one_transcribed, Realtime.one_chunk_buffered.
  apply Realtime.reachable_step; [|exact I].
  apply Realtime.reachable_step; [|vm_compute; reflexivity].
  apply Realtime.reachable_step; [|vm_compute; reflexivity].
  exact one_connection_reachable.
Qed.

Lemma counters_follow_the_service_witness :
  Realtime.stat_active_connections (Realtime.stats Realtime.one_transcribed)
  = Z.of_nat (size (Realtime.active_connections Realtime.one_transcribed)) /\
  Z.of_nat (size (Realtime.active_connections Realtime.one_transcribed))
  <= Realtime.total_connections (Realtime.stats Realtime.one_transcribed) /\
  0 <= Realtime.total_audio_chunks (Realtime.stats Realtime.one_transcribed) /\
  0 <= Realtime.total_transcriptions (Realtime.stats Realtime.one_transcribed) /\
  length (Monitor.history_for "whisper_realtime"
            (Realtime.monitor Realtime.one_transcribed))
  = Nat.min 1000
      (Z.to_nat (Realtime.total_transcriptions
                   (Realtime.stats Realtime.one_transcribed))) /\
  Realtime.total_transcriptions (Realtime.stats Realtime.one_transcribed)
  + Z.of_nat (size (Realtime.awaiting Realtime.one_transcribed))
  <= Z.of_nat (length (Realtime.engine_calls Realtime.one_transcribed)).
Proof.
  apply counters_follow_the_service. exact one_transcribed_reachable.
Defined.

Example one_transcribed_counters :
  (Realtime.total_transcriptions (Realtime.stats Realtime.one_transcribed),
   length (Realtime.engine_calls Realtime.one_transcribed),
   length (Monitor.history_for "whisper_realtime"
             (Realtime.monitor Realtime.one_transcribed)),
   Realtime.outbox_of "conn-1"
     (Realtime.stream_text "session-1" "conn-1" Realtime.one_transcribed))
  = (1, 1%nat, 1%nat,
     [Realtime.ConnectionEstablished "conn-1" "session-1";
      Realtime.AudioReceived "session-1" 3;
      Realtime.Transcription
        (Realtime.transcription_of "session-1"
           {| Engine.text := Some "hello world";
              Engine.confidence := Some 0.93%float;
              Engine.language := Some "en"; Engine.error := None |}
           0.5%float 4%float)]).
Proof. vm_compute. reflexivity. Qed.

(** ** The direct handler over a client's messages *)

Section DirectStreams.
Import Direct.

Lemma outer_except_step env e w :
  monitor (outer_except env e w) = monitor w /\
  engine_calls (outer_except env e w) = engine_calls w /\
  sent (outer_except env e w)
  = sent w ++ (if outer_send env is Delivered
               then [ErrorMessage ("Processing error: " +:+ e)] else []).
Proof.
  unfold outer_except. destruct (outer_send env); simpl; [done|].
  by rewrite app_nil_r.
Qed.

Lemma inner_except_step user env e w :
  monitor (inner_except user env e w)
  = (if user is Some _
     then Monitor.record_model_performance (except_utc env) "whisper" 0.0%float
            0.0%float (except_elapsed env) true (monitor w)
     else monitor w) /\
  engine_calls (inner_except user env e w) = engine_calls w /\
  exists answers,
    sent (inner_except user env e w) = sent w ++ answers /\
    length answers
    = (if bool_decide (Delivered ∈ [except_send env; outer_send env])
       then 1 else 0)%nat.
Proof.
  unfold inner_except. destruct (except_send env) as [|e'].
  - split; [by destruct user|]. split; [by destruct user|].
    eexists [_]. split; [by destruct user|].
    rewrite bool_decide_eq_true_2; [done | left].
  - destruct (outer_except_step env e'
                (if user is Some _
                 then record (except_utc env) 0.0%float 0.0%float
                             (except_elapsed env) true w
                 else w)) as (Hm & He & Hs).
    rewrite Hm, He, Hs.
    split; [by destruct user|]. split; [by destruct user|].
    eexists. split; [by destruct user|].
    destruct (outer_send env) as [|e''].
    + rewrite bool_decide_eq_true_2; [done | right; left].
    + rewrite bool_decide_eq_false_2; [done|].
      intros Hin. repeat (apply elem_of_cons in Hin as [Hin|Hin]; [done|]).
      by apply elem_of_nil in Hin.
Qed.

Lemma answer_step user env m w :
  monitor (answer user env m w)
  = (match user, answer_send env with
     | Some _, SendRaises _ =>
         Monitor.record_model_performance (except_utc env) "whisper" 0.0%float
           0.0%float (except_elapsed env) true (monitor w)
     | _, _ => monitor w
     end) /\
  engine_calls (answer user env m w) = engine_calls w /\
  exists answers,
    sent (answer user env m w) = sent w ++ answers /\
    length answers
    = (if bool_decide
            (Delivered ∈ [answer_send env; except_send env; outer_send env])
       then 1 else 0)%nat.
Proof.
  unfold answer. destruct (answer_send env) as [|e].
  - split; [by destruct user|]. split; [done|].
    eexists [_]. split; [done|].
    rewrite bool_decide_eq_true_2; [done | left].
  - destruct (inner_except_step user env e w) as (Hm & He & answers & Hs & Hl).
    split; [by destruct user|]. split; [done|].
    exists answers. split; [done|]. rewrite Hl.
    rewrite (bool_decide_ext
               (Delivered ∈ [SendRaises e; except_send env; outer_send env])
               (Delivered ∈ [except_send env; outer_send env])); [done|].
    rewrite (elem_of_cons _ _ (SendRaises e)). naive_solver.
Qed.

(** One message: what reaches the client, the engine and the monitor. *)
Lemma handle_step user w m :
  (exists answers,
     sent (handle user w m) = sent w ++ answers /\
     length answers
     = (if bool_decide (Delivered ∈ attempts m) then 1 else 0)%nat) /\
  engine_calls (handle user w m)
  = engine_calls w
    ++ (if in_audio m is [] then []
        else [(in_audio m, Realtime.default_language)]) /\
  monitor (handle user w m)
  = (if user is Some _
     then Monitor.record_observations (observations_of m) (monitor w)
     else monitor w).
Proof.
  unfold handle, process_audio_directly, attempts, observations_of.
  destruct (in_audio m) as [|b audio].
  { destruct (answer_send (in_env m)) as [|e].
    - split; [|split; [by rewrite app_nil_r | by destruct user]].
      eexists [_]. split; [done|].
      rewrite bool_decide_eq_true_2; [done | left].
    - destruct (outer_except_step (in_env m) e w) as (Hm & He & Hs).
      rewrite Hm, He, Hs.
      split; [|split; [by rewrite app_nil_r | by destruct user]].
      eexists. split; [done|].
      destruct (outer_send (in_env m)) as [|e'].
      + rewrite bool_decide_eq_true_2; [done | right; left].
      + rewrite bool_decide_eq_false_2; [done|].
        intros Hin. repeat (apply elem_of_cons in Hin as [Hin|Hin]; [done|]).
        by apply elem_of_nil in Hin. }
  cbv zeta.
  set (w1 := {| monitor := monitor w;
                engine_calls :=
                  engine_calls w ++ [(b :: audio, Realtime.default_language)];
                sent := sent w |}).
  destruct (reply (in_env m)) as [result|message].
  2: { destruct (inner_except_step user (in_env m) message w1)
         as (Hm & He & answers & Hs & Hl).
       rewrite Hm, He. split; [by exists answers|]. split; [done|].
       by destruct user. }
  assert (Hany : forall msg w2,
             engine_calls w2 = engine_calls w1 -> sent w2 = sent w1 ->
             (exists answers,
                sent (answer user (in_env m) msg w2) = sent w ++ answers /\
                length answers
                = (if bool_decide
                        (Delivered ∈ [answer_send (in_env m);
                                      except_send (in_env m);
                                      outer_send (in_env m)])
                   then 1 else 0)%nat) /\
             engine_calls (answer user (in_env m) msg w2)
             = engine_calls w ++ [(b :: audio, Realtime.default_language)] /\
             monitor (answer user (in_env m) msg w2)
             = (match user, answer_send (in_env m) with
                | Some _, SendRaises _ =>
                    Monitor.record_model_performance (except_utc (in_env m))
                      "whisper" 0.0%float 0.0%float (except_elapsed (in_env m))
                      true (monitor w2)
                | _, _ => monitor w2
                end)).
  { intros msg w2 He2 Hs2.
    destruct (answer_step user (in_env m) msg w2) as (Hm & He & answers & Hs & Hl).
    rewrite Hm, He, He2. split; [|done].
    exists answers. by rewrite Hs, Hs2. }
  destruct (Engine.error result) as [err|].
  - match goal with
    | |- context [answer user (in_env m) ?msg ?w2] =>
        destruct (Hany msg w2) as (Ha & He & Hm)
    end; [by destruct user | by destruct user |].
    split; [exact Ha|]. split; [exact He|]. rewrite Hm.
    destruct user; [|done]. by destruct (answer_send (in_env m)).
  - destruct (bool_decide (Py.strip (default "" (Engine.text result)) = ""));
      match goal with
      | |- context [answer user (in_env m) ?msg ?w2] =>
          destruct (Hany msg w2) as (Ha & He & Hm)
      end; try (by destruct user);
      (split; [exact Ha|]; split; [exact He|]; rewrite Hm;
       destruct user; [|done]; by destruct (answer_send (in_env m))).
Qed.

(** X23. For the binary messages of a client, handled one after the
    other: the client receives at most one message per binary message,
    after what it had received before, and exactly one for every binary
    message for which one of the [send_text] calls made delivers; the
    engine is called once for every message that has bytes, on those
    bytes and in order; for an authenticated client the monitor receives,
    per engine call, the sample of the result followed by a failure
    sample when the inner [except] clause ran (the engine raised, or
    the answer could not be sent), and the messages of an anonymous
    client leave the monitor untouched. *)
Theorem at_most_one_answer_per_message (user : option string)
        (msgs : list Incoming) (w : World) :
  let w' := handle_all user msgs w in
  (exists answers,
     sent w' = sent w ++ answers /\
     length answers
     = length (filter (fun m => Delivered ∈ attempts m) msgs) /\
     (length answers <= length msgs)%nat) /\
  engine_calls w'
  = engine_calls w
    ++ ((fun m => (in_audio m, Realtime.default_language))
        <$> filter (fun m => in_audio m <> []) msgs) /\
  monitor w'
  = match user with
    | Some _ =>
        Monitor.record_observations (msgs ≫= observations_of) (monitor w)
    | None => monitor w
    end.
Proof.
  cbv zeta. revert w. induction msgs as [|m msgs IH]; intros w.
  - simpl. rewrite app_nil_r. split; [|split; [done | by destruct user]].
    exists []. by rewrite app_nil_r.
  - change (handle_all user (m :: msgs) w) with (handle_all user msgs (handle user w m)).
    destruct (IH (handle user w m)) as ((rest & I1 & I1' & I1'') & I2 & I3).
    destruct (handle_step user w m) as ((first & S1 & S1') & S2 & S3).
    rewrite I1, I2, I3, S1, S2, S3. clear IH I1 I2 I3 S1 S2 S3.
    split; [|split].
    + exists (first ++ rest). split; [by rewrite app_assoc|].
      rewrite length_app, filter_cons, I1', S1'. simpl length.
      split; [|case_bool_decide; lia].
      destruct (decide (Delivered ∈ attempts m)) as [Hin|Hout].
      * rewrite bool_decide_eq_true_2 by done. reflexivity.
      * rewrite bool_decide_eq_false_2 by done. reflexivity.
    + rewrite filter_cons.
      destruct (decide (in_audio m <> [])) as [Hne|Heq].
      * rewrite fmap_cons, <- app_assoc. by destruct (in_audio m).
      * destruct (in_audio m); [by rewrite app_nil_r | by destruct Heq].
    + destruct user as [u|]; [|done].
      rewrite bind_cons. unfold Monitor.record_observations.
      by rewrite fold_left_app.
Qed.

End DirectStreams.

Example sample_messages_answers :
  Direct.sent (Direct.handle_all (Some "user-7") Direct.sample_messages Direct.fresh)
  = [Direct.TranscriptionMessage "hello world" 0.93%float "en";
     Direct.ErrorMessage "No audio data received";
     Direct.ErrorMessage "Speech recognition error: timeout";
     Direct.ErrorMessage "Transcription failed: upstream timeout"].
Proof. vm_compute. reflexivity. Qed.

(** The last of the sample messages: the transcription cannot be sent
    because the client has gone.  Nothing reaches the client, and the
    monitor holds two samples for the one engine call, the result's and
    the failure sample of the [except] clause. *)
Example client_gone_leaves_two_samples :
  let m := {| Direct.in_audio := [Byte.x05];
              Direct.in_env :=
                Direct.client_gone Realtime.engine_hello 0.5%float 14 |} in
  let w' := Direct.handle (Some "user-7") Direct.fresh m in
  Direct.sent w' = [] /\
  Direct.engine_calls w' = [([Byte.x05], "en")] /\
  Monitor.error_rate <$> Monitor.history_for "whisper" (Direct.monitor w')
  = [0.0%float; 1.0%float] /\
  Monitor.processing_time <$> Monitor.history_for "whisper" (Direct.monitor w')
  = [0.5%float; 1.0%float].
Proof. repeat split; vm_compute; reflexivity. Qed.
